(** * utf8_converter: encoding detection and conversion to UTF-8

    A shallow embedding of [src/utf8_converter_api.cpp] (namespace [enc])
    and the properties its specification states about it.

    Conventions of the embedding.
    - An [unsigned char] is a [Z] in [0, 256) ([is_byte]); a buffer
      [(p, n)] or a [std::vector<unsigned char>] is a [list Z].  A loop
      that walks a buffer with an index [i] is a recursion on the bytes
      from [i] on where every pass advances by the same number of bytes;
      the two loops whose stride depends on the data ([is_valid_utf8],
      [decode_utf16]) keep their index and bound, with the number of
      passes as fuel, and are shown equal to a recursion on the
      remaining bytes.
    - [uint16_t], [uint32_t] and [char] values are [Z] with the
      truncation of the C++ conversion written out ([u16], [u32],
      [to_char]); bit operations are [Z.land], [Z.lor], [Z.shiftl] and
      [Z.shiftr].
    - Encoding names are the C strings of the source.
    - [size_t] counters are [nat]; the [double] of the scorer is a
      rational [Q] (see [score_u32_text]).
    - The file system is a finite map from paths to contents, threaded
      through a small state monad together with the outcome of each
      fallible call. *)

From Stdlib Require Import ZArith QArith Lia Lqa.
From stdpp Require Import gmap strings list.

Local Open Scope Z_scope.

(** ** Bytes and fixed-width integers *)

Definition is_byte (b : Z) : Prop := 0 <= b < 256.

(** [static_cast<char>(x)], read back as an [unsigned char]. *)
Definition to_char (x : Z) : Z := x mod 256.

(** Conversion to [uint16_t] and [uint32_t]. *)
Definition u16 (x : Z) : Z := x mod 65536.
Definition u32 (x : Z) : Z := x mod 4294967296.

(** [b[i]] for a vector [b]; every use in the source is guarded by a
    size check, the default is never read. *)
Definition at_ (b : list Z) (i : nat) : Z := nth i b 0.

(** ** UTF-8 helpers *)

(** [(x & 0xC0) != 0x80], the test of the continuation loop. *)
Definition not_cont (x : Z) : bool := negb (Z.land x 0xC0 =? 0x80).

(** One pass through the body of the [while] loop of [is_valid_utf8] at
    index [i]: the next value of [i], or [None] for [return false]. *)
Definition is_valid_utf8_body (s : list Z) (n i : nat) : option nat :=
  let c := at_ s i in
  if c <=? 0x7F then Some (i + 1)%nat
  else
    let extra :=
      if Z.land c 0xE0 =? 0xC0 then (if c <? 0xC2 then None else Some 1%nat)
      else if Z.land c 0xF0 =? 0xE0 then Some 2%nat
      else if Z.land c 0xF8 =? 0xF0 then (if c >? 0xF4 then None else Some 3%nat)
      else None in
    match extra with
    | None => None
    | Some extra =>
        if (n <=? i + extra)%nat then None
        else if existsb (fun j => not_cont (at_ s (i + j))) (seq 1 extra) then None
        else if (extra =? 2)%nat then
          let c1 := at_ s (i + 1) in
          if (c =? 0xE0) && (c1 <? 0xA0) then None
          else if (c =? 0xED) && (c1 >=? 0xA0) then None
          else Some (i + (extra + 1))%nat
        else if (extra =? 3)%nat then
          let c1 := at_ s (i + 1) in
          if (c =? 0xF0) && (c1 <? 0x90) then None
          else if (c =? 0xF4) && (c1 >=? 0x90) then None
          else Some (i + (extra + 1))%nat
        else Some (i + (extra + 1))%nat
    end.

(** [while (i < n) { ... } return true;] with at most [fuel] passes. *)
Fixpoint is_valid_utf8_while (fuel : nat) (s : list Z) (n i : nat) : bool :=
  match fuel with
  | O => true
  | S fuel' =>
      if (i <? n)%nat then
        match is_valid_utf8_body s n i with
        | Some i' => is_valid_utf8_while fuel' s n i'
        | None => false
        end
      else true
  end.

(** [is_valid_utf8(s, n)] on the span of the [n] bytes of [s].  Every
    pass moves [i] forward, so [n] passes and the last test of the guard
    are all the loop can make ([is_valid_utf8_eq] shows it). *)
Definition is_valid_utf8 (s : list Z) : bool :=
  is_valid_utf8_while (S (length s)) s (length s) 0.

(** [append_utf8(out, cp)]: the new contents of [out]. *)
Definition append_utf8 (out : list Z) (cp : Z) : list Z :=
  if cp <=? 0x7F then out ++ [to_char cp]
  else if cp <=? 0x7FF then
    out ++ [to_char (Z.lor 0xC0 (Z.shiftr cp 6));
            to_char (Z.lor 0x80 (Z.land cp 0x3F))]
  else if cp <=? 0xFFFF then
    out ++ [to_char (Z.lor 0xE0 (Z.shiftr cp 12));
            to_char (Z.lor 0x80 (Z.land (Z.shiftr cp 6) 0x3F));
            to_char (Z.lor 0x80 (Z.land cp 0x3F))]
  else
    out ++ [to_char (Z.lor 0xF0 (Z.shiftr cp 18));
            to_char (Z.lor 0x80 (Z.land (Z.shiftr cp 12) 0x3F));
            to_char (Z.lor 0x80 (Z.land (Z.shiftr cp 6) 0x3F));
            to_char (Z.lor 0x80 (Z.land cp 0x3F))].

(** [u32_to_utf8]: the range-for loop over the code points. *)
Definition u32_to_utf8 (u : list Z) : list Z := fold_left append_utf8 u [].

(** ** BOM detection *)

Record BomInfo := mkBomInfo { name : string; size : nat }.

Definition detect_bom (b : list Z) : option BomInfo :=
  if (3 <=? length b)%nat && (at_ b 0 =? 0xEF) && (at_ b 1 =? 0xBB) && (at_ b 2 =? 0xBF)
  then Some (mkBomInfo "UTF-8" 3)
  else if (2 <=? length b)%nat && (at_ b 0 =? 0xFF) && (at_ b 1 =? 0xFE)
  then Some (mkBomInfo "UTF-16LE" 2)
  else if (2 <=? length b)%nat && (at_ b 0 =? 0xFE) && (at_ b 1 =? 0xFF)
  then Some (mkBomInfo "UTF-16BE" 2)
  else if (4 <=? length b)%nat && (at_ b 0 =? 0xFF) && (at_ b 1 =? 0xFE)
          && (at_ b 2 =? 0x00) && (at_ b 3 =? 0x00)
  then Some (mkBomInfo "UTF-32LE" 4)
  else if (4 <=? length b)%nat && (at_ b 0 =? 0x00) && (at_ b 1 =? 0x00)
          && (at_ b 2 =? 0xFE) && (at_ b 3 =? 0xFF)
  then Some (mkBomInfo "UTF-32BE" 4)
  else None.

(** ** Heuristics for UTF-16/32 without BOM *)

(** [for (i = 0; i + 1 < b.size(); i += 2) cnt += f(b[i], b[i+1])]. *)
Fixpoint count_units2 (f : Z -> Z -> bool) (b : list Z) : nat :=
  match b with
  | x0 :: x1 :: r => ((if f x0 x1 then 1 else 0) + count_units2 f r)%nat
  | _ => 0%nat
  end.

(** [for (i = 0; i + 3 < b.size(); i += 4) cnt += f(b[i], .., b[i+3])]. *)
Fixpoint count_units4 (f : Z -> Z -> Z -> Z -> bool) (b : list Z) : nat :=
  match b with
  | x0 :: x1 :: x2 :: x3 :: r =>
      ((if f x0 x1 x2 x3 then 1 else 0) + count_units4 f r)%nat
  | _ => 0%nat
  end.

Definition looks_like_utf16_le (b : list Z) : bool :=
  if (length b <? 6)%nat then false
  else
    let zeros_odd := count_units2 (fun _ x1 => x1 =? 0) b in
    let zeros_even := count_units2 (fun x0 _ => x0 =? 0) b in
    ((zeros_even * 3 <? zeros_odd) && (length b / 8 <? zeros_odd))%nat.

Definition looks_like_utf16_be (b : list Z) : bool :=
  if (length b <? 6)%nat then false
  else
    let zeros_even := count_units2 (fun x0 _ => x0 =? 0) b in
    let zeros_odd := count_units2 (fun _ x1 => x1 =? 0) b in
    ((zeros_odd * 3 <? zeros_even) && (length b / 8 <? zeros_even))%nat.

Definition looks_like_utf32_le (b : list Z) : bool :=
  if (length b <? 8)%nat then false
  else
    let zero_cnt :=
      count_units4 (fun _ x1 x2 x3 => (x1 =? 0) && (x2 =? 0) && (x3 =? 0)) b in
    (length b / 16 <? zero_cnt)%nat.

Definition looks_like_utf32_be (b : list Z) : bool :=
  if (length b <? 8)%nat then false
  else
    let zero_cnt :=
      count_units4 (fun x0 x1 x2 _ => (x0 =? 0) && (x1 =? 0) && (x2 =? 0)) b in
    (length b / 16 <? zero_cnt)%nat.

(** ** Single-byte decoding tables *)

(** Each table maps the bytes 0x80..0xFF to a code point, row by row as
    in the source. *)

Definition CP1251_TABLE : list Z :=
  [ 0x0402; 0x0403; 0x201A; 0x0453; 0x201E; 0x2026; 0x2020; 0x2021; 0x20AC; 0x2030; 0x0409; 0x2039; 0x040A; 0x040C; 0x040B; 0x040F;
    0x0452; 0x2018; 0x2019; 0x201C; 0x201D; 0x2022; 0x2013; 0x2014; 0x0000; 0x2122; 0x0459; 0x203A; 0x045A; 0x045C; 0x045B; 0x045F;
    0x00A0; 0x040E; 0x045E; 0x0408; 0x00A4; 0x0490; 0x00A6; 0x00A7; 0x0401; 0x00A9; 0x0404; 0x00AB; 0x00AC; 0x00AD; 0x00AE; 0x0407;
    0x00B0; 0x00B1; 0x0406; 0x0456; 0x0491; 0x00B5; 0x00B6; 0x00B7; 0x0451; 0x2116; 0x0454; 0x00BB; 0x0458; 0x0405; 0x0455; 0x0457;
    0x0410; 0x0411; 0x0412; 0x0413; 0x0414; 0x0415; 0x0416; 0x0417; 0x0418; 0x0419; 0x041A; 0x041B; 0x041C; 0x041D; 0x041E; 0x041F;
    0x0420; 0x0421; 0x0422; 0x0423; 0x0424; 0x0425; 0x0426; 0x0427; 0x0428; 0x0429; 0x042A; 0x042B; 0x042C; 0x042D; 0x042E; 0x042F;
    0x0430; 0x0431; 0x0432; 0x0433; 0x0434; 0x0435; 0x0436; 0x0437; 0x0438; 0x0439; 0x043A; 0x043B; 0x043C; 0x043D; 0x043E; 0x043F;
    0x0440; 0x0441; 0x0442; 0x0443; 0x0444; 0x0445; 0x0446; 0x0447; 0x0448; 0x0449; 0x044A; 0x044B; 0x044C; 0x044D; 0x044E; 0x044F ].

Definition KOI8R_TABLE : list Z :=
  [ 0x2500; 0x2502; 0x250C; 0x2510; 0x2514; 0x2518; 0x251C; 0x2524; 0x252C; 0x2534; 0x253C; 0x2580; 0x2584; 0x2588; 0x258C; 0x2590;
    0x2591; 0x2592; 0x2593; 0x2320; 0x25A0; 0x2219; 0x221A; 0x2248; 0x2264; 0x2265; 0x00A0; 0x2321; 0x00B0; 0x00B2; 0x00B7; 0x00F7;
    0x2550; 0x2551; 0x2552; 0x0451; 0x2553; 0x2554; 0x2555; 0x2556; 0x2557; 0x2558; 0x2559; 0x255A; 0x255B; 0x255C; 0x255D; 0x255E;
    0x255F; 0x2560; 0x2561; 0x0401; 0x2562; 0x2563; 0x2564; 0x2565; 0x2566; 0x2567; 0x2568; 0x2569; 0x256A; 0x256B; 0x256C; 0x00A9;
    0x044E; 0x0430; 0x0431; 0x0446; 0x0434; 0x0435; 0x0444; 0x0433; 0x0445; 0x0438; 0x0439; 0x043A; 0x043B; 0x043C; 0x043D; 0x043E;
    0x043F; 0x044F; 0x0440; 0x0441; 0x0442; 0x0443; 0x0436; 0x0432; 0x044C; 0x044B; 0x0437; 0x0448; 0x044D; 0x0449; 0x0447; 0x044A;
    0x042E; 0x0410; 0x0411; 0x0426; 0x0414; 0x0415; 0x0424; 0x0413; 0x0425; 0x0418; 0x0419; 0x041A; 0x041B; 0x041C; 0x041D; 0x041E;
    0x041F; 0x042F; 0x0420; 0x0421; 0x0422; 0x0423; 0x0416; 0x0412; 0x042C; 0x042B; 0x0417; 0x0428; 0x042D; 0x0429; 0x0427; 0x042A ].

Definition ISO8859_5_TABLE : list Z :=
  [ 0x0080; 0x0081; 0x0082; 0x0083; 0x0084; 0x0085; 0x0086; 0x0087; 0x0088; 0x0089; 0x008A; 0x008B; 0x008C; 0x008D; 0x008E; 0x008F;
    0x0090; 0x0091; 0x0092; 0x0093; 0x0094; 0x0095; 0x0096; 0x0097; 0x0098; 0x0099; 0x009A; 0x009B; 0x009C; 0x009D; 0x009E; 0x009F;
    0x00A0; 0x0401; 0x0402; 0x0403; 0x0404; 0x0405; 0x0406; 0x0407; 0x0408; 0x0409; 0x040A; 0x040B; 0x040C; 0x00AD; 0x040E; 0x040F;
    0x0410; 0x0411; 0x0412; 0x0413; 0x0414; 0x0415; 0x0416; 0x0417; 0x0418; 0x0419; 0x041A; 0x041B; 0x041C; 0x041D; 0x041E; 0x041F;
    0x0420; 0x0421; 0x0422; 0x0423; 0x0424; 0x0425; 0x0426; 0x0427; 0x0428; 0x0429; 0x042A; 0x042B; 0x042C; 0x042D; 0x042E; 0x042F;
    0x0430; 0x0431; 0x0432; 0x0433; 0x0434; 0x0435; 0x0436; 0x0437; 0x0438; 0x0439; 0x043A; 0x043B; 0x043C; 0x043D; 0x043E; 0x043F;
    0x0440; 0x0441; 0x0442; 0x0443; 0x0444; 0x0445; 0x0446; 0x0447; 0x0448; 0x0449; 0x044A; 0x044B; 0x044C; 0x044D; 0x044E; 0x044F;
    0x2116; 0x0451; 0x0452; 0x0453; 0x0454; 0x0455; 0x0456; 0x0457; 0x0458; 0x0459; 0x045A; 0x045B; 0x045C; 0x00A7; 0x045E; 0x045F ].

Definition MACCYR_TABLE : list Z :=
  [ 0x0410; 0x0411; 0x0412; 0x0413; 0x0414; 0x0415; 0x0416; 0x0417; 0x0418; 0x0419; 0x041A; 0x041B; 0x041C; 0x041D; 0x041E; 0x041F;
    0x0420; 0x0421; 0x0422; 0x0423; 0x0424; 0x0425; 0x0426; 0x0427; 0x0428; 0x0429; 0x042A; 0x042B; 0x042C; 0x042D; 0x042E; 0x042F;
    0x2020; 0x00B0; 0x0490; 0x00A3; 0x00A7; 0x2022; 0x00B6; 0x0406; 0x00AE; 0x00A9; 0x2122; 0x0402; 0x0452; 0x2260; 0x0403; 0x0453;
    0x221E; 0x00B1; 0x2264; 0x2265; 0x00A5; 0x0491; 0x0408; 0x0404; 0x0407; 0x0409; 0x040A; 0x040C; 0x0459; 0x045A; 0x045C; 0x045B;
    0x045F; 0x00A4; 0x00AB; 0x00BB; 0x2591; 0x2592; 0x2593; 0x2502; 0x2524; 0x00A0; 0x044E; 0x0430; 0x0431; 0x0446; 0x0434; 0x0435;
    0x0444; 0x0433; 0x0445; 0x0438; 0x0439; 0x043A; 0x043B; 0x043C; 0x043D; 0x043E; 0x043F; 0x044F; 0x0440; 0x0441; 0x0442; 0x0443;
    0x0436; 0x0432; 0x044C; 0x044B; 0x0437; 0x0448; 0x044D; 0x0449; 0x0447; 0x044A; 0x042E; 0x0410; 0x0411; 0x0426; 0x0414; 0x0415;
    0x0424; 0x0413; 0x0425; 0x0418; 0x0419; 0x041A; 0x041B; 0x041C; 0x041D; 0x041E; 0x041F; 0x042F; 0x0420; 0x0421; 0x0422; 0x0423 ].

(** ** Decoders *)

Inductive SingleByte := CP1251 | KOI8R | ISO8859_5 | MACCYR.

(** The 16-bit unit [p[i], p[i+1]] in the given byte order. *)
Definition unit16 (be : bool) (x0 x1 : Z) : Z :=
  if be then u16 (Z.lor (Z.shiftl (u16 x0) 8) (u16 x1))
  else u16 (Z.lor (Z.shiftl (u16 x1) 8) (u16 x0)).

(** One pass through the body of the [for] loop of [decode_utf16] at
    index [i]: the new contents of [out], and the value of [i] at the
    end of the body, or [None] after [break].  The header of the loop
    then adds 2 to [i]. *)
Definition decode_utf16_body (p : list Z) (n : nat) (be : bool) (i : nat) (out : list Z)
  : option nat * list Z :=
  let u := unit16 be (at_ p i) (at_ p (i + 1)) in
  if (u >=? 0xD800) && (u <=? 0xDBFF) then
    if (n <=? i + 3)%nat then (None, out ++ [0xFFFD])
    else
      let v := unit16 be (at_ p (i + 2)) (at_ p (i + 3)) in
      if (v <? 0xDC00) || (v >? 0xDFFF) then (Some (i + 2)%nat, out ++ [0xFFFD])
      else
        let cp := u32 (0x10000 + Z.lor (Z.shiftl (u - 0xD800) 10) (v - 0xDC00)) in
        (Some (i + 2)%nat, out ++ [cp])
  else if (u >=? 0xDC00) && (u <=? 0xDFFF) then (Some i, out ++ [0xFFFD])
  else (Some i, out ++ [u]).

(** [for (; i + 1 < n; i += 2) { ... } return out;] with at most [fuel]
    passes. *)
Fixpoint decode_utf16_for (fuel : nat) (p : list Z) (n : nat) (be : bool)
    (i : nat) (out : list Z) : list Z :=
  match fuel with
  | O => out
  | S fuel' =>
      if (i + 1 <? n)%nat then
        match decode_utf16_body p n be i out with
        | (Some i', out') => decode_utf16_for fuel' p n be (i' + 2) out'
        | (None, out') => out'
        end
      else out
  end.

(** [decode_utf16(p, n, be)] on the [n] bytes of [p]; [if (n % 2) n--]
    drops a trailing odd byte.  Every pass moves [i] forward, so [n]
    passes and the last test of the guard are all the loop can make
    ([decode_utf16_eq] shows it). *)
Definition decode_utf16 (p : list Z) (be : bool) : list Z :=
  let n := length p in
  let n := if negb (n mod 2 =? 0)%nat then (n - 1)%nat else n in
  decode_utf16_for (S n) p n be 0 [].

(** The 32-bit unit [p[i..i+3]] in the given byte order. *)
Definition unit32 (be : bool) (x0 x1 x2 x3 : Z) : Z :=
  if be then
    u32 (Z.lor (Z.lor (Z.lor (Z.shiftl (u32 x0) 24) (Z.shiftl (u32 x1) 16))
                      (Z.shiftl (u32 x2) 8)) (u32 x3))
  else
    u32 (Z.lor (Z.lor (Z.lor (Z.shiftl (u32 x3) 24) (Z.shiftl (u32 x2) 16))
                      (Z.shiftl (u32 x1) 8)) (u32 x0)).

(** [decode_utf32(p, n, be)]: a trailing partial unit is dropped. *)
Fixpoint decode_utf32 (p : list Z) (be : bool) : list Z :=
  match p with
  | x0 :: x1 :: x2 :: x3 :: r =>
      let cp := unit32 be x0 x1 x2 x3 in
      let cp := if (cp >? 0x10FFFF) || ((cp >=? 0xD800) && (cp <=? 0xDFFF))
                then 0xFFFD else cp in
      cp :: decode_utf32 r be
  | _ => []
  end.

(** The table the [switch] selects. *)
Definition table_of (t : SingleByte) : list Z :=
  match t with
  | CP1251 => CP1251_TABLE
  | KOI8R => KOI8R_TABLE
  | ISO8859_5 => ISO8859_5_TABLE
  | MACCYR => MACCYR_TABLE
  end.

(** The body of the loop of [decode_single_byte] for one byte [b]. *)
Definition single_byte_cp (t : SingleByte) (b : Z) : Z :=
  if b <? 0x80 then b
  else
    let cp := nth (Z.to_nat (b - 0x80)) (table_of t) 0 in
    let cp := if cp =? 0x0000 then 0xFFFD else cp in
    cp.

(** [decode_single_byte(p, n, t)]: one code point per byte, in order. *)
Definition decode_single_byte (p : list Z) (t : SingleByte) : list Z :=
  map (single_byte_cp t) p.

(** ** Scoring *)

(** The three [size_t] counters of [score_u32_text]. *)
Record counters := mkCounters { cyr : nat; good : nat; bad : nat }.

(** The body of the range-for loop for one code point; each [continue]
    is the end of a branch. *)
Definition score_step (k : counters) (cp : Z) : counters :=
  if cp =? 0x0000 then mkCounters (cyr k) (good k) (bad k + 3)
  else if (cp <? 0x20) && negb (cp =? 0x09) && negb (cp =? 0x0A) && negb (cp =? 0x0D)
  then mkCounters (cyr k) (good k) (bad k + 2)
  else if (cp >=? 0x0400) && (cp <=? 0x04FF)
  then mkCounters (cyr k + 1) (good k + 1) (bad k)
  else if ((cp >=? 0x0020) && (cp <=? 0x007E)) || (cp =? 0x00A0) || (cp =? 0x2116)
  then mkCounters (cyr k) (good k + 1) (bad k)
  else if cp =? 0xFFFD then mkCounters (cyr k) (good k) (bad k + 2)
  else if ((cp >=? 0x2000) && (cp <=? 0x206F)) || ((cp >=? 0x20) && (cp <=? 0x7E))
  then mkCounters (cyr k) (good k + 1) (bad k)
  else k.

(** [static_cast<double>(n)] for a counter [n]. *)
Definition to_double (n : nat) : Q := inject_Z (Z.of_nat n).

(** [score_u32_text(u)].  The [double] result is the rational number the
    expression denotes: the counters convert to [double] without loss
    below 2^53, and so do their sum and difference and the product with
    1.5; only the final division rounds, to the nearest [double], which
    keeps the order of two quotients. *)
Definition score_u32_text (u : list Z) : Q :=
  match u with
  | [] => 0%Q
  | _ =>
      let total := length u in
      let k := fold_left score_step u (mkCounters 0 0 0) in
      let score := (to_double (good k) - to_double (bad k) + (3 # 2) * to_double (cyr k))%Q in
      (score / to_double total)%Q
  end.

(** ** Internal buffer-based detection *)

(** [s > bestScore] on scores. *)
Definition score_gt (s best : Q) : bool := negb (Qle_bool s best).

Definition cands : list (string * SingleByte) :=
  [ ("WINDOWS-1251", CP1251); ("KOI8-R", KOI8R);
    ("ISO-8859-5", ISO8859_5); ("MACCYRILLIC", MACCYR) ].

(** The body of the loop over [cands]; the state is [(bestScore, bestName)]. *)
Definition cand_step (bytes : list Z) (best : Q * string) (c : string * SingleByte)
  : Q * string :=
  let u := decode_single_byte bytes (snd c) in
  let s := score_u32_text u in
  if score_gt s (fst best) then (s, fst c) else best.

Definition DetectEncodingFromBuffer (bytes : list Z) : string :=
  match bytes with
  | [] => "UTF-8"
  | _ =>
      match detect_bom bytes with
      | Some bom => name bom
      | None =>
          if looks_like_utf32_le bytes then "UTF-32LE"
          else if looks_like_utf32_be bytes then "UTF-32BE"
          else if looks_like_utf16_le bytes then "UTF-16LE"
          else if looks_like_utf16_be bytes then "UTF-16BE"
          else if is_valid_utf8 bytes then "UTF-8"
          else snd (fold_left (cand_step bytes) cands ((-1000000000)%Q, "WINDOWS-1251"))
      end
  end.

(** ** Public API: buffers *)

(** [ConvertBufferToUtf8(bytes, detected_out)]: the returned string and
    the name stored through [detected_out]. *)
Definition ConvertBufferToUtf8 (bytes : list Z) : list Z * string :=
  match bytes with
  | [] => ([], "UTF-8")
  | _ =>
      let bom := detect_bom bytes in
      let encname := match bom with
                     | Some b => name b
                     | None => DetectEncodingFromBuffer bytes
                     end in
      let off := match bom with Some b => size b | None => 0%nat end in
      let p := drop off bytes in
      if String.eqb encname "UTF-8" then
        if negb (is_valid_utf8 p)
        then (u32_to_utf8 (decode_single_byte p CP1251), "WINDOWS-1251")
        else (p, encname)
      else if String.eqb encname "UTF-16LE" then (u32_to_utf8 (decode_utf16 p false), encname)
      else if String.eqb encname "UTF-16BE" then (u32_to_utf8 (decode_utf16 p true), encname)
      else if String.eqb encname "UTF-32LE" then (u32_to_utf8 (decode_utf32 p false), encname)
      else if String.eqb encname "UTF-32BE" then (u32_to_utf8 (decode_utf32 p true), encname)
      else if String.eqb encname "WINDOWS-1251"
      then (u32_to_utf8 (decode_single_byte p CP1251), encname)
      else if String.eqb encname "KOI8-R"
      then (u32_to_utf8 (decode_single_byte p KOI8R), encname)
      else if String.eqb encname "ISO-8859-5"
      then (u32_to_utf8 (decode_single_byte p ISO8859_5), encname)
      else if String.eqb encname "MACCYRILLIC"
      then (u32_to_utf8 (decode_single_byte p MACCYR), encname)
      else (u32_to_utf8 (decode_single_byte p CP1251), "WINDOWS-1251")
  end.

(** ** Files

    The source reaches the file system through [std::ifstream],
    [std::ofstream] and [std::filesystem]; those calls are the primitives
    of the model.  A world holds the files, the outcome the environment
    gives to each fallible call still to come ([true]: the call
    succeeds; an exhausted list means success), and the
    [std::filesystem] calls made so far with the outcome of each.

    [files] maps a path to the bytes a reader gets from it: a path is
    in the map when a [std::ifstream] on it opens, and absent when the
    stream does not open, for whatever reason (no such file, or a file
    that is there and cannot be read).  The model has no file that is
    present and unreadable apart from this, so a statement that starts
    from [files w !! path = Some data] takes the file as read. *)

Inductive fs_call :=
| Rename (src dst : string)
| Remove (p : string).

Record world := mkWorld {
  files : gmap string (list Z);
  oracle : list bool;
  trace : list (fs_call * bool)
}.

(** The [std::runtime_error]s the source throws. *)
Inductive exn :=
| CannotOpenFile (path : string)
| CannotOpenOutputFile (path : string)
| CannotOpenTempFile (path : string)
| WriteFailedForTempFile (path : string)
| FailedToReplaceFile (path : string).

Inductive result (A : Type) :=
| Ok (a : A)
| Throw (e : exn).
Arguments Ok {A} a.
Arguments Throw {A} e.

(** Computations on the world that return or throw. *)
Definition M (A : Type) : Type := world -> result A * world.

Definition ret {A} (a : A) : M A := fun w => (Ok a, w).
Definition throw {A} (e : exn) : M A := fun w => (Throw e, w).
Definition bind {A B} (m : M A) (k : A -> M B) : M B :=
  fun w => match m w with
           | (Ok a, w') => k a w'
           | (Throw e, w') => (Throw e, w')
           end.

#[global] Instance M_ret : MRet M := @ret.
#[global] Instance M_bind : MBind M := fun A B k m => bind m k.

(** The outcome the environment gives to the next fallible call. *)
Definition next_outcome : M bool :=
  fun w => match oracle w with
           | [] => (Ok true, w)
           | o :: os => (Ok o, mkWorld (files w) os (trace w))
           end.

Definition log (c : fs_call) (ok : bool) : M unit :=
  fun w => (Ok tt, mkWorld (files w) (oracle w) (trace w ++ [(c, ok)])).

Definition set_files (f : gmap string (list Z)) : M unit :=
  fun w => (Ok tt, mkWorld f (oracle w) (trace w)).

Definition get_files : M (gmap string (list Z)) :=
  fun w => (Ok (files w), w).

(** [read_file_bytes(path)]: throws when the stream does not open, that
    is when [path] is not in [files].  The source checks neither
    [tellg] nor [read]; the model takes both to succeed on a stream
    that opened and returns the whole contents. *)
Definition read_file_bytes (path : string) : M (list Z) :=
  f ← get_files;
  match f !! path with
  | Some data => ret data
  | None => throw (CannotOpenFile path)
  end.

(** [fs::rename(src, dst, ec)]: returns whether [ec] is set.  A rename
    that succeeds moves the contents of [src] to [dst]; one that fails
    changes nothing. *)
Definition fs_rename (src dst : string) : M bool :=
  ok ← next_outcome;
  f ← get_files;
  match f !! src with
  | Some data =>
      if ok : bool then
        set_files (<[dst := data]> (delete src f));;
        log (Rename src dst) true;;
        ret false
      else log (Rename src dst) false;; ret true
  | None => log (Rename src dst) false;; ret true
  end.

(** [fs::remove(p, ec)]: returns whether [ec] is set.  Removing a file
    that does not exist is no error. *)
Definition fs_remove (p : string) : M bool :=
  ok ← next_outcome;
  f ← get_files;
  if ok : bool then
    set_files (delete p f);;
    log (Remove p) true;;
    ret false
  else log (Remove p) false;; ret true.

(** Opening [path] for writing with [std::ios::trunc]: returns whether
    the stream is good; a good stream has created or truncated the file. *)
Definition open_trunc (path : string) : M bool :=
  ok ← next_outcome;
  f ← get_files;
  if ok : bool then set_files (<[path := []]> f);; ret true
  else ret false.

(** [out.write(..)] and [out.flush()] on an open stream: returns whether
    the stream is still good; a write that fails leaves the file as it
    was opened. *)
Definition write_flush (path : string) (data : list Z) : M bool :=
  ok ← next_outcome;
  f ← get_files;
  if ok : bool then set_files (<[path := data]> f);; ret true
  else ret false.

(** ** Public API: files *)

Definition DetectEncoding (path : string) : M string :=
  bytes ← read_file_bytes path;
  ret (DetectEncodingFromBuffer bytes).

Definition ConvertFileToUtf8 (path : string) : M (list Z * string) :=
  bytes ← read_file_bytes path;
  ret (ConvertBufferToUtf8 bytes).

(** [ConvertFileToUtf8To]: the result of the unchecked [out.write] is
    dropped, as in the source. *)
Definition ConvertFileToUtf8To (input_path output_path : string) : M string :=
  r ← ConvertFileToUtf8 input_path;
  good ← open_trunc output_path;
  if negb good then throw (CannotOpenOutputFile output_path)
  else
    write_flush output_path (fst r);;
    ret (snd r).

(** The name of the temporary file: [tmp += ".utf8.tmp"]. *)
Definition tmp_of (path : string) : string := path +:+ ".utf8.tmp".

Definition ConvertFileToUtf8Inplace (path : string) : M string :=
  let p := path in
  let tmp := tmp_of path in
  (* 1) Convert *)
  r ← ConvertFileToUtf8 path;
  (* 2) Write into a temp file in the same directory *)
  good ← open_trunc tmp;
  if negb good then throw (CannotOpenTempFile tmp)
  else
    good ← write_flush tmp (fst r);
    if negb good then throw (WriteFailedForTempFile tmp)
    else
      (* 3) try rename; if it fails, remove original then retry *)
      ec ← fs_rename tmp p;
      if ec : bool then
        fs_remove p;;
        ec ← fs_rename tmp p;
        if ec : bool then
          fs_remove tmp;;
          throw (FailedToReplaceFile p)
        else ret (snd r)
      else ret (snd r).

(** * Definitions for the proofs and the specification *)

(** ** The two indexed loops, by recursion on the remaining bytes *)

(** [is_valid_utf8] by recursion on the span [s[i..n)] still to be
    checked; the three [match]es on the tail are [i + extra >= n]. *)
Fixpoint is_valid_utf8_rec (s : list Z) : bool :=
  match s with
  | [] => true
  | c :: s1 =>
      if c <=? 0x7F then is_valid_utf8_rec s1
      else if Z.land c 0xE0 =? 0xC0 then
        (* extra = 1 *)
        if c <? 0xC2 then false
        else match s1 with
             | c1 :: s2 =>
                 if not_cont c1 then false
                 else is_valid_utf8_rec s2
             | _ => false
             end
      else if Z.land c 0xF0 =? 0xE0 then
        (* extra = 2 *)
        match s1 with
        | c1 :: c2 :: s3 =>
            if not_cont c1 then false
            else if not_cont c2 then false
            else if (c =? 0xE0) && (c1 <? 0xA0) then false
            else if (c =? 0xED) && (c1 >=? 0xA0) then false
            else is_valid_utf8_rec s3
        | _ => false
        end
      else if Z.land c 0xF8 =? 0xF0 then
        (* extra = 3 *)
        if c >? 0xF4 then false
        else match s1 with
             | c1 :: c2 :: c3 :: s4 =>
                 if not_cont c1 then false
                 else if not_cont c2 then false
                 else if not_cont c3 then false
                 else if (c =? 0xF0) && (c1 <? 0x90) then false
                 else if (c =? 0xF4) && (c1 >=? 0x90) then false
                 else is_valid_utf8_rec s4
             | _ => false
             end
      else false
  end.

(** [decode_utf16] by recursion on the bytes [p[i..n)] still to be
    decoded: a trailing odd byte never forms a unit, and a high
    surrogate without a second unit after it ends the decoding. *)
Fixpoint decode_utf16_rec (p : list Z) (be : bool) : list Z :=
  match p with
  | x0 :: x1 :: r =>
      let u := unit16 be x0 x1 in
      if (u >=? 0xD800) && (u <=? 0xDBFF) then
        match r with
        | x2 :: x3 :: r' =>
            let v := unit16 be x2 x3 in
            if (v <? 0xDC00) || (v >? 0xDFFF) then 0xFFFD :: decode_utf16_rec r' be
            else
              let cp := u32 (0x10000 + Z.lor (Z.shiftl (u - 0xD800) 10) (v - 0xDC00)) in
              cp :: decode_utf16_rec r' be
        | _ => [0xFFFD]
        end
      else if (u >=? 0xDC00) && (u <=? 0xDFFF) then 0xFFFD :: decode_utf16_rec r be
      else u :: decode_utf16_rec r be
  | _ => []
  end.


(** ** The UTF-8 grammar of the validator's specification *)

(** The bit patterns the specification names, read off the bits. *)
Definition bits_10xxxxxx (b : Z) : bool :=
  Z.testbit b 7 && negb (Z.testbit b 6).
Definition bits_110xxxxx (b : Z) : bool :=
  Z.testbit b 7 && Z.testbit b 6 && negb (Z.testbit b 5).
Definition bits_1110xxxx (b : Z) : bool :=
  Z.testbit b 7 && Z.testbit b 6 && Z.testbit b 5 && negb (Z.testbit b 4).
Definition bits_11110xxx (b : Z) : bool :=
  Z.testbit b 7 && Z.testbit b 6 && Z.testbit b 5 && Z.testbit b 4
  && negb (Z.testbit b 3).

(** A span that parses as a sequence of well-formed UTF-8 code points,
    one rule per form of code point.  A span that ends inside a code
    point, or holds a byte that fits no rule, has no derivation. *)
Inductive well_formed_utf8 : list Z -> Prop :=
| wf_end : well_formed_utf8 []
| wf_single c s :
    c <= 0x7F ->
    well_formed_utf8 s -> well_formed_utf8 (c :: s)
| wf_two c c1 s :
    bits_110xxxxx c = true -> c <> 0xC0 -> c <> 0xC1 ->
    bits_10xxxxxx c1 = true ->
    well_formed_utf8 s -> well_formed_utf8 (c :: c1 :: s)
| wf_three c c1 c2 s :
    bits_1110xxxx c = true ->
    bits_10xxxxxx c1 = true -> bits_10xxxxxx c2 = true ->
    (c = 0xE0 -> c1 >= 0xA0) -> (c = 0xED -> c1 < 0xA0) ->
    well_formed_utf8 s -> well_formed_utf8 (c :: c1 :: c2 :: s)
| wf_four c c1 c2 c3 s :
    bits_11110xxx c = true -> c <= 0xF4 ->
    bits_10xxxxxx c1 = true -> bits_10xxxxxx c2 = true ->
    bits_10xxxxxx c3 = true ->
    (c = 0xF0 -> c1 >= 0x90) -> (c = 0xF4 -> c1 < 0x90) ->
    well_formed_utf8 s -> well_formed_utf8 (c :: c1 :: c2 :: c3 :: s).

(** ** The plausibility score of the specification *)

(** What one scalar adds to each of the three counts. *)
Definition spec_bad (cp : Z) : nat :=
  if decide (cp = 0x0000) then 3
  else if decide (0 < cp < 0x20 /\ cp <> 0x09 /\ cp <> 0x0A /\ cp <> 0x0D) then 2
  else if decide (cp = 0xFFFD) then 2
  else 0.

Definition spec_good (cp : Z) : nat :=
  if decide (0x0400 <= cp <= 0x04FF) then 1
  else if decide (0x20 <= cp <= 0x7E \/ cp = 0x00A0 \/ cp = 0x2116) then 1
  else if decide (0x2000 <= cp <= 0x206F) then 1
  else 0.

Definition spec_cyrillic (cp : Z) : nat :=
  if decide (0x0400 <= cp <= 0x04FF) then 1 else 0.

Definition total_of (f : Z -> nat) (u : list Z) : nat :=
  fold_right (fun cp acc => (f cp + acc)%nat) 0%nat u.

(** [(good - bad + 1.5 * cyrillic) / length], and 0 for the empty
    sequence. *)
Definition spec_score (u : list Z) : Q :=
  if decide (u = []) then 0%Q
  else ((inject_Z (Z.of_nat (total_of spec_good u))
         - inject_Z (Z.of_nat (total_of spec_bad u))
         + (3 # 2) * inject_Z (Z.of_nat (total_of spec_cyrillic u)))
        / inject_Z (Z.of_nat (length u)))%Q.

(** A scalar of the Cyrillic block. *)
Definition is_cyrillic (cp : Z) : Prop := 0x0400 <= cp <= 0x04FF.

(** Twice the numerator of the score, an integer: [2 * good + 3 * cyr -
    2 * bad]. *)
Definition num2 (k : counters) : Z :=
  2 * Z.of_nat (good k) + 3 * Z.of_nat (cyr k) - 2 * Z.of_nat (bad k).

(** ** Scalars and their UTF-8 form *)

(** A Unicode scalar value: at most 0x10FFFF and no surrogate. *)
Definition valid_scalar (cp : Z) : Prop :=
  0 <= cp <= 0x10FFFF /\ ~ (0xD800 <= cp <= 0xDFFF).

(** The shortest UTF-8 form of a scalar, by division: one byte up to
    0x7F, two up to 0x7FF, three up to 0xFFFF, four above. *)
Definition utf8_of_scalar (cp : Z) : list Z :=
  if cp <=? 0x7F then [cp]
  else if cp <=? 0x7FF then [0xC0 + cp / 64; 0x80 + cp mod 64]
  else if cp <=? 0xFFFF then
    [0xE0 + cp / 4096; 0x80 + (cp / 64) mod 64; 0x80 + cp mod 64]
  else
    [0xF0 + cp / 262144; 0x80 + (cp / 4096) mod 64; 0x80 + (cp / 64) mod 64;
     0x80 + cp mod 64].

(** The scalar a surrogate pair stands for, by arithmetic. *)
Definition scalar_of_pair (hi lo : Z) : Z :=
  0x10000 + (hi - 0xD800) * 1024 + (lo - 0xDC00).

(** ** The decoding of 16-bit units *)

(** The 16-bit units of a byte buffer in the given byte order, by
    arithmetic; a trailing odd byte forms no unit. *)
Fixpoint utf16_units (be : bool) (p : list Z) : list Z :=
  match p with
  | x0 :: x1 :: r => (if be then x0 * 256 + x1 else x1 * 256 + x0) :: utf16_units be r
  | _ => []
  end.

Definition high_surrogate (u : Z) : Prop := 0xD800 <= u <= 0xDBFF.
Definition low_surrogate (u : Z) : Prop := 0xDC00 <= u <= 0xDFFF.

(** What a sequence of units decodes to, one rule for each case of the
    unit at hand, whatever has been decoded before it:
    - a unit that is no surrogate is its own scalar;
    - a high surrogate followed by a low surrogate is the scalar of the
      pair;
    - a high surrogate followed by a unit that is no low surrogate gives
      one replacement scalar for the two units, and the decoding goes on
      after the second of them;
    - a high surrogate that is the last unit gives one replacement
      scalar;
    - a low surrogate read on its own gives one replacement scalar. *)
Inductive utf16_decoding : list Z -> list Z -> Prop :=
| utf16_end :
    utf16_decoding [] []
| utf16_unit u us out :
    ~ high_surrogate u -> ~ low_surrogate u ->
    utf16_decoding us out ->
    utf16_decoding (u :: us) (u :: out)
| utf16_pair u v us out :
    high_surrogate u -> low_surrogate v ->
    utf16_decoding us out ->
    utf16_decoding (u :: v :: us) (scalar_of_pair u v :: out)
| utf16_mismatch u v us out :
    high_surrogate u -> ~ low_surrogate v ->
    utf16_decoding us out ->
    utf16_decoding (u :: v :: us) (0xFFFD :: out)
| utf16_high_at_end u :
    high_surrogate u ->
    utf16_decoding [u] [0xFFFD]
| utf16_lone_low u us out :
    low_surrogate u ->
    utf16_decoding us out ->
    utf16_decoding (u :: us) (0xFFFD :: out).

(** ** The entry of a code-page table *)

(** The decoder's output [o] for a byte [b >= 0x80] under the table [T]:
    the entry of [T] at [b - 0x80], the replacement scalar in place of
    an entry 0, and never the scalar 0. *)
Definition emits_table_entry (T : list Z) (b : Z) (o : option Z) : Prop :=
  exists e,
    T !! Z.to_nat (b - 0x80) = Some e
    /\ o = Some (if e =? 0 then 0xFFFD else e)
    /\ o <> Some 0x0000.

(** The scalar of a byte under the table [T]. *)
Definition table_scalar (T : list Z) (b : Z) : Z :=
  if b <? 0x80 then b
  else match T !! Z.to_nat (b - 0x80) with
       | Some e => if e =? 0 then 0xFFFD else e
       | None => 0xFFFD
       end.

(** ** Encoders of the wide encodings, for the round trips *)

(** The two bytes of a 16-bit unit in the given byte order. *)
Definition unit16_bytes (be : bool) (u : Z) : list Z :=
  if be then [u / 256; u mod 256] else [u mod 256; u / 256].

(** UTF-16 of one scalar: the scalar itself up to 0xFFFF, a high and a
    low surrogate above. *)
Definition utf16_of_scalar (be : bool) (cp : Z) : list Z :=
  if cp <=? 0xFFFF then unit16_bytes be cp
  else unit16_bytes be (0xD800 + (cp - 0x10000) / 1024)
       ++ unit16_bytes be (0xDC00 + (cp - 0x10000) mod 1024).

Definition utf16_encode (be : bool) (cps : list Z) : list Z :=
  concat (map (utf16_of_scalar be) cps).

(** The four bytes of a 32-bit unit in the given byte order. *)
Definition unit32_bytes (be : bool) (cp : Z) : list Z :=
  if be then [cp / 16777216; (cp / 65536) mod 256; (cp / 256) mod 256; cp mod 256]
  else [cp mod 256; (cp / 256) mod 256; (cp / 65536) mod 256; cp / 16777216].

Definition utf32_encode (be : bool) (cps : list Z) : list Z :=
  concat (map (unit32_bytes be) cps).

(** The bytes of each of the five marks. *)
Definition bom_bytes (name : string) : list Z :=
  if String.eqb name "UTF-8" then [0xEF; 0xBB; 0xBF]
  else if String.eqb name "UTF-16LE" then [0xFF; 0xFE]
  else if String.eqb name "UTF-16BE" then [0xFE; 0xFF]
  else if String.eqb name "UTF-32LE" then [0xFF; 0xFE; 0x00; 0x00]
  else if String.eqb name "UTF-32BE" then [0x00; 0x00; 0xFE; 0xFF]
  else [].

(** The nine encoding names. *)
Definition encoding_names : list string :=
  [ "UTF-8"; "UTF-16LE"; "UTF-16BE"; "UTF-32LE"; "UTF-32BE";
    "WINDOWS-1251"; "KOI8-R"; "ISO-8859-5"; "MACCYRILLIC" ].

(** A printable or control ASCII character other than NUL. *)
Definition is_ascii_char (c : Z) : Prop := 0 < c < 0x80.

(** A byte of the Russian alphabet in WINDOWS-1251, and its letter. *)
Definition is_cp1251_letter (b : Z) : Prop := 0xC0 <= b <= 0xFF.
Definition cp1251_letter (b : Z) : Z := 0x0410 + (b - 0xC0).

(** * Proofs *)

(** ** Checking a property on every value of a small range *)

Lemma Z_range_forall (P : Z -> bool) (n : nat) :
  forallb P (map Z.of_nat (seq 0 n)) = true ->
  forall x, 0 <= x < Z.of_nat n -> P x = true.
Proof.
  intros Hall x Hx.
  rewrite forallb_forall in Hall. apply Hall.
  apply in_map_iff. exists (Z.to_nat x). split; [lia|].
  apply in_seq. lia.
Qed.

(** Proves a boolean property of a byte by running it on all 256 values. *)
Ltac by_bytes c Hc P :=
  let H := fresh in
  assert (H : P c = true)
    by (apply (Z_range_forall P 256); [vm_compute; reflexivity | exact Hc]);
  cbv beta in H.

(** Comparisons of the source, as propositions. *)
Ltac zcmp :=
  repeat match goal with
  | |- context [Z.geb ?a ?b] => rewrite (Z.geb_leb a b)
  | |- context [Z.gtb ?a ?b] => rewrite (Z.gtb_ltb a b)
  | H : context [Z.geb ?a ?b] |- _ => rewrite (Z.geb_leb a b) in H
  | H : context [Z.gtb ?a ?b] |- _ => rewrite (Z.gtb_ltb a b) in H
  end.

Ltac zcases :=
  zcmp;
  repeat match goal with
  | |- context [Z.leb ?a ?b] => destruct (Z.leb_spec a b); try lia
  | |- context [Z.ltb ?a ?b] => destruct (Z.ltb_spec a b); try lia
  | |- context [Z.eqb ?a ?b] => destruct (Z.eqb_spec a b); try lia
  end.

(** Walks down a chain of [if]s on comparisons, one condition at a time,
    dropping the branches the bounds at hand exclude. *)
Ltac zifs :=
  repeat (zcmp; cbn [andb orb negb];
          match goal with
          | |- context [if ?b then _ else _] =>
              match b with
              | context [Z.leb ?x ?y] => destruct (Z.leb_spec x y); try lia
              | context [Z.ltb ?x ?y] => destruct (Z.ltb_spec x y); try lia
              | context [Z.eqb ?x ?y] => destruct (Z.eqb_spec x y); try lia
              end
          end);
  cbn [andb orb negb].

(** ** Byte classes *)

Section ByteClasses.
Variable c : Z.
Hypothesis Hc : is_byte c.

Lemma lead2_range : (Z.land c 0xE0 =? 0xC0) = (0xC0 <=? c) && (c <=? 0xDF).
Proof.
  by_bytes c Hc (fun c => Bool.eqb (Z.land c 0xE0 =? 0xC0) ((0xC0 <=? c) && (c <=? 0xDF))).
  by apply Bool.eqb_prop.
Qed.

Lemma lead3_range : (Z.land c 0xF0 =? 0xE0) = (0xE0 <=? c) && (c <=? 0xEF).
Proof.
  by_bytes c Hc (fun c => Bool.eqb (Z.land c 0xF0 =? 0xE0) ((0xE0 <=? c) && (c <=? 0xEF))).
  by apply Bool.eqb_prop.
Qed.

Lemma lead4_range : (Z.land c 0xF8 =? 0xF0) = (0xF0 <=? c) && (c <=? 0xF7).
Proof.
  by_bytes c Hc (fun c => Bool.eqb (Z.land c 0xF8 =? 0xF0) ((0xF0 <=? c) && (c <=? 0xF7))).
  by apply Bool.eqb_prop.
Qed.

Lemma not_cont_range : not_cont c = negb ((0x80 <=? c) && (c <=? 0xBF)).
Proof.
  by_bytes c Hc (fun c => Bool.eqb (not_cont c) (negb ((0x80 <=? c) && (c <=? 0xBF)))).
  by apply Bool.eqb_prop.
Qed.

Lemma bits_10xxxxxx_range : bits_10xxxxxx c = (0x80 <=? c) && (c <=? 0xBF).
Proof.
  by_bytes c Hc (fun c => Bool.eqb (bits_10xxxxxx c) ((0x80 <=? c) && (c <=? 0xBF))).
  by apply Bool.eqb_prop.
Qed.

Lemma bits_110xxxxx_range : bits_110xxxxx c = (0xC0 <=? c) && (c <=? 0xDF).
Proof.
  by_bytes c Hc (fun c => Bool.eqb (bits_110xxxxx c) ((0xC0 <=? c) && (c <=? 0xDF))).
  by apply Bool.eqb_prop.
Qed.

Lemma bits_1110xxxx_range : bits_1110xxxx c = (0xE0 <=? c) && (c <=? 0xEF).
Proof.
  by_bytes c Hc (fun c => Bool.eqb (bits_1110xxxx c) ((0xE0 <=? c) && (c <=? 0xEF))).
  by apply Bool.eqb_prop.
Qed.

Lemma bits_11110xxx_range : bits_11110xxx c = (0xF0 <=? c) && (c <=? 0xF7).
Proof.
  by_bytes c Hc (fun c => Bool.eqb (bits_11110xxx c) ((0xF0 <=? c) && (c <=? 0xF7))).
  by apply Bool.eqb_prop.
Qed.
End ByteClasses.

(** ** The indexed loops and the recursions on the remaining bytes *)

Lemma drop_at (p : list Z) (i : nat) :
  (i < length p)%nat -> drop i p = at_ p i :: drop (S i) p.
Proof.
  intros Hi. destruct (lookup_lt_is_Some_2 p i Hi) as [x Hx].
  unfold at_. rewrite (nth_lookup_Some _ _ 0 _ Hx). by apply drop_S.
Qed.

Lemma drop_short (p : list Z) (i k : nat) :
  (length p <= i + k)%nat -> (length (drop i p) <= k)%nat.
Proof. rewrite length_drop. lia. Qed.

(** One step of [is_valid_utf8_rec], as in the source. *)
Lemma is_valid_utf8_rec_cons c s1 :
  is_valid_utf8_rec (c :: s1) =
  if c <=? 0x7F then is_valid_utf8_rec s1
  else if Z.land c 0xE0 =? 0xC0 then
    if c <? 0xC2 then false
    else match s1 with
         | c1 :: s2 => if not_cont c1 then false else is_valid_utf8_rec s2
         | _ => false
         end
  else if Z.land c 0xF0 =? 0xE0 then
    match s1 with
    | c1 :: c2 :: s3 =>
        if not_cont c1 then false
        else if not_cont c2 then false
        else if (c =? 0xE0) && (c1 <? 0xA0) then false
        else if (c =? 0xED) && (c1 >=? 0xA0) then false
        else is_valid_utf8_rec s3
    | _ => false
    end
  else if Z.land c 0xF8 =? 0xF0 then
    if c >? 0xF4 then false
    else match s1 with
         | c1 :: c2 :: c3 :: s4 =>
             if not_cont c1 then false
             else if not_cont c2 then false
             else if not_cont c3 then false
             else if (c =? 0xF0) && (c1 <? 0x90) then false
             else if (c =? 0xF4) && (c1 >=? 0x90) then false
             else is_valid_utf8_rec s4
         | _ => false
         end
  else false.
Proof. reflexivity. Qed.

(** With fuel for the bytes still to be checked, the loop from index [i]
    computes the recursion on the bytes from [i] on. *)
Lemma is_valid_utf8_while_rec (s : list Z) : forall fuel i,
  (i <= length s)%nat -> (length s - i < fuel)%nat ->
  is_valid_utf8_while fuel s (length s) i = is_valid_utf8_rec (drop i s).
Proof.
  remember (length s) as n eqn:Hn.
  induction fuel as [|fuel IH]; intros i Hi Hfuel; [lia|].
  cbn [is_valid_utf8_while].
  destruct (Nat.ltb_spec i n) as [Hlt|Hge].
  2:{ rewrite drop_ge by lia. reflexivity. }
  rewrite (drop_at s i) by lia.
  rewrite is_valid_utf8_rec_cons. unfold is_valid_utf8_body.
  set (c := at_ s i).
  destruct (c <=? 0x7F); cbv beta iota zeta.
  { rewrite IH by lia. by rewrite Nat.add_1_r. }
  destruct (Z.land c 0xE0 =? 0xC0); cbv beta iota zeta.
  { (* extra = 1 *)
    destruct (c <? 0xC2); cbv beta iota zeta; [done|].
    destruct (Nat.leb_spec n (i + 1)) as [Hshort|Hlong].
    - pose proof (drop_short s (S i) 0 ltac:(lia)) as Hd.
      by destruct (drop (S i) s); [|cbn [length] in Hd; lia].
    - rewrite (drop_at s (S i)) by lia.
      cbn [seq existsb orb]. rewrite Nat.add_1_r, orb_false_r.
      destruct (not_cont (at_ s (S i))); [done|]. cbn [Nat.eqb].
      rewrite IH by lia. f_equal. f_equal. lia. }
  destruct (Z.land c 0xF0 =? 0xE0); cbv beta iota zeta.
  { (* extra = 2 *)
    destruct (Nat.leb_spec n (i + 2)) as [Hshort|Hlong].
    - pose proof (drop_short s (S i) 1 ltac:(lia)) as Hd.
      by destruct (drop (S i) s) as [|c1 [|c2 s3]]; [| |cbn [length] in Hd; lia].
    - rewrite (drop_at s (S i)), (drop_at s (S (S i))) by lia.
      cbn [seq existsb orb Nat.eqb]. rewrite orb_false_r.
      replace (i + 1)%nat with (S i) by lia. replace (i + 2)%nat with (S (S i)) by lia.
      destruct (not_cont (at_ s (S i))); [done|].
      destruct (not_cont (at_ s (S (S i)))); [done|]. cbn [orb].
      destruct ((c =? 0xE0) && (at_ s (S i) <? 0xA0)); [done|].
      destruct ((c =? 0xED) && (at_ s (S i) >=? 0xA0)); [done|].
      rewrite IH by lia. f_equal. f_equal. lia. }
  destruct (Z.land c 0xF8 =? 0xF0); cbv beta iota zeta; [|done].
  (* extra = 3 *)
  destruct (c >? 0xF4); cbv beta iota zeta; [done|].
  destruct (Nat.leb_spec n (i + 3)) as [Hshort|Hlong].
  - pose proof (drop_short s (S i) 2 ltac:(lia)) as Hd.
    by destruct (drop (S i) s) as [|c1 [|c2 [|c3 s4]]]; [| | |cbn [length] in Hd; lia].
  - rewrite (drop_at s (S i)), (drop_at s (S (S i))), (drop_at s (S (S (S i))))
      by lia.
    cbn [seq existsb orb Nat.eqb]. rewrite orb_false_r.
    replace (i + 1)%nat with (S i) by lia. replace (i + 2)%nat with (S (S i)) by lia.
    replace (i + 3)%nat with (S (S (S i))) by lia.
    destruct (not_cont (at_ s (S i))); [done|].
    destruct (not_cont (at_ s (S (S i)))); [done|].
    destruct (not_cont (at_ s (S (S (S i))))); [done|]. cbn [orb].
    destruct ((c =? 0xF0) && (at_ s (S i) <? 0x90)); [done|].
    destruct ((c =? 0xF4) && (at_ s (S i) >=? 0x90)); [done|].
    rewrite IH by lia. f_equal. f_equal. lia.
Qed.

(** The validator is the recursion on its span: the fuel of the loop is
    enough on every input. *)
Lemma is_valid_utf8_eq (s : list Z) : is_valid_utf8 s = is_valid_utf8_rec s.
Proof.
  unfold is_valid_utf8. rewrite is_valid_utf8_while_rec by lia. by rewrite drop_0.
Qed.

(** One step of [decode_utf16_rec], as in the source. *)
Lemma decode_utf16_rec_cons x0 x1 r be :
  decode_utf16_rec (x0 :: x1 :: r) be =
  let u := unit16 be x0 x1 in
  if (u >=? 0xD800) && (u <=? 0xDBFF) then
    match r with
    | x2 :: x3 :: r' =>
        let v := unit16 be x2 x3 in
        if (v <? 0xDC00) || (v >? 0xDFFF) then 0xFFFD :: decode_utf16_rec r' be
        else
          let cp := u32 (0x10000 + Z.lor (Z.shiftl (u - 0xD800) 10) (v - 0xDC00)) in
          cp :: decode_utf16_rec r' be
    | _ => [0xFFFD]
    end
  else if (u >=? 0xDC00) && (u <=? 0xDFFF) then 0xFFFD :: decode_utf16_rec r be
  else u :: decode_utf16_rec r be.
Proof. reflexivity. Qed.

(** [if (n % 2) n--] leaves the even number of bytes of the whole units. *)
Lemma drop_odd_byte (n : nat) :
  (if negb (n mod 2 =? 0)%nat then (n - 1)%nat else n) = (2 * (n / 2))%nat.
Proof.
  pose proof (Nat.div_mod_eq n 2) as Hn.
  pose proof (Nat.mod_upper_bound n 2 ltac:(lia)) as Hm.
  destruct (Nat.eqb_spec (n mod 2) 0); cbn [negb]; lia.
Qed.

(** With fuel for the units still to be decoded, the loop from the even
    index [2 * k] appends to [out] the recursion on the bytes from that
    index on. *)
Lemma decode_utf16_for_rec (p : list Z) (be : bool) : forall fuel k out,
  (k <= length p / 2)%nat -> (length p / 2 - k < fuel)%nat ->
  decode_utf16_for fuel p (2 * (length p / 2)) be (2 * k) out
  = out ++ decode_utf16_rec (drop (2 * k) p) be.
Proof.
  pose proof (Nat.div_mod_eq (length p) 2) as Hlen.
  pose proof (Nat.mod_upper_bound (length p) 2 ltac:(lia)) as Hmod.
  remember (length p / 2)%nat as m eqn:Hm.
  induction fuel as [|fuel IH]; intros k out Hk Hfuel; [lia|].
  cbn [decode_utf16_for].
  destruct (Nat.ltb_spec (2 * k + 1) (2 * m)) as [Hlt|Hge].
  2:{ (* no unit is left *)
      pose proof (drop_short p (2 * k) 1 ltac:(lia)) as Hd.
      destruct (drop (2 * k) p) as [|x0 [|x1 r]];
        [by rewrite app_nil_r | by rewrite app_nil_r | cbn [length] in Hd; lia]. }
  rewrite (drop_at p (2 * k)), (drop_at p (S (2 * k))) by lia.
  rewrite decode_utf16_rec_cons. unfold decode_utf16_body. cbv zeta.
  replace (2 * k + 1)%nat with (S (2 * k)) by lia.
  set (u := unit16 be (at_ p (2 * k)) (at_ p (S (2 * k)))).
  destruct ((u >=? 0xD800) && (u <=? 0xDBFF)).
  - destruct (Nat.leb_spec (2 * m) (2 * k + 3)) as [Hshort|Hlong].
    + (* a high surrogate and no unit after it *)
      pose proof (drop_short p (S (S (2 * k))) 1 ltac:(lia)) as Hd.
      by destruct (drop (S (S (2 * k))) p) as [|x2 [|x3 r']];
        [| | cbn [length] in Hd; lia].
    + rewrite (drop_at p (S (S (2 * k)))), (drop_at p (S (S (S (2 * k))))) by lia.
      replace (2 * k + 2)%nat with (S (S (2 * k))) by lia.
      replace (2 * k + 3)%nat with (S (S (S (2 * k)))) by lia.
      set (v := unit16 be (at_ p (S (S (2 * k)))) (at_ p (S (S (S (2 * k)))))).
      replace (S (S (S (S (2 * k))))) with (2 * (k + 2))%nat by lia.
      destruct ((v <? 0xDC00) || (v >? 0xDFFF)); cbv beta iota;
        replace (S (S (2 * k)) + 2)%nat with (2 * (k + 2))%nat by lia;
        rewrite IH by lia; by rewrite <- app_assoc.
  - replace (S (S (2 * k))) with (2 * (k + 1))%nat by lia.
    destruct ((u >=? 0xDC00) && (u <=? 0xDFFF)); cbv beta iota;
      replace (2 * k + 2)%nat with (2 * (k + 1))%nat by lia;
      rewrite IH by lia; by rewrite <- app_assoc.
Qed.

(** The UTF-16 decoder is the recursion on its bytes: the fuel of the
    loop is enough on every input. *)
Lemma decode_utf16_eq (p : list Z) (be : bool) :
  decode_utf16 p be = decode_utf16_rec p be.
Proof.
  unfold decode_utf16. cbv zeta. rewrite drop_odd_byte.
  pose proof (decode_utf16_for_rec p be (S (2 * (length p / 2))) 0 []
                ltac:(lia) ltac:(lia)) as H.
  change (2 * 0)%nat with 0%nat in H. by rewrite drop_0 in H.
Qed.

(** ** The validator and the grammar *)

Lemma Forall_is_byte_cons c s :
  Forall is_byte (c :: s) -> is_byte c /\ Forall is_byte s.
Proof. apply Forall_cons_1. Qed.

(** Rewrites the masks of the validator, and the bit patterns of the
    grammar, into ranges of the byte. *)
Ltac byte_ranges :=
  repeat match goal with
  | H : Forall is_byte (_ :: _) |- _ => apply Forall_is_byte_cons in H; destruct H
  end;
  repeat match goal with
  | Hc : is_byte ?c |- _ =>
      progress (rewrite ?(lead2_range c Hc), ?(lead3_range c Hc), ?(lead4_range c Hc),
                 ?(not_cont_range c Hc) in *;
                rewrite ?(bits_10xxxxxx_range c Hc), ?(bits_110xxxxx_range c Hc),
                 ?(bits_1110xxxx_range c Hc), ?(bits_11110xxx_range c Hc) in * )
  end.

Ltac bool_hyps :=
  repeat match goal with
  | H : _ && _ = true |- _ => apply andb_prop in H; destruct H
  | H : (_ <=? _) = true |- _ => apply Z.leb_le in H
  | H : (_ <? _) = true |- _ => apply Z.ltb_lt in H
  end.

Lemma well_formed_is_valid s :
  Forall is_byte s -> well_formed_utf8 s -> is_valid_utf8_rec s = true.
Proof.
  intros Hb Hwf. induction Hwf; cbn [is_valid_utf8_rec]; byte_ranges; bool_hyps.
  - reflexivity.
  - zcases; auto.
  - zcases; cbn [andb negb]; auto.
  - zcases; cbn [andb negb]; auto.
  - zcases; cbn [andb negb]; auto.
Qed.

Ltac split_if H :=
  match type of H with
  | (if ?b then _ else _) = true =>
      let E := fresh "E" in destruct b eqn:E; [| try discriminate H]
  end.

Lemma is_valid_well_formed_aux n : forall s,
  (length s <= n)%nat -> Forall is_byte s ->
  is_valid_utf8_rec s = true -> well_formed_utf8 s.
Proof.
  induction n as [|n IH]; intros s Hlen Hb Hv.
  - destruct s; [constructor | simpl in Hlen; lia].
  - destruct s as [|c s1]; [constructor|].
    cbn [is_valid_utf8_rec] in Hv. simpl in Hlen.
    apply Forall_is_byte_cons in Hb as [Hc Hb].
    rewrite (lead2_range c Hc), (lead3_range c Hc), (lead4_range c Hc) in Hv.
    destruct (Z.leb_spec c 0x7F).
    { apply wf_single; [lia|]. apply IH; [lia | done | done]. }
    destruct ((0xC0 <=? c) && (c <=? 0xDF)) eqn:E2.
    { (* two bytes *)
      destruct (Z.ltb_spec c 0xC2); [done|].
      destruct s1 as [|c1 s2]; [done|].
      apply Forall_is_byte_cons in Hb as [Hc1 Hb].
      rewrite (not_cont_range c1 Hc1) in Hv.
      destruct ((0x80 <=? c1) && (c1 <=? 0xBF)) eqn:E1; [|done].
      cbn [negb] in Hv. simpl in Hlen.
      apply wf_two; rewrite ?(bits_110xxxxx_range c Hc), ?(bits_10xxxxxx_range c1 Hc1);
        try done; try lia.
      apply IH; [lia | done | done]. }
    destruct ((0xE0 <=? c) && (c <=? 0xEF)) eqn:E3.
    { (* three bytes *)
      destruct s1 as [|c1 [|c2 s3]]; [done | done |].
      apply Forall_is_byte_cons in Hb as [Hc1 Hb].
      apply Forall_is_byte_cons in Hb as [Hc2 Hb].
      rewrite (not_cont_range c1 Hc1), (not_cont_range c2 Hc2) in Hv.
      destruct ((0x80 <=? c1) && (c1 <=? 0xBF)) eqn:E1; [|done].
      destruct ((0x80 <=? c2) && (c2 <=? 0xBF)) eqn:E1'; [|done].
      cbn [negb] in Hv. simpl in Hlen.
      destruct ((c =? 0xE0) && (c1 <? 0xA0)) eqn:Ea; [done|].
      destruct ((c =? 0xED) && (c1 >=? 0xA0)) eqn:Eb; [done|].
      apply wf_three;
        rewrite ?(bits_1110xxxx_range c Hc), ?(bits_10xxxxxx_range c1 Hc1),
          ?(bits_10xxxxxx_range c2 Hc2); try done.
      - intros ->. rewrite Z.eqb_refl in Ea. cbn [andb] in Ea.
        apply Z.ltb_ge in Ea. lia.
      - intros ->. rewrite Z.eqb_refl in Eb. cbn [andb] in Eb.
        rewrite Z.geb_leb in Eb. apply Z.leb_gt in Eb. lia.
      - apply IH; [lia | done | done]. }
    destruct ((0xF0 <=? c) && (c <=? 0xF7)) eqn:E4; [|done].
    (* four bytes *)
    rewrite Z.gtb_ltb in Hv.
    destruct (Z.ltb_spec 0xF4 c); [done|].
    destruct s1 as [|c1 [|c2 [|c3 s4]]]; [done | done | done |].
    apply Forall_is_byte_cons in Hb as [Hc1 Hb].
    apply Forall_is_byte_cons in Hb as [Hc2 Hb].
    apply Forall_is_byte_cons in Hb as [Hc3 Hb].
    rewrite (not_cont_range c1 Hc1), (not_cont_range c2 Hc2),
      (not_cont_range c3 Hc3) in Hv.
    destruct ((0x80 <=? c1) && (c1 <=? 0xBF)) eqn:E1; [|done].
    destruct ((0x80 <=? c2) && (c2 <=? 0xBF)) eqn:E1'; [|done].
    destruct ((0x80 <=? c3) && (c3 <=? 0xBF)) eqn:E1''; [|done].
    cbn [negb] in Hv. simpl in Hlen.
    destruct ((c =? 0xF0) && (c1 <? 0x90)) eqn:Ea; [done|].
    destruct ((c =? 0xF4) && (c1 >=? 0x90)) eqn:Eb; [done|].
    apply wf_four;
      rewrite ?(bits_11110xxx_range c Hc), ?(bits_10xxxxxx_range c1 Hc1),
        ?(bits_10xxxxxx_range c2 Hc2), ?(bits_10xxxxxx_range c3 Hc3); try done.
    + intros ->. rewrite Z.eqb_refl in Ea. cbn [andb] in Ea.
      apply Z.ltb_ge in Ea. lia.
    + intros ->. rewrite Z.eqb_refl in Eb. cbn [andb] in Eb.
      rewrite Z.geb_leb in Eb. apply Z.leb_gt in Eb. lia.
    + apply IH; [lia | done | done].
Qed.

(** C7.  On a span of bytes the validator returns [true] exactly when
    the span parses as a sequence of well-formed UTF-8 code points:
    bytes up to 0x7F stand alone; a lead byte 110xxxxx other than 0xC0
    and 0xC1 takes one continuation byte 10xxxxxx, a lead byte 1110xxxx
    two, a lead byte 11110xxx up to 0xF4 three; after 0xE0 the second
    byte is at least 0xA0, after 0xED below 0xA0, after 0xF0 at least
    0x90, after 0xF4 below 0x90; any other byte and any truncated
    trailing sequence make the validator return [false]. *)
Theorem is_valid_utf8_iff_well_formed (s : list Z) :
  Forall is_byte s ->
  (is_valid_utf8 s = true <-> well_formed_utf8 s).
Proof.
  intros Hb. rewrite is_valid_utf8_eq. split.
  - apply (is_valid_well_formed_aux (length s)); [lia | done].
  - by apply well_formed_is_valid.
Qed.

Lemma is_valid_utf8_iff_well_formed_witness :
  Forall is_byte [0x48; 0xD0; 0xBC; 0xE2; 0x84; 0x96; 0xF0; 0x9F; 0x98; 0x80] /\
  (is_valid_utf8 [0x48; 0xD0; 0xBC; 0xE2; 0x84; 0x96; 0xF0; 0x9F; 0x98; 0x80] = true <->
   well_formed_utf8 [0x48; 0xD0; 0xBC; 0xE2; 0x84; 0x96; 0xF0; 0x9F; 0x98; 0x80]).
Proof.
  assert (Hb : Forall is_byte [0x48; 0xD0; 0xBC; 0xE2; 0x84; 0x96; 0xF0; 0x9F; 0x98; 0x80])
    by (repeat constructor; unfold is_byte; lia).
  split; [exact Hb | exact (is_valid_utf8_iff_well_formed _ Hb)].
Defined.

(** ** The scorer *)

Lemma score_step_spec k cp :
  0 <= cp ->
  score_step k cp =
  mkCounters (cyr k + spec_cyrillic cp) (good k + spec_good cp) (bad k + spec_bad cp).
Proof.
  intros Hcp. unfold score_step, spec_cyrillic, spec_good, spec_bad.
  destruct k as [c g b]; cbn [cyr good bad].
  repeat case_decide; zcases; cbn [andb orb negb];
    try (exfalso; lia); f_equal; lia.
Qed.

Lemma total_of_cons f cp u : total_of f (cp :: u) = (f cp + total_of f u)%nat.
Proof. reflexivity. Qed.

Lemma fold_score_step_spec u : forall k,
  Forall (fun cp => 0 <= cp) u ->
  fold_left score_step u k =
  mkCounters (cyr k + total_of spec_cyrillic u) (good k + total_of spec_good u)
             (bad k + total_of spec_bad u).
Proof.
  induction u as [|cp u IH]; intros k Hu; cbn [fold_left]; rewrite ?total_of_cons.
  - destruct k; cbn; f_equal; lia.
  - apply Forall_cons_1 in Hu as [Hcp Hu].
    rewrite (IH _ Hu), (score_step_spec _ _ Hcp). cbn [cyr good bad].
    f_equal; lia.
Qed.

(** C5.  The score of a sequence of code points is
    [(good - bad + 1.5 * cyrillic) / length], where a scalar 0x0000 adds
    3 to bad, another C0 control except 0x09, 0x0A and 0x0D adds 2 to
    bad, a scalar in 0x0400-0x04FF adds 1 to good and 1 to cyrillic, a
    scalar in 0x20-0x7E, 0x00A0 or 0x2116 adds 1 to good, 0xFFFD adds 2
    to bad, a scalar in 0x2000-0x206F adds 1 to good and any other
    scalar adds nothing; the empty sequence scores 0. *)
Theorem score_u32_text_formula (u : list Z) :
  Forall (fun cp => 0 <= cp) u ->
  score_u32_text u = spec_score u.
Proof.
  intros Hu. unfold score_u32_text, spec_score.
  destruct u as [|cp u]; [reflexivity|].
  rewrite decide_False by discriminate.
  rewrite (fold_score_step_spec _ _ Hu). cbn [cyr good bad].
  reflexivity.
Qed.

Lemma score_u32_text_formula_witness :
  Forall (fun cp => 0 <= cp) [0x41; 0x0000; 0x0007; 0x0A; 0x0416; 0xFFFD; 0x2014; 0x3042] /\
  score_u32_text [0x41; 0x0000; 0x0007; 0x0A; 0x0416; 0xFFFD; 0x2014; 0x3042]
  = spec_score [0x41; 0x0000; 0x0007; 0x0A; 0x0416; 0xFFFD; 0x2014; 0x3042].
Proof.
  assert (H : Forall (fun cp => 0 <= cp)
                [0x41; 0x0000; 0x0007; 0x0A; 0x0416; 0xFFFD; 0x2014; 0x3042])
    by (repeat constructor; lia).
  split; [exact H | exact (score_u32_text_formula _ H)].
Defined.

(** *** Monotonicity *)

(** No scalar adds more than 2.5 to the numerator. *)
Lemma num2_score_step k cp : num2 (score_step k cp) <= num2 k + 5.
Proof.
  unfold score_step, num2. destruct k as [c g b].
  repeat match goal with
         | |- context [if ?b then _ else _] => destruct b
         end; cbn [cyr good bad]; lia.
Qed.

Lemma num2_fold u : forall k,
  num2 (fold_left score_step u k) <= num2 k + 5 * Z.of_nat (length u).
Proof.
  induction u as [|cp u IH]; intros k; cbn [fold_left length].
  - lia.
  - specialize (IH (score_step k cp)). pose proof (num2_score_step k cp). lia.
Qed.

Lemma num2_score_step_cyrillic k cp :
  is_cyrillic cp -> num2 (score_step k cp) = num2 k + 5.
Proof.
  unfold is_cyrillic, score_step, num2. intros Hcp. destruct k as [c g b].
  zcases; cbn [andb orb negb cyr good bad]; lia.
Qed.

Lemma num2_fold_cyrillic t : forall k,
  Forall is_cyrillic t ->
  num2 (fold_left score_step t k) = num2 k + 5 * Z.of_nat (length t).
Proof.
  induction t as [|cp t IH]; intros k Ht; cbn [fold_left length].
  - lia.
  - apply Forall_cons_1 in Ht as [Hcp Ht].
    rewrite (IH _ Ht), (num2_score_step_cyrillic _ _ Hcp). lia.
Qed.

(** The score of a non-empty sequence, from the final counters. *)
Lemma score_u32_text_counters u :
  u <> [] ->
  let k := fold_left score_step u (mkCounters 0 0 0) in
  (score_u32_text u == inject_Z (num2 k) / inject_Z (2 * Z.of_nat (length u)))%Q.
Proof.
  intros Hu k. unfold score_u32_text. destruct u as [|cp u]; [done|].
  fold k. unfold num2, to_double.
  set (L := length (cp :: u)).
  assert (HL : ~ (inject_Z (Z.of_nat L) == 0)%Q).
  { change 0%Q with (inject_Z 0). rewrite inject_Z_injective. subst L. simpl. lia. }
  replace (2 * Z.of_nat (good k) + 3 * Z.of_nat (cyr k) - 2 * Z.of_nat (bad k))
    with (2 * Z.of_nat (good k) + 3 * Z.of_nat (cyr k) + - (2 * Z.of_nat (bad k))) by lia.
  rewrite !inject_Z_plus, inject_Z_opp, !inject_Z_mult.
  field. done.
Qed.

Lemma Qdiv_le_cross (x x' d d' : Q) :
  (0 < d)%Q -> (0 < d')%Q -> (x * d' <= x' * d)%Q -> (x / d <= x' / d')%Q.
Proof.
  intros Hd Hd' H.
  apply Qle_shift_div_r; [done|].
  assert (E : (x' / d' * d == (x' * d) / d')%Q) by (field; lra).
  rewrite E. by apply Qle_shift_div_l.
Qed.

(** C6.  Appending a non-empty run of scalars of the Cyrillic block
    0x0400-0x04FF to a sequence never lowers its score. *)
Theorem score_u32_text_append_cyrillic (s t : list Z) :
  t <> [] -> Forall is_cyrillic t ->
  (score_u32_text s <= score_u32_text (s ++ t))%Q.
Proof.
  intros Hne Ht.
  assert (Hst : s ++ t <> []) by (destruct s, t; done).
  assert (Hlt : (0 < length t)%nat) by (destruct t; [done | simpl; lia]).
  rewrite (score_u32_text_counters (s ++ t) Hst). cbv zeta.
  rewrite fold_left_app, (num2_fold_cyrillic _ _ Ht), length_app.
  set (k := fold_left score_step s (mkCounters 0 0 0)).
  pose proof (num2_fold s (mkCounters 0 0 0)) as Hk. fold k in Hk.
  change (num2 (mkCounters 0 0 0)) with 0 in Hk.
  destruct s as [|cp s].
  - (* the empty sequence scores 0 *)
    change (score_u32_text []) with (inject_Z 0).
    apply Qle_shift_div_l.
    + change 0%Q with (inject_Z 0). rewrite <- Zlt_Qlt. cbn [length Nat.add]. lia.
    + rewrite <- inject_Z_mult, <- Zle_Qle. subst k. cbn [fold_left].
      change (num2 (mkCounters 0 0 0)) with 0. lia.
  - rewrite (score_u32_text_counters (cp :: s)) by done. cbv zeta. fold k.
    apply Qdiv_le_cross.
    + change 0%Q with (inject_Z 0). rewrite <- Zlt_Qlt. cbn [length]. lia.
    + change 0%Q with (inject_Z 0). rewrite <- Zlt_Qlt. cbn [length Nat.add]. lia.
    + rewrite <- !inject_Z_mult, <- Zle_Qle.
      set (n := Z.of_nat (length (cp :: s))) in *.
      set (m := Z.of_nat (length t)).
      assert (0 < m) by (subst m; lia).
      assert (0 < n) by (subst n; cbn [length]; lia).
      rewrite Nat2Z.inj_add. fold n m. nia.
Qed.

Lemma score_u32_text_append_cyrillic_witness :
  ([0x0416; 0x0438] <> [] /\ Forall is_cyrillic [0x0416; 0x0438]) /\
  (score_u32_text [0x41; 0x0000; 0xFFFD]%Z <=
   score_u32_text ([0x41; 0x0000; 0xFFFD] ++ [0x0416; 0x0438])%Z)%Q.
Proof.
  assert (H1 : [0x0416; 0x0438] <> []) by discriminate.
  assert (H2 : Forall is_cyrillic [0x0416; 0x0438])
    by (repeat constructor; unfold is_cyrillic; lia).
  split; [split; [exact H1 | exact H2] |].
  exact (score_u32_text_append_cyrillic [0x41; 0x0000; 0xFFFD] _ H1 H2).
Defined.

(** ** BOM detection and the orchestrators *)

(** C1.  On a buffer that begins with FF FE 00 00, the UTF-32LE mark,
    [detect_bom] answers with its second test, the two-byte UTF-16LE
    mark FF FE, and never reaches the four-byte test: the detector
    reports UTF-16LE with prefix length 2, and so does detection. *)
Theorem detect_bom_utf32le_mark_reported_utf16le (rest : list Z) :
  detect_bom (0xFF :: 0xFE :: 0x00 :: 0x00 :: rest) = Some (mkBomInfo "UTF-16LE" 2)
  /\ DetectEncodingFromBuffer (0xFF :: 0xFE :: 0x00 :: 0x00 :: rest) = "UTF-16LE".
Proof. split; reflexivity. Qed.

(** The file FF FE 00 00 41 00 00 00, the letter A in UTF-32LE after its
    mark, converts as UTF-16LE to the three scalars 0x0000, 0x0041,
    0x0000. *)
Example convert_utf32le_file :
  ConvertBufferToUtf8 [0xFF; 0xFE; 0x00; 0x00; 0x41; 0x00; 0x00; 0x00]
  = ([0x00; 0x41; 0x00], "UTF-16LE").
Proof. reflexivity. Qed.

(** [detect_bom] finds no mark exactly when the buffer begins with none
    of the five. *)
Lemma detect_bom_None (b : list Z) :
  detect_bom b = None <->
  ~ ([0xEF; 0xBB; 0xBF] `prefix_of` b) /\ ~ ([0xFF; 0xFE] `prefix_of` b) /\
  ~ ([0xFE; 0xFF] `prefix_of` b) /\ ~ ([0xFF; 0xFE; 0x00; 0x00] `prefix_of` b) /\
  ~ ([0x00; 0x00; 0xFE; 0xFF] `prefix_of` b).
Proof.
  unfold detect_bom, at_. split.
  - intros H. repeat split; intros [k ->]; destruct k; cbn in H; discriminate H.
  - intros (H1 & H2 & H3 & H4 & H5).
    destruct b as [|x0 [|x1 [|x2 [|x3 b]]]]; cbn [length nth Nat.leb andb];
      try reflexivity;
      repeat match goal with
             | |- context [Z.eqb ?a ?b] => destruct (Z.eqb_spec a b)
             end; cbn [andb]; try reflexivity; exfalso; try lia; subst;
      match goal with
      | H : ~ (_ `prefix_of` _) |- False =>
          apply H; repeat apply prefix_cons; apply prefix_nil
      end.
Qed.

Lemma detect_bom_utf8 r :
  detect_bom (0xEF :: 0xBB :: 0xBF :: r) = Some (mkBomInfo "UTF-8" 3).
Proof. reflexivity. Qed.

Lemma detect_bom_utf16le r :
  detect_bom (0xFF :: 0xFE :: r) = Some (mkBomInfo "UTF-16LE" 2).
Proof. destruct r; reflexivity. Qed.

Lemma detect_bom_utf16be r :
  detect_bom (0xFE :: 0xFF :: r) = Some (mkBomInfo "UTF-16BE" 2).
Proof. destruct r; reflexivity. Qed.

Lemma detect_bom_utf32be r :
  detect_bom (0x00 :: 0x00 :: 0xFE :: 0xFF :: r) = Some (mkBomInfo "UTF-32BE" 4).
Proof. reflexivity. Qed.

(** A buffer with a UTF-8 mark followed by the byte FF, which is not
    valid UTF-8: the reported name is WINDOWS-1251, not UTF-8. *)
Lemma convert_utf8_bom_invalid_reports_windows_1251 :
  detect_bom [0xEF; 0xBB; 0xBF; 0xFF] = Some (mkBomInfo "UTF-8" 3)
  /\ is_valid_utf8 [0xFF] = false
  /\ ConvertBufferToUtf8 [0xEF; 0xBB; 0xBF; 0xFF] = ([0xD1; 0x8F], "WINDOWS-1251")
  /\ snd (ConvertBufferToUtf8 [0xEF; 0xBB; 0xBF; 0xFF]) <> "UTF-8".
Proof. repeat split; try reflexivity. discriminate. Qed.

(** C2, amended.  A buffer that begins with the UTF-8 mark converts to
    its remainder under the name UTF-8 when the remainder is valid
    UTF-8, and otherwise to the remainder decoded as WINDOWS-1251 under
    the name WINDOWS-1251; a buffer that begins with the UTF-16LE mark
    not followed by 00 00, with the UTF-16BE mark or with the UTF-32BE
    mark converts to its remainder decoded under that encoding, and
    that encoding is the reported name. *)
Theorem convert_with_bom (r : list Z) :
  ConvertBufferToUtf8 (0xEF :: 0xBB :: 0xBF :: r)
  = (if is_valid_utf8 r then (r, "UTF-8")
     else (u32_to_utf8 (decode_single_byte r CP1251), "WINDOWS-1251"))
  /\ (~ ([0x00; 0x00] `prefix_of` r) ->
      ConvertBufferToUtf8 (0xFF :: 0xFE :: r)
      = (u32_to_utf8 (decode_utf16 r false), "UTF-16LE"))
  /\ ConvertBufferToUtf8 (0xFE :: 0xFF :: r)
     = (u32_to_utf8 (decode_utf16 r true), "UTF-16BE")
  /\ ConvertBufferToUtf8 (0x00 :: 0x00 :: 0xFE :: 0xFF :: r)
     = (u32_to_utf8 (decode_utf32 r true), "UTF-32BE").
Proof.
  unfold ConvertBufferToUtf8.
  rewrite detect_bom_utf8, detect_bom_utf16le, detect_bom_utf16be, detect_bom_utf32be.
  cbn [name size skipn String.eqb Ascii.eqb Bool.eqb]. rewrite !drop_0.
  repeat split. by destruct (is_valid_utf8 r).
Qed.

Lemma convert_with_bom_witness :
  ~ ([0x00; 0x00] `prefix_of` [0x41; 0x00; 0x42; 0x00]) /\
  ConvertBufferToUtf8 [0xFF; 0xFE; 0x41; 0x00; 0x42; 0x00]
  = (u32_to_utf8 (decode_utf16 [0x41; 0x00; 0x42; 0x00] false), "UTF-16LE").
Proof.
  assert (H : ~ ([0x00; 0x00] `prefix_of` [0x41; 0x00; 0x42; 0x00]))
    by (intros [k Hk]; discriminate Hk).
  split; [exact H |].
  exact (proj1 (proj2 (convert_with_bom [0x41; 0x00; 0x42; 0x00])) H).
Defined.

(** The buffer 41 00 42 00 43 00 has no mark and is valid UTF-8 (the
    letters A, B, C, each followed by NUL), yet detection answers
    UTF-16LE and conversion returns the three bytes of ABC. *)
Lemma valid_utf8_detected_as_utf16le :
  [0x41; 0x00; 0x42; 0x00; 0x43; 0x00] <> []
  /\ detect_bom [0x41; 0x00; 0x42; 0x00; 0x43; 0x00] = None
  /\ is_valid_utf8 [0x41; 0x00; 0x42; 0x00; 0x43; 0x00] = true
  /\ DetectEncodingFromBuffer [0x41; 0x00; 0x42; 0x00; 0x43; 0x00] = "UTF-16LE"
  /\ DetectEncodingFromBuffer [0x41; 0x00; 0x42; 0x00; 0x43; 0x00] <> "UTF-8"
  /\ ConvertBufferToUtf8 [0x41; 0x00; 0x42; 0x00; 0x43; 0x00]
     = ([0x41; 0x42; 0x43], "UTF-16LE")
  /\ fst (ConvertBufferToUtf8 [0x41; 0x00; 0x42; 0x00; 0x43; 0x00])
     <> [0x41; 0x00; 0x42; 0x00; 0x43; 0x00].
Proof. repeat split; try reflexivity; discriminate. Qed.

(** C4, amended.  On a non-empty buffer without a mark that none of the
    four wide-encoding heuristics matches and that the validator
    accepts, detection returns UTF-8 and conversion returns the buffer
    itself, byte for byte, under the name UTF-8. *)
Theorem valid_utf8_detect_and_convert (b : list Z) :
  b <> [] ->
  detect_bom b = None ->
  looks_like_utf32_le b = false -> looks_like_utf32_be b = false ->
  looks_like_utf16_le b = false -> looks_like_utf16_be b = false ->
  is_valid_utf8 b = true ->
  DetectEncodingFromBuffer b = "UTF-8" /\ ConvertBufferToUtf8 b = (b, "UTF-8").
Proof.
  intros Hne Hbom H1 H2 H3 H4 Hv.
  assert (Hd : DetectEncodingFromBuffer b = "UTF-8").
  { unfold DetectEncodingFromBuffer. destruct b; [done|].
    by rewrite Hbom, H1, H2, H3, H4, Hv. }
  split; [exact Hd|].
  unfold ConvertBufferToUtf8. destruct b; [done|].
  rewrite Hbom, Hd. cbn [String.eqb Ascii.eqb Bool.eqb]. rewrite drop_0.
  by rewrite Hv.
Qed.

(** The bytes of "Hello, мир!" and a line feed, the first scenario of
    the test program. *)
Lemma valid_utf8_detect_and_convert_witness :
  DetectEncodingFromBuffer
    [0x48; 0x65; 0x6C; 0x6C; 0x6F; 0x2C; 0x20; 0xD0; 0xBC; 0xD0; 0xB8; 0xD1; 0x80; 0x21; 0x0A]
  = "UTF-8" /\
  ConvertBufferToUtf8
    [0x48; 0x65; 0x6C; 0x6C; 0x6F; 0x2C; 0x20; 0xD0; 0xBC; 0xD0; 0xB8; 0xD1; 0x80; 0x21; 0x0A]
  = ([0x48; 0x65; 0x6C; 0x6C; 0x6F; 0x2C; 0x20; 0xD0; 0xBC; 0xD0; 0xB8; 0xD1; 0x80; 0x21; 0x0A],
     "UTF-8").
Proof.
  apply valid_utf8_detect_and_convert; [discriminate | reflexivity ..].
Defined.

(** ** The UTF-16 decoder and surrogates *)

(** Little-endian 00 D8 41 00 is the unit 0xD800 followed by the unit
    0x0041: the decoder emits one replacement scalar and nothing for the
    letter A, which it has skipped. *)
Lemma decode_utf16_mismatch_skips_lookahead :
  unit16 false 0x00 0xD8 = 0xD800
  /\ unit16 false 0x41 0x00 = 0x0041
  /\ decode_utf16 [0x41; 0x00] false = [0x0041]
  /\ decode_utf16 [0x00; 0xD8; 0x41; 0x00] false = [0xFFFD]
  /\ decode_utf16 [0x00; 0xD8; 0x41; 0x00] false
     <> 0xFFFD :: decode_utf16 [0x41; 0x00] false.
Proof. repeat split; try reflexivity. discriminate. Qed.

(** Two malformed units in a row, 0xD800 twice, yield one replacement
    scalar, not two. *)
Example decode_utf16_two_high_surrogates :
  decode_utf16 [0x00; 0xD8; 0x00; 0xD8] false = [0xFFFD].
Proof. reflexivity. Qed.

(** In the loop itself: at a unit in 0xD800-0xDBFF at index [i] with a
    second unit in the buffer that is no low surrogate, the body appends
    one 0xFFFD and leaves [i] at [i + 2]; the header of the loop adds 2
    more, so the next unit read is the one at [i + 4]. *)
Lemma decode_utf16_body_mismatch (p : list Z) (n : nat) (be : bool) (i : nat)
    (out : list Z) :
  0xD800 <= unit16 be (at_ p i) (at_ p (i + 1)) <= 0xDBFF ->
  (i + 3 < n)%nat ->
  ~ (0xDC00 <= unit16 be (at_ p (i + 2)) (at_ p (i + 3)) <= 0xDFFF) ->
  decode_utf16_body p n be i out = (Some (i + 2)%nat, out ++ [0xFFFD]).
Proof.
  intros Hu Hn Hv. unfold decode_utf16_body. cbv zeta.
  set (u := unit16 be (at_ p i) (at_ p (i + 1))) in *.
  set (v := unit16 be (at_ p (i + 2)) (at_ p (i + 3))) in *.
  destruct (Z.geb_spec u 0xD800); [|lia].
  destruct (Z.leb_spec u 0xDBFF); [|lia]. cbn [andb].
  destruct (Nat.leb_spec n (i + 3)); [lia|].
  destruct (Z.ltb_spec v 0xDC00); [done|].
  rewrite Z.gtb_ltb. destruct (Z.ltb_spec 0xDFFF v); [done|]. lia.
Qed.

(** ** The single-byte decoder *)

Lemma table_of_length t : length (table_of t) = 128%nat.
Proof. by destruct t. Qed.

Lemma decode_single_byte_lookup p t i :
  decode_single_byte p t !! i = single_byte_cp t <$> (p !! i).
Proof.
  unfold decode_single_byte. revert i.
  induction p as [|b p IH]; intros [|i]; cbn; try done.
Qed.


(** The body of the decoder's loop reads the table the [switch] selects. *)
Lemma single_byte_cp_table t b :
  single_byte_cp t b = table_scalar (table_of t) b.
Proof.
  unfold single_byte_cp, table_scalar. destruct (b <? 0x80); [done|].
  cbv zeta. rewrite nth_lookup.
  by destruct (table_of t !! Z.to_nat (b - 0x80)).
Qed.

Lemma single_byte_cp_low t b : b < 0x80 -> single_byte_cp t b = b.
Proof. intros Hb. unfold single_byte_cp. by destruct (Z.ltb_spec b 0x80); [|lia]. Qed.

Lemma single_byte_cp_entry t b :
  is_byte b -> 0x80 <= b ->
  emits_table_entry (table_of t) b (Some (single_byte_cp t b)).
Proof.
  intros Hb Hge. unfold single_byte_cp.
  destruct (Z.ltb_spec b 0x80); [lia|].
  destruct (lookup_lt_is_Some_2 (table_of t) (Z.to_nat (b - 0x80))) as [e He].
  { rewrite table_of_length. unfold is_byte in Hb. lia. }
  exists e. rewrite (nth_lookup_Some _ _ 0 _ He).
  repeat split; [done|].
  destruct (Z.eqb_spec e 0); intros [=]; lia.
Qed.

(** C8.  For every byte [b] of the input and each of the four tables:
    if [b < 0x80] the decoder emits the scalar [b]; if [b >= 0x80] it
    emits the entry at [b - 0x80] of the table of the encoding asked
    for ([CP1251_TABLE] for WINDOWS-1251, [KOI8R_TABLE] for KOI8-R,
    [ISO8859_5_TABLE] for ISO-8859-5, [MACCYR_TABLE] for MacCyrillic),
    or the replacement scalar 0xFFFD when that entry is 0; it never
    emits 0x0000 for a byte [>= 0x80]. *)
Theorem decode_single_byte_per_byte (p : list Z) (i : nat) (b : Z) :
  Forall is_byte p ->
  p !! i = Some b ->
  (b < 0x80 ->
   decode_single_byte p CP1251 !! i = Some b
   /\ decode_single_byte p KOI8R !! i = Some b
   /\ decode_single_byte p ISO8859_5 !! i = Some b
   /\ decode_single_byte p MACCYR !! i = Some b)
  /\ (0x80 <= b ->
      emits_table_entry CP1251_TABLE b (decode_single_byte p CP1251 !! i)
      /\ emits_table_entry KOI8R_TABLE b (decode_single_byte p KOI8R !! i)
      /\ emits_table_entry ISO8859_5_TABLE b (decode_single_byte p ISO8859_5 !! i)
      /\ emits_table_entry MACCYR_TABLE b (decode_single_byte p MACCYR !! i)).
Proof.
  intros Hp Hi.
  assert (Hb : is_byte b) by (eapply Forall_lookup_1; eauto).
  rewrite !decode_single_byte_lookup, Hi. cbn [fmap option_fmap option_map].
  split.
  - intros Hlt. by rewrite !single_byte_cp_low.
  - intros Hge. repeat split.
    + exact (single_byte_cp_entry CP1251 b Hb Hge).
    + exact (single_byte_cp_entry KOI8R b Hb Hge).
    + exact (single_byte_cp_entry ISO8859_5 b Hb Hge).
    + exact (single_byte_cp_entry MACCYR b Hb Hge).
Qed.

Lemma decode_single_byte_per_byte_witness :
  (decode_single_byte [0x41; 0x80; 0x98] CP1251 !! 0%nat = Some 0x41
   /\ decode_single_byte [0x41; 0x80; 0x98] KOI8R !! 0%nat = Some 0x41
   /\ decode_single_byte [0x41; 0x80; 0x98] ISO8859_5 !! 0%nat = Some 0x41
   /\ decode_single_byte [0x41; 0x80; 0x98] MACCYR !! 0%nat = Some 0x41)
  /\ (emits_table_entry CP1251_TABLE 0x80
        (decode_single_byte [0x41; 0x80; 0x98] CP1251 !! 1%nat)
      /\ emits_table_entry KOI8R_TABLE 0x80
           (decode_single_byte [0x41; 0x80; 0x98] KOI8R !! 1%nat)
      /\ emits_table_entry ISO8859_5_TABLE 0x80
           (decode_single_byte [0x41; 0x80; 0x98] ISO8859_5 !! 1%nat)
      /\ emits_table_entry MACCYR_TABLE 0x80
           (decode_single_byte [0x41; 0x80; 0x98] MACCYR !! 1%nat)).
Proof.
  assert (Hp : Forall is_byte [0x41; 0x80; 0x98])
    by (repeat constructor; unfold is_byte; lia).
  split.
  - apply (proj1 (decode_single_byte_per_byte _ 0 0x41 Hp eq_refl)). lia.
  - apply (proj2 (decode_single_byte_per_byte _ 1 0x80 Hp eq_refl)). lia.
Defined.

(** ** The encoder *)

(** From here on [lia] also reasons about division and remainder by a
    constant. *)
Ltac Zify.zify_post_hook ::= Z.div_mod_to_equations.

(** [x | y] adds when the bits of [y] lie below those of [x]. *)
Lemma lor_0xC0 x : 0 <= x < 32 -> Z.lor 0xC0 x = 0xC0 + x.
Proof.
  intros Hx. apply Z.eqb_eq.
  apply (Z_range_forall (fun x => Z.lor 0xC0 x =? 0xC0 + x) 32); [by vm_compute | lia].
Qed.

Lemma lor_0x80 x : 0 <= x < 64 -> Z.lor 0x80 x = 0x80 + x.
Proof.
  intros Hx. apply Z.eqb_eq.
  apply (Z_range_forall (fun x => Z.lor 0x80 x =? 0x80 + x) 64); [by vm_compute | lia].
Qed.

Lemma lor_0xE0 x : 0 <= x < 16 -> Z.lor 0xE0 x = 0xE0 + x.
Proof.
  intros Hx. apply Z.eqb_eq.
  apply (Z_range_forall (fun x => Z.lor 0xE0 x =? 0xE0 + x) 16); [by vm_compute | lia].
Qed.

Lemma lor_0xF0 x : 0 <= x < 8 -> Z.lor 0xF0 x = 0xF0 + x.
Proof.
  intros Hx. apply Z.eqb_eq.
  apply (Z_range_forall (fun x => Z.lor 0xF0 x =? 0xF0 + x) 8); [by vm_compute | lia].
Qed.

Lemma land_0x3F x : Z.land x 0x3F = x mod 64.
Proof. exact (Z.land_ones x 6 ltac:(lia)). Qed.

Lemma shiftr_div x n : 0 <= n -> Z.shiftr x n = x / 2 ^ n.
Proof. apply Z.shiftr_div_pow2. Qed.

Lemma to_char_byte x : is_byte x -> to_char x = x.
Proof. intros Hx. apply Z.mod_small. exact Hx. Qed.

(** On a code point up to 0x10FFFF the encoder appends the shortest
    UTF-8 form. *)
Lemma append_utf8_scalar out cp :
  0 <= cp <= 0x10FFFF -> append_utf8 out cp = out ++ utf8_of_scalar cp.
Proof.
  intros Hcp. unfold append_utf8, utf8_of_scalar.
  rewrite !land_0x3F, !shiftr_div by lia.
  change (2 ^ 6) with 64. change (2 ^ 12) with 4096. change (2 ^ 18) with 262144.
  destruct (Z.leb_spec cp 0x7F); [| destruct (Z.leb_spec cp 0x7FF);
                                   [| destruct (Z.leb_spec cp 0xFFFF)]].
  - rewrite to_char_byte by (unfold is_byte; lia). done.
  - rewrite lor_0xC0, lor_0x80 by lia.
    rewrite !to_char_byte by (unfold is_byte; lia). done.
  - rewrite lor_0xE0, !lor_0x80 by lia.
    rewrite !to_char_byte by (unfold is_byte; lia). done.
  - rewrite lor_0xF0, !lor_0x80 by lia.
    rewrite !to_char_byte by (unfold is_byte; lia). done.
Qed.

(** The validator steps over the UTF-8 form of a scalar. *)
Lemma is_valid_utf8_rec_scalar cp rest :
  valid_scalar cp ->
  is_valid_utf8_rec (utf8_of_scalar cp ++ rest) = is_valid_utf8_rec rest.
Proof.
  intros [Hcp Hsur]. unfold utf8_of_scalar.
  destruct (Z.leb_spec cp 0x7F); [| destruct (Z.leb_spec cp 0x7FF);
                                   [| destruct (Z.leb_spec cp 0xFFFF)]];
    cbn [app]; rewrite is_valid_utf8_rec_cons; cbv beta iota.
  - destruct (Z.leb_spec cp 0x7F); [done | lia].
  - set (c := 0xC0 + cp / 64). set (c1 := 0x80 + cp mod 64).
    assert (Hc : is_byte c) by (unfold is_byte; lia).
    assert (Hc1 : is_byte c1) by (unfold is_byte; lia).
    rewrite (lead2_range c Hc), (not_cont_range c1 Hc1).
    assert (0xC2 <= c <= 0xDF) by lia. assert (0x80 <= c1 <= 0xBF) by lia.
    clearbody c c1. zifs. done.
  - set (c := 0xE0 + cp / 4096). set (c1 := 0x80 + (cp / 64) mod 64).
    set (c2 := 0x80 + cp mod 64).
    assert (Hc : is_byte c) by (unfold is_byte; lia).
    assert (Hc1 : is_byte c1) by (unfold is_byte; lia).
    assert (Hc2 : is_byte c2) by (unfold is_byte; lia).
    rewrite (lead2_range c Hc), (lead3_range c Hc), (not_cont_range c1 Hc1),
      (not_cont_range c2 Hc2).
    assert (0xE0 <= c <= 0xEF) by lia.
    assert (0x80 <= c1 <= 0xBF) by lia. assert (0x80 <= c2 <= 0xBF) by lia.
    assert (c = 0xE0 -> 0xA0 <= c1) by lia.
    assert (c = 0xED -> c1 < 0xA0) by lia.
    clearbody c c1 c2. zifs; done.
  - set (c := 0xF0 + cp / 262144). set (c1 := 0x80 + (cp / 4096) mod 64).
    set (c2 := 0x80 + (cp / 64) mod 64). set (c3 := 0x80 + cp mod 64).
    assert (Hc : is_byte c) by (unfold is_byte; lia).
    assert (Hc1 : is_byte c1) by (unfold is_byte; lia).
    assert (Hc2 : is_byte c2) by (unfold is_byte; lia).
    assert (Hc3 : is_byte c3) by (unfold is_byte; lia).
    rewrite (lead2_range c Hc), (lead3_range c Hc), (lead4_range c Hc),
      (not_cont_range c1 Hc1), (not_cont_range c2 Hc2), (not_cont_range c3 Hc3).
    assert (0xF0 <= c <= 0xF4) by lia.
    assert (0x80 <= c1 <= 0xBF) by lia. assert (0x80 <= c2 <= 0xBF) by lia.
    assert (0x80 <= c3 <= 0xBF) by lia.
    assert (c = 0xF0 -> 0x90 <= c1) by lia.
    assert (c = 0xF4 -> c1 < 0x90) by lia.
    clearbody c c1 c2 c3. zifs; done.
Qed.

Lemma fold_append_utf8 u : forall out,
  Forall valid_scalar u ->
  fold_left append_utf8 u out = out ++ concat (map utf8_of_scalar u).
Proof.
  induction u as [|cp u IH]; intros out Hu; cbn [fold_left map concat].
  - by rewrite app_nil_r.
  - apply Forall_cons_1 in Hu as [[Hcp _] Hu].
    rewrite (IH _ Hu), append_utf8_scalar by done. by rewrite <- app_assoc.
Qed.

(** The encoding of a sequence of scalars is valid UTF-8. *)
Lemma is_valid_utf8_u32_to_utf8 u :
  Forall valid_scalar u -> is_valid_utf8 (u32_to_utf8 u) = true.
Proof.
  intros Hu. rewrite is_valid_utf8_eq.
  unfold u32_to_utf8. rewrite (fold_append_utf8 _ _ Hu). cbn [app].
  induction Hu as [|cp u Hcp Hu IH]; cbn [map concat]; [done|].
  by rewrite is_valid_utf8_rec_scalar.
Qed.

(** ** The decoders emit scalars *)

Lemma lor_shiftl_add a b n :
  0 <= n -> 0 <= b < 2 ^ n -> Z.lor (Z.shiftl a n) b = a * 2 ^ n + b.
Proof.
  intros Hn Hb.
  assert (Hland : Z.land (Z.shiftl a n) b = 0).
  { apply Z.bits_inj'. intros i Hi.
    rewrite Z.land_spec, Z.bits_0.
    destruct (Z.lt_ge_cases i n) as [Hlt|Hge].
    - by rewrite Z.shiftl_spec_low.
    - rewrite <- (Z.mod_small b (2 ^ n)) by lia.
      rewrite Z.mod_pow2_bits_high by lia. apply andb_false_r. }
  rewrite <- Z.lxor_lor, <- Z.add_nocarry_lxor by done.
  by rewrite Z.shiftl_mul_pow2.
Qed.

Lemma unit16_range be x0 x1 : 0 <= unit16 be x0 x1 < 65536.
Proof. unfold unit16, u16. destruct be; apply Z.mod_pos_bound; lia. Qed.

(** The unit of two bytes, by arithmetic. *)
Lemma unit16_value (be : bool) (a b : Z) :
  is_byte a -> is_byte b ->
  unit16 be a b = if be then a * 256 + b else b * 256 + a.
Proof.
  unfold is_byte, unit16, u16. intros Ha Hb.
  destruct be; rewrite (Z.mod_small a), (Z.mod_small b) by lia;
    rewrite lor_shiftl_add by lia; change (2 ^ 8) with 256;
    rewrite Z.mod_small; lia.
Qed.

Lemma unit32_range be x0 x1 x2 x3 : 0 <= unit32 be x0 x1 x2 x3 < 4294967296.
Proof. unfold unit32, u32. destruct be; apply Z.mod_pos_bound; lia. Qed.

(** The code point of a surrogate pair, as the decoder computes it. *)
Lemma surrogate_pair_scalar u v :
  0xD800 <= u <= 0xDBFF -> 0xDC00 <= v <= 0xDFFF ->
  u32 (0x10000 + Z.lor (Z.shiftl (u - 0xD800) 10) (v - 0xDC00)) = scalar_of_pair u v.
Proof.
  intros Hu Hv. unfold scalar_of_pair, u32.
  rewrite lor_shiftl_add by lia. change (2 ^ 10) with 1024.
  rewrite Z.mod_small; lia.
Qed.

Lemma valid_scalar_replacement : valid_scalar 0xFFFD.
Proof. unfold valid_scalar. lia. Qed.

Lemma decode_utf16_rec_scalars be n : forall p,
  (length p <= n)%nat -> Forall valid_scalar (decode_utf16_rec p be).
Proof.
  induction n as [|n IH]; intros p Hlen.
  - destruct p; [constructor | simpl in Hlen; lia].
  - destruct p as [|x0 [|x1 r]]; [constructor | constructor |].
    cbn [decode_utf16_rec]. cbn [length] in Hlen.
    pose proof (unit16_range be x0 x1) as Hu.
    set (u := unit16 be x0 x1) in *.
    destruct (Z.geb_spec u 0xD800); destruct (Z.leb_spec u 0xDBFF); cbn [andb].
    + (* a high surrogate *)
      destruct r as [|x2 [|x3 r']];
        [repeat constructor; apply valid_scalar_replacement ..|].
      cbn [length] in Hlen.
      pose proof (unit16_range be x2 x3) as Hv.
      set (v := unit16 be x2 x3) in *.
      rewrite Z.gtb_ltb.
      destruct (Z.ltb_spec v 0xDC00); destruct (Z.ltb_spec 0xDFFF v); cbn [orb];
        try (constructor; [apply valid_scalar_replacement | apply IH; lia]).
      rewrite surrogate_pair_scalar by lia.
      constructor; [| apply IH; lia].
      unfold valid_scalar, scalar_of_pair. lia.
    + (* above the high surrogates *)
      destruct (Z.geb_spec u 0xDC00); destruct (Z.leb_spec u 0xDFFF); cbn [andb];
        (constructor; [first [apply valid_scalar_replacement | unfold valid_scalar; lia]
                      | apply IH; lia]).
    + (* below the surrogates *)
      destruct (Z.geb_spec u 0xDC00); destruct (Z.leb_spec u 0xDFFF); cbn [andb];
        (constructor; [first [apply valid_scalar_replacement | unfold valid_scalar; lia]
                      | apply IH; lia]).
    + lia.
Qed.

Lemma decode_utf16_scalars p be : Forall valid_scalar (decode_utf16 p be).
Proof. rewrite decode_utf16_eq. by apply (decode_utf16_rec_scalars be (length p)). Qed.

Lemma decode_utf32_scalars_aux be n : forall p,
  (length p <= n)%nat -> Forall valid_scalar (decode_utf32 p be).
Proof.
  induction n as [|n IH]; intros p Hlen.
  - destruct p; [constructor | simpl in Hlen; lia].
  - destruct p as [|x0 [|x1 [|x2 [|x3 r]]]]; try constructor.
    + pose proof (unit32_range be x0 x1 x2 x3) as Hu.
      set (u := unit32 be x0 x1 x2 x3) in *.
      rewrite Z.gtb_ltb.
      destruct (Z.ltb_spec 0x10FFFF u); cbn [orb];
        [apply valid_scalar_replacement|].
      destruct (Z.geb_spec u 0xD800); destruct (Z.leb_spec u 0xDFFF); cbn [andb];
        first [apply valid_scalar_replacement | unfold valid_scalar; lia].
    + apply IH. cbn [length] in Hlen. lia.
Qed.

Lemma decode_utf32_scalars p be : Forall valid_scalar (decode_utf32 p be).
Proof. by apply (decode_utf32_scalars_aux be (length p)). Qed.

(** No table holds a surrogate, and every entry fits 16 bits. *)
Lemma table_entries t :
  Forall (fun e => 0 <= e <= 0xFFFF /\ ~ (0xD800 <= e <= 0xDFFF)) (table_of t).
Proof.
  apply Forall_forall. intros e He.
  assert (Hb : forallb (fun e => (0 <=? e) && (e <? 0xD800)) (table_of t) = true)
    by (destruct t; vm_compute; reflexivity).
  rewrite forallb_forall in Hb. apply list_elem_of_In in He. apply Hb in He.
  apply andb_prop in He as [H1 H2]. apply Z.leb_le in H1. apply Z.ltb_lt in H2. lia.
Qed.

Lemma single_byte_cp_scalar t b : 0 <= b -> valid_scalar (single_byte_cp t b).
Proof.
  intros Hb. unfold single_byte_cp.
  destruct (Z.ltb_spec b 0x80); [unfold valid_scalar; lia|].
  destruct (Z.eqb_spec (nth (Z.to_nat (b - 0x80)) (table_of t) 0) 0) as [|Hne];
    [apply valid_scalar_replacement|].
  destruct (nth_in_or_default (Z.to_nat (b - 0x80)) (table_of t) 0) as [Hin|H0];
    [| done].
  pose proof (table_entries t) as Ht. rewrite Forall_forall in Ht.
  apply list_elem_of_In in Hin. apply Ht in Hin. unfold valid_scalar. lia.
Qed.

Lemma decode_single_byte_scalars p t :
  Forall is_byte p -> Forall valid_scalar (decode_single_byte p t).
Proof.
  intros Hp. unfold decode_single_byte.
  induction Hp as [|b p Hb Hp IH]; cbn [map]; constructor; [|done].
  apply single_byte_cp_scalar. unfold is_byte in Hb. lia.
Qed.

(** ** The UTF-16 decoder, unit by unit *)

(** The decoder's result is a decoding of the units of its input. *)
Lemma decode_utf16_rec_decoding (be : bool) (n : nat) : forall p,
  (length p <= n)%nat -> Forall is_byte p ->
  utf16_decoding (utf16_units be p) (decode_utf16_rec p be).
Proof.
  induction n as [|n IH]; intros p Hlen Hp.
  - destruct p; [constructor | simpl in Hlen; lia].
  - destruct p as [|x0 [|x1 r]]; [constructor | constructor |].
    apply Forall_cons in Hp as [Hx0 Hp]. apply Forall_cons in Hp as [Hx1 Hp].
    rewrite decode_utf16_rec_cons. cbv zeta. cbn [utf16_units length] in *.
    rewrite (unit16_value be x0 x1 Hx0 Hx1).
    set (u := if be then x0 * 256 + x1 else x1 * 256 + x0).
    destruct (Z.geb_spec u 0xD800); destruct (Z.leb_spec u 0xDBFF); cbn [andb].
    + (* a high surrogate *)
      destruct r as [|x2 [|x3 r']];
        [apply utf16_high_at_end; unfold high_surrogate; lia
        | apply utf16_high_at_end; unfold high_surrogate; lia |].
      apply Forall_cons in Hp as [Hx2 Hp]. apply Forall_cons in Hp as [Hx3 Hp].
      cbn [utf16_units length] in *.
      rewrite (unit16_value be x2 x3 Hx2 Hx3).
      set (v := if be then x2 * 256 + x3 else x3 * 256 + x2).
      rewrite Z.gtb_ltb.
      destruct (Z.ltb_spec v 0xDC00); destruct (Z.ltb_spec 0xDFFF v); cbn [orb];
        try (apply utf16_mismatch;
             [unfold high_surrogate; lia | unfold low_surrogate; lia
             | apply IH; [lia | done]]).
      rewrite surrogate_pair_scalar by lia.
      apply utf16_pair;
        [unfold high_surrogate; lia | unfold low_surrogate; lia | apply IH; [lia | done]].
    + destruct (Z.geb_spec u 0xDC00); destruct (Z.leb_spec u 0xDFFF); cbn [andb];
        try lia.
      * apply utf16_lone_low; [unfold low_surrogate; lia | apply IH; [lia | done]].
      * apply utf16_unit;
          [unfold high_surrogate; lia | unfold low_surrogate; lia
          | apply IH; [lia | done]].
    + destruct (Z.geb_spec u 0xDC00); destruct (Z.leb_spec u 0xDFFF); cbn [andb];
        try lia.
      apply utf16_unit;
        [unfold high_surrogate; lia | unfold low_surrogate; lia | apply IH; [lia | done]].
    + lia.
Qed.

(** A sequence of units has one decoding. *)
Lemma utf16_decoding_unique us out :
  utf16_decoding us out -> forall out', utf16_decoding us out' -> out = out'.
Proof.
  unfold high_surrogate, low_surrogate.
  induction 1 as [|u us out Hh Hl _ IH|u v us out Hh Hl _ IH|u v us out Hh Hl _ IH
                  |u Hh|u us out Hl _ IH];
    intros out' H'; inversion H'; subst;
    unfold high_surrogate, low_surrogate in *;
    try lia; try reflexivity; f_equal; by apply IH.
Qed.

(** C3, amended.  The decoding of every buffer is the one the rules of
    [utf16_decoding] give on its 16-bit units, and no other; the rules
    speak of the unit at hand wherever it stands in the buffer.  So at
    every position where the decoder reads a unit in 0xD800-0xDBFF
    whose following unit exists but is outside 0xDC00-0xDFFF, it emits
    exactly one replacement scalar for the two units and consumes both:
    the lookahead unit is skipped and decoding resumes after it.  A
    unit in 0xD800-0xDBFF with no unit after it yields one replacement
    scalar and ends the decoding, and a unit in 0xDC00-0xDFFF that is
    read on its own yields exactly one replacement scalar. *)
Theorem decode_utf16_malformed (be : bool) (p out : list Z) :
  Forall is_byte p ->
  decode_utf16 p be = out <-> utf16_decoding (utf16_units be p) out.
Proof.
  intros Hp. rewrite decode_utf16_eq.
  pose proof (decode_utf16_rec_decoding be (length p) p (le_n _) Hp) as Hdec.
  split.
  - by intros <-.
  - intros H. by apply (utf16_decoding_unique _ _ Hdec).
Qed.

(** Little-endian 0041 D800 0042 DC00: the letter, one replacement
    scalar for D800 and the 0042 after it, one for the lone DC00. *)
Lemma decode_utf16_malformed_witness :
  Forall is_byte [0x41; 0x00; 0x00; 0xD8; 0x42; 0x00; 0x00; 0xDC]
  /\ utf16_units false [0x41; 0x00; 0x00; 0xD8; 0x42; 0x00; 0x00; 0xDC]
     = [0x0041; 0xD800; 0x0042; 0xDC00]
  /\ utf16_decoding (utf16_units false [0x41; 0x00; 0x00; 0xD8; 0x42; 0x00; 0x00; 0xDC])
       [0x0041; 0xFFFD; 0xFFFD].
Proof.
  assert (Hp : Forall is_byte [0x41; 0x00; 0x00; 0xD8; 0x42; 0x00; 0x00; 0xDC])
    by (repeat constructor; unfold is_byte; lia).
  split; [exact Hp|]. split; [reflexivity|].
  apply (proj1 (decode_utf16_malformed false _ _ Hp)). reflexivity.
Defined.

(** ** The result of a conversion is valid UTF-8 *)

(** C10.  For every input buffer, well-formed or not, each decoder
    emits only scalars up to 0x10FFFF outside the surrogate range, the
    encoder appends to its output the shortest UTF-8 form of each such
    scalar, and the output of [ConvertBufferToUtf8] is accepted by the
    UTF-8 validator. *)
Theorem convert_output_is_valid_utf8 (bytes : list Z) :
  Forall is_byte bytes ->
  (forall be, Forall valid_scalar (decode_utf16 bytes be))
  /\ (forall be, Forall valid_scalar (decode_utf32 bytes be))
  /\ (forall t, Forall valid_scalar (decode_single_byte bytes t))
  /\ (forall out cp, valid_scalar cp -> append_utf8 out cp = out ++ utf8_of_scalar cp)
  /\ is_valid_utf8 (fst (ConvertBufferToUtf8 bytes)) = true.
Proof.
  intros Hb.
  split; [intros be; apply decode_utf16_scalars|].
  split; [intros be; apply decode_utf32_scalars|].
  split; [intros t; by apply decode_single_byte_scalars|].
  split; [intros out cp [Hcp _]; by apply append_utf8_scalar|].
  unfold ConvertBufferToUtf8.
  destruct bytes as [|b0 bytes]; [reflexivity|].
  set (buf := b0 :: bytes) in *.
  set (encname := match detect_bom buf with
                  | Some b => name b
                  | None => DetectEncodingFromBuffer buf
                  end).
  set (off := match detect_bom buf with Some b => size b | None => 0%nat end).
  assert (Hp : Forall is_byte (drop off buf)) by by apply Forall_drop.
  set (p := drop off buf) in *. clearbody p encname.
  repeat match goal with
         | |- context [String.eqb encname ?s] => destruct (String.eqb encname s)
         end;
    cbn [fst];
    try (apply is_valid_utf8_u32_to_utf8;
         first [ apply decode_utf16_scalars | apply decode_utf32_scalars
               | by apply decode_single_byte_scalars ]).
  destruct (is_valid_utf8 p) eqn:Hv; cbn [negb fst]; [done|].
  apply is_valid_utf8_u32_to_utf8. by apply decode_single_byte_scalars.
Qed.

Lemma convert_output_is_valid_utf8_witness :
  is_valid_utf8
    (fst (ConvertBufferToUtf8 [0xFF; 0xFE; 0x00; 0xD8; 0x41; 0x00; 0x3D; 0xD8; 0x00; 0xDE; 0x98]))
  = true.
Proof.
  refine (proj2 (proj2 (proj2 (proj2 (convert_output_is_valid_utf8 _ _))))).
  repeat constructor; unfold is_byte; lia.
Defined.

(** ** Replacing a file in place *)

Lemma string_length_append (s1 s2 : string) :
  String.length (s1 +:+ s2) = (String.length s1 + String.length s2)%nat.
Proof.
  induction s1 as [|a s1 IH]; [done|].
  change (String a s1 +:+ s2) with (String a (s1 +:+ s2)).
  cbn [String.length]. by rewrite IH.
Qed.

(** The temporary file is never the file itself. *)
Lemma tmp_of_ne path : tmp_of path <> path.
Proof.
  unfold tmp_of. intros H. apply (f_equal String.length) in H.
  rewrite string_length_append in H. cbn in H. lia.
Qed.

(** A world where the file holds 41 FF, the temporary file is written,
    both renames fail and so does the removal of the original: the
    operation throws, and the original file is still at the target
    path. *)
Lemma inplace_retry_fails_original_remains :
  fst (ConvertFileToUtf8Inplace "f"
         (mkWorld {[ "f" := [0x41; 0xFF] ]} [true; true; false; false; false; true] []))
  = Throw (FailedToReplaceFile "f")
  /\ trace (snd (ConvertFileToUtf8Inplace "f"
                   (mkWorld {[ "f" := [0x41; 0xFF] ]}
                            [true; true; false; false; false; true] [])))
     = [ (Rename "f.utf8.tmp" "f", false); (Remove "f", false);
         (Rename "f.utf8.tmp" "f", false); (Remove "f.utf8.tmp", true) ]
  /\ files (snd (ConvertFileToUtf8Inplace "f"
                   (mkWorld {[ "f" := [0x41; 0xFF] ]}
                            [true; true; false; false; false; true] [])))
     !! "f" = Some [0x41; 0xFF]
  /\ files (snd (ConvertFileToUtf8Inplace "f"
                   (mkWorld {[ "f" := [0x41; 0xFF] ]}
                            [true; true; false; false; false; true] [])))
     !! "f" <> None.
Proof. vm_compute. repeat split; discriminate. Qed.

(** C9, amended.  After the temporary file is written, the operation
    tries to rename it onto the original path.  When that rename
    succeeds the operation returns and no removal is ever attempted.
    When it fails, the removal of the original is attempted, whatever
    its outcome, and the rename is retried exactly once; when the retry
    succeeds the operation returns.  When the retry fails as well, the
    removal of the temporary file is attempted and the operation
    throws; in that state no file is at the target path if the removal
    of the original had succeeded, and the original file is still there
    if that removal had failed. *)
Theorem inplace_replace_outcomes
    (path : string) (fsys : gmap string (list Z)) (data : list Z)
    (rename1 remove_orig rename2 remove_tmp : bool)
    (os : list bool) (tr : list (fs_call * bool)) :
  fsys !! path = Some data ->
  let tmp := tmp_of path in
  let utf8 := fst (ConvertBufferToUtf8 data) in
  let detected := snd (ConvertBufferToUtf8 data) in
  let w := mkWorld fsys
             (true :: true :: rename1 :: remove_orig :: rename2 :: remove_tmp :: os)
             tr in
  let r := fst (ConvertFileToUtf8Inplace path w) in
  let w' := snd (ConvertFileToUtf8Inplace path w) in
  if rename1 then
    r = Ok detected
    /\ trace w' = tr ++ [(Rename tmp path, true)]
    /\ files w' !! path = Some utf8 /\ files w' !! tmp = None
  else if rename2 then
    r = Ok detected
    /\ trace w' = tr ++ [(Rename tmp path, false); (Remove path, remove_orig);
                         (Rename tmp path, true)]
    /\ files w' !! path = Some utf8 /\ files w' !! tmp = None
  else
    r = Throw (FailedToReplaceFile path)
    /\ trace w' = tr ++ [(Rename tmp path, false); (Remove path, remove_orig);
                         (Rename tmp path, false); (Remove tmp, remove_tmp)]
    /\ files w' !! path = (if remove_orig then None else Some data)
    /\ files w' !! tmp = (if remove_tmp then None else Some utf8).
Proof.
  intros Hpath tmp utf8 detected w r w'.
  pose proof (tmp_of_ne path) as Hne. fold tmp in Hne.
  subst r w' w utf8 detected. unfold ConvertFileToUtf8Inplace. fold tmp.
  destruct (ConvertBufferToUtf8 data) as [utf8 detected] eqn:Hconv.
  clearbody tmp.
  assert (Hne' : path <> tmp) by done.
  destruct rename1, remove_orig, rename2, remove_tmp;
    repeat (cbv beta iota zeta delta
              [mbind M_bind bind ret throw ConvertFileToUtf8 read_file_bytes
               get_files set_files log next_outcome open_trunc write_flush
               fs_rename fs_remove files oracle trace fst snd negb];
            rewrite ?Hpath, ?Hconv, ?lookup_insert_eq, ?lookup_delete_eq,
              ?lookup_insert_ne, ?lookup_delete_ne by done);
    rewrite <- ?app_assoc; done.
Qed.

Lemma inplace_replace_outcomes_witness :
  fst (ConvertFileToUtf8Inplace "f"
         (mkWorld {[ "f" := [0xCF; 0xF0] ]} [true; true; false; true; false; true] []))
  = Throw (FailedToReplaceFile "f")
  /\ trace (snd (ConvertFileToUtf8Inplace "f"
                   (mkWorld {[ "f" := [0xCF; 0xF0] ]}
                            [true; true; false; true; false; true] [])))
     = [] ++ [ (Rename (tmp_of "f") "f", false); (Remove "f", true);
               (Rename (tmp_of "f") "f", false); (Remove (tmp_of "f"), true) ]
  /\ files (snd (ConvertFileToUtf8Inplace "f"
                   (mkWorld {[ "f" := [0xCF; 0xF0] ]}
                            [true; true; false; true; false; true] [])))
     !! "f" = None
  /\ files (snd (ConvertFileToUtf8Inplace "f"
                   (mkWorld {[ "f" := [0xCF; 0xF0] ]}
                            [true; true; false; true; false; true] [])))
     !! tmp_of "f" = None.
Proof.
  exact (inplace_replace_outcomes "f" {[ "f" := [0xCF; 0xF0] ]} [0xCF; 0xF0]
           false true false true [] [] eq_refl).
Defined.

(** ** The scenarios of the test program

    The assertions of [src/test_utf8_converter_api.cpp], on the
    embedding. *)

(** 1) UTF-8 without BOM. *)
Example test_utf8_no_bom :
  DetectEncodingFromBuffer
    [0x48; 0x65; 0x6C; 0x6C; 0x6F; 0x2C; 0x20; 0xD0; 0xBC; 0xD0; 0xB8; 0xD1; 0x80; 0x21; 0x0A]
  = "UTF-8".
Proof. reflexivity. Qed.

(** 2) UTF-8 with BOM: the mark is not part of the output. *)
Example test_utf8_bom :
  DetectEncodingFromBuffer
    [0xEF; 0xBB; 0xBF;
     0x48; 0x65; 0x6C; 0x6C; 0x6F; 0x2C; 0x20; 0xD0; 0xBC; 0xD0; 0xB8; 0xD1; 0x80; 0x21; 0x0A]
  = "UTF-8"
  /\ ConvertBufferToUtf8
       [0xEF; 0xBB; 0xBF;
        0x48; 0x65; 0x6C; 0x6C; 0x6F; 0x2C; 0x20; 0xD0; 0xBC; 0xD0; 0xB8; 0xD1; 0x80; 0x21; 0x0A]
     = ([0x48; 0x65; 0x6C; 0x6C; 0x6F; 0x2C; 0x20; 0xD0; 0xBC; 0xD0; 0xB8; 0xD1; 0x80; 0x21; 0x0A],
        "UTF-8").
Proof. split; reflexivity. Qed.

(** 3) UTF-16LE with BOM: the text AB. *)
Example test_utf16le_bom :
  DetectEncodingFromBuffer [0xFF; 0xFE; 0x41; 0x00; 0x42; 0x00] = "UTF-16LE"
  /\ ConvertBufferToUtf8 [0xFF; 0xFE; 0x41; 0x00; 0x42; 0x00] = ([0x41; 0x42], "UTF-16LE").
Proof. split; reflexivity. Qed.

(** 4), 5) The word CF F0 E8 E2 E5 F2 of WINDOWS-1251. *)
Example test_cp1251 :
  DetectEncodingFromBuffer [0xCF; 0xF0; 0xE8; 0xE2; 0xE5; 0xF2] = "WINDOWS-1251"
  /\ ConvertBufferToUtf8 [0xCF; 0xF0; 0xE8; 0xE2; 0xE5; 0xF2]
     = ([0xD0; 0x9F; 0xD1; 0x80; 0xD0; 0xB8; 0xD0; 0xB2; 0xD0; 0xB5; 0xD1; 0x82],
        "WINDOWS-1251").
Proof. split; vm_compute; reflexivity. Qed.

(** 7) In place, when the first rename succeeds: the file holds the
    UTF-8 text and no temporary file is left. *)
Example test_inplace :
  map_to_list
    (files (snd (ConvertFileToUtf8Inplace "t_inplace_cp1251.txt"
                   (mkWorld {[ "t_inplace_cp1251.txt" := [0xCF; 0xF0; 0xE8; 0xE2; 0xE5; 0xF2] ]}
                            [] []))))
  = [ ("t_inplace_cp1251.txt",
       [0xD0; 0x9F; 0xD1; 0x80; 0xD0; 0xB8; 0xD0; 0xB2; 0xD0; 0xB5; 0xD1; 0x82]) ].
Proof. vm_compute. reflexivity. Qed.

(** The empty buffer: UTF-8 and no output. *)
Example test_empty :
  DetectEncodingFromBuffer [] = "UTF-8" /\ ConvertBufferToUtf8 [] = ([], "UTF-8").
Proof. split; reflexivity. Qed.

(** * Further properties of the code *)

(** ** Induction on buffers by units *)

Lemma list_pair_ind (P : list Z -> Prop) :
  P [] -> (forall x, P [x]) -> (forall x y l, P l -> P (x :: y :: l)) ->
  forall l, P l.
Proof.
  intros H0 H1 H2 l.
  assert (H : P l /\ forall x, P (x :: l)); [|tauto].
  induction l as [|y l [IH1 IH2]]; split; auto.
Qed.

Lemma list_quad_ind (P : list Z -> Prop) :
  P [] -> (forall x, P [x]) -> (forall x y, P [x; y]) -> (forall x y z, P [x; y; z]) ->
  (forall x y z w l, P l -> P (x :: y :: z :: w :: l)) ->
  forall l, P l.
Proof.
  intros H0 H1 H2 H3 H4 l.
  assert (H : P l /\ (forall x, P (x :: l)) /\ (forall x y, P (x :: y :: l))
              /\ forall x y z, P (x :: y :: z :: l)); [|tauto].
  induction l as [|w l (IH0 & IH1 & IH2 & IH3)]; repeat split; auto.
Qed.

(** ** The BOM detector *)

(** The mark [detect_bom] reports, with its bytes in the buffer. *)
Lemma detect_bom_Some (b : list Z) (bom : BomInfo) :
  detect_bom b = Some bom ->
  (bom = mkBomInfo "UTF-8" 3 /\ exists r, b = 0xEF :: 0xBB :: 0xBF :: r)
  \/ (bom = mkBomInfo "UTF-16LE" 2 /\ exists r, b = 0xFF :: 0xFE :: r)
  \/ (bom = mkBomInfo "UTF-16BE" 2 /\ exists r, b = 0xFE :: 0xFF :: r)
  \/ (bom = mkBomInfo "UTF-32BE" 4 /\ exists r, b = 0x00 :: 0x00 :: 0xFE :: 0xFF :: r).
Proof.
  unfold detect_bom, at_.
  destruct b as [|x0 [|x1 [|x2 [|x3 b]]]]; cbn [length nth Nat.leb andb];
    try discriminate;
    repeat match goal with
           | |- context [Z.eqb ?a ?b] => destruct (Z.eqb_spec a b)
           end; cbn [andb]; try discriminate; intros [= <-]; subst;
    try lia; eauto 10.
Qed.

(** X1.  When [detect_bom] reports a mark, the buffer begins with the
    bytes of that mark and the reported size is their number; it
    reports none exactly when the buffer begins with none of the five
    marks. *)
Theorem detect_bom_sound_complete (b : list Z) :
  (forall bom, detect_bom b = Some bom ->
     bom_bytes (name bom) `prefix_of` b
     /\ length (bom_bytes (name bom)) = size bom
     /\ (size bom <= length b)%nat)
  /\ (detect_bom b = None <->
      forall nm, In nm ["UTF-8"; "UTF-16LE"; "UTF-16BE"; "UTF-32LE"; "UTF-32BE"] ->
                 ~ (bom_bytes nm `prefix_of` b)).
Proof.
  split.
  - intros bom H.
    destruct (detect_bom_Some b bom H) as [[-> [r ->]]|[[-> [r ->]]|[[-> [r ->]]|[-> [r ->]]]]];
      cbn [name size]; (split; [|split; [reflexivity | cbn [length]; lia]]);
      vm_compute bom_bytes; repeat apply prefix_cons; apply prefix_nil.
  - rewrite detect_bom_None. split.
    + intros (H1 & H2 & H3 & H4 & H5) nm Hnm.
      cbn [In] in Hnm.
      destruct Hnm as [<-|[<-|[<-|[<-|[<-|[]]]]]]; vm_compute bom_bytes; done.
    + intros H. repeat split.
      * apply (H "UTF-8"). cbn; tauto.
      * apply (H "UTF-16LE"). cbn; tauto.
      * apply (H "UTF-16BE"). cbn; tauto.
      * apply (H "UTF-32LE"). cbn; tauto.
      * apply (H "UTF-32BE"). cbn; tauto.
Qed.

(** ** The heuristics *)

Lemma count_units2_none (f : Z -> Z -> bool) (b : list Z) :
  (forall x0 x1, In x0 b -> In x1 b -> f x0 x1 = false) -> count_units2 f b = 0%nat.
Proof.
  induction b as [|x|x y l IH] using list_pair_ind; intros H; cbn [count_units2];
    try reflexivity.
  rewrite H by (cbn; tauto). rewrite IH; [reflexivity|].
  intros x0 x1 H0 H1. apply H; cbn; tauto.
Qed.

Lemma count_units4_none (f : Z -> Z -> Z -> Z -> bool) (b : list Z) :
  (forall x0 x1 x2 x3, In x0 b -> In x1 b -> In x2 b -> In x3 b -> f x0 x1 x2 x3 = false) ->
  count_units4 f b = 0%nat.
Proof.
  induction b as [|x|x y|x y z|x y z w l IH] using list_quad_ind; intros H;
    cbn [count_units4]; try reflexivity.
  rewrite H by (cbn; tauto). rewrite IH; [reflexivity|].
  intros x0 x1 x2 x3 H0 H1 H2 H3. apply H; cbn; tauto.
Qed.

Lemma no_zero_no_wide (b : list Z) :
  Forall (fun x => x <> 0) b ->
  looks_like_utf32_le b = false /\ looks_like_utf32_be b = false
  /\ looks_like_utf16_le b = false /\ looks_like_utf16_be b = false.
Proof.
  intros Hb. rewrite Forall_forall in Hb.
  assert (Hz : forall x, In x b -> (x =? 0) = false).
  { intros x Hx. apply Z.eqb_neq, Hb. by apply list_elem_of_In. }
  unfold looks_like_utf32_le, looks_like_utf32_be, looks_like_utf16_le,
    looks_like_utf16_be.
  rewrite !count_units4_none, !count_units2_none;
    try (intros; rewrite !Hz by done; reflexivity).
  repeat split; repeat match goal with
                       | |- context [Nat.ltb ?a ?b] => destruct (Nat.ltb_spec a b); try lia
                       end; reflexivity.
Qed.

(** X2.  A buffer without a zero byte matches none of the four
    wide-encoding heuristics. *)
Theorem heuristics_need_zero_bytes (b : list Z) :
  Forall (fun x => x <> 0) b ->
  looks_like_utf32_le b = false /\ looks_like_utf32_be b = false
  /\ looks_like_utf16_le b = false /\ looks_like_utf16_be b = false.
Proof. apply no_zero_no_wide. Qed.

Lemma heuristics_need_zero_bytes_witness :
  looks_like_utf32_le [0x48; 0x65; 0x6C; 0x6C; 0x6F; 0x2C; 0x20; 0xD0; 0xBC] = false
  /\ looks_like_utf32_be [0x48; 0x65; 0x6C; 0x6C; 0x6F; 0x2C; 0x20; 0xD0; 0xBC] = false
  /\ looks_like_utf16_le [0x48; 0x65; 0x6C; 0x6C; 0x6F; 0x2C; 0x20; 0xD0; 0xBC] = false
  /\ looks_like_utf16_be [0x48; 0x65; 0x6C; 0x6C; 0x6F; 0x2C; 0x20; 0xD0; 0xBC] = false.
Proof.
  apply heuristics_need_zero_bytes. repeat constructor; discriminate.
Defined.

(** X3.  The two UTF-16 heuristics never match the same buffer. *)
Theorem utf16_heuristics_exclusive (b : list Z) :
  looks_like_utf16_le b = true -> looks_like_utf16_be b = false.
Proof.
  unfold looks_like_utf16_le, looks_like_utf16_be.
  destruct (length b <? 6)%nat; [discriminate|].
  set (zo := count_units2 (fun _ x1 => x1 =? 0) b).
  set (ze := count_units2 (fun x0 _ => x0 =? 0) b).
  intros H. apply andb_prop in H as [H1 H2].
  apply Nat.ltb_lt in H1. apply Nat.ltb_lt in H2.
  destruct (Nat.ltb_spec (zo * 3) ze); [lia | reflexivity].
Qed.

Lemma utf16_heuristics_exclusive_witness :
  looks_like_utf16_be [0x41; 0x00; 0x42; 0x00; 0x43; 0x00] = false.
Proof. apply utf16_heuristics_exclusive. reflexivity. Defined.

(** ** The orchestrators *)

(** The candidate loop returns the name of one of the four candidates. *)
Lemma cands_fold_name (bytes : list Z) :
  In (snd (fold_left (cand_step bytes) cands ((-1000000000)%Q, "WINDOWS-1251")))
     ["WINDOWS-1251"; "KOI8-R"; "ISO-8859-5"; "MACCYRILLIC"].
Proof.
  cbn [fold_left cands]. unfold cand_step. cbn [fst snd].
  repeat match goal with
         | |- context [if score_gt ?a ?b then _ else _] => destruct (score_gt a b)
         end; cbn [fst snd In]; tauto.
Qed.

(** What detection answers on a non-empty buffer without a mark. *)
Lemma detect_no_bom (b : list Z) :
  b <> [] -> detect_bom b = None ->
  In (DetectEncodingFromBuffer b) ["UTF-32LE"; "UTF-32BE"; "UTF-16LE"; "UTF-16BE"]
  \/ (DetectEncodingFromBuffer b = "UTF-8" /\ is_valid_utf8 b = true)
  \/ In (DetectEncodingFromBuffer b)
        ["WINDOWS-1251"; "KOI8-R"; "ISO-8859-5"; "MACCYRILLIC"].
Proof.
  intros Hne Hbom. unfold DetectEncodingFromBuffer.
  destruct b as [|x b]; [done|]. rewrite Hbom.
  destruct (looks_like_utf32_le _); [left; cbn; tauto|].
  destruct (looks_like_utf32_be _); [left; cbn; tauto|].
  destruct (looks_like_utf16_le _); [left; cbn; tauto|].
  destruct (looks_like_utf16_be _); [left; cbn; tauto|].
  destruct (is_valid_utf8 _); [right; left; done|].
  right; right. apply cands_fold_name.
Qed.

(** X4.  Detection always answers with one of the nine encoding names,
    and with UTF-8 on the empty buffer. *)
Theorem detect_returns_known_name (bytes : list Z) :
  In (DetectEncodingFromBuffer bytes) encoding_names
  /\ DetectEncodingFromBuffer [] = "UTF-8".
Proof.
  split; [|reflexivity].
  destruct bytes as [|x b]; [cbn; tauto|].
  destruct (detect_bom (x :: b)) as [bom|] eqn:Hbom.
  - unfold DetectEncodingFromBuffer. rewrite Hbom.
    destruct (detect_bom_Some _ _ Hbom) as [[-> _]|[[-> _]|[[-> _]|[-> _]]]];
      cbn; tauto.
  - destruct (detect_no_bom (x :: b) ltac:(done) Hbom) as [H|[[-> _]|H]];
      unfold encoding_names; cbn [In] in *; tauto.
Qed.

(** X5.  The name a conversion reports is the name detection answers
    on the same buffer, with one exception: on a buffer that begins
    with the UTF-8 mark EF BB BF and whose remainder is not valid UTF-8,
    detection answers UTF-8 and the conversion reports WINDOWS-1251. *)
Theorem convert_name_is_detected_name (bytes : list Z) :
  (forall r, bytes = 0xEF :: 0xBB :: 0xBF :: r -> is_valid_utf8 r = false ->
     DetectEncodingFromBuffer bytes = "UTF-8"
     /\ snd (ConvertBufferToUtf8 bytes) = "WINDOWS-1251")
  /\ ((forall r, bytes = 0xEF :: 0xBB :: 0xBF :: r -> is_valid_utf8 r = true) ->
      snd (ConvertBufferToUtf8 bytes) = DetectEncodingFromBuffer bytes).
Proof.
  split.
  - intros r -> Hv. split; [reflexivity|].
    unfold ConvertBufferToUtf8.
    change (detect_bom (0xEF :: 0xBB :: 0xBF :: r)) with (Some (mkBomInfo "UTF-8" 3)).
    cbn [name size String.eqb Ascii.eqb Bool.eqb skipn]. rewrite drop_0. by rewrite Hv.
  - intros Hok.
    destruct bytes as [|x b]; [reflexivity|].
    destruct (detect_bom (x :: b)) as [bom|] eqn:Hbom.
    + assert (Hd : DetectEncodingFromBuffer (x :: b) = name bom)
        by (unfold DetectEncodingFromBuffer; by rewrite Hbom).
      unfold ConvertBufferToUtf8. rewrite Hbom, Hd.
      destruct (detect_bom_Some _ _ Hbom) as [[-> [r Hr]]|[[-> _]|[[-> _]|[-> _]]]];
        cbn [name size String.eqb Ascii.eqb Bool.eqb]; try reflexivity.
      rewrite Hr. cbn [skipn]. rewrite drop_0.
      by rewrite (Hok r Hr).
    + unfold ConvertBufferToUtf8. rewrite Hbom. rewrite drop_0.
      destruct (detect_no_bom (x :: b) ltac:(done) Hbom) as [H|[[Hd Hv]|H]].
      * cbn [In] in H. destruct H as [H|[H|[H|[H|[]]]]]; by rewrite <- H.
      * rewrite Hd. cbn [String.eqb Ascii.eqb Bool.eqb]. by rewrite Hv.
      * cbn [In] in H. destruct H as [H|[H|[H|[H|[]]]]]; by rewrite <- H.
Qed.

(** EF BB BF FF is the exception; on EF BB BF 41 and on CF F0 the two
    names agree. *)
Lemma convert_name_is_detected_name_witness :
  (DetectEncodingFromBuffer [0xEF; 0xBB; 0xBF; 0xFF] = "UTF-8"
   /\ snd (ConvertBufferToUtf8 [0xEF; 0xBB; 0xBF; 0xFF]) = "WINDOWS-1251")
  /\ snd (ConvertBufferToUtf8 [0xEF; 0xBB; 0xBF; 0x41])
     = DetectEncodingFromBuffer [0xEF; 0xBB; 0xBF; 0x41]
  /\ snd (ConvertBufferToUtf8 [0xCF; 0xF0]) = DetectEncodingFromBuffer [0xCF; 0xF0].
Proof.
  split; [|split].
  - exact (proj1 (convert_name_is_detected_name [0xEF; 0xBB; 0xBF; 0xFF])
             [0xFF] eq_refl eq_refl).
  - apply (proj2 (convert_name_is_detected_name [0xEF; 0xBB; 0xBF; 0x41])).
    intros r [= <-]. reflexivity.
  - apply (proj2 (convert_name_is_detected_name [0xCF; 0xF0])).
    intros r [=].
Defined.

(** A valid UTF-8 span begins with neither FF nor FE. *)
Lemma valid_utf8_first_byte (x : Z) (r : list Z) :
  is_valid_utf8 (x :: r) = true -> x <> 0xFF /\ x <> 0xFE.
Proof.
  rewrite is_valid_utf8_eq. intros H. split; intros ->; cbn in H; discriminate.
Qed.

Lemma valid_utf8_no_nul_identity (b : list Z) :
  b <> [] -> Forall (fun x => x <> 0) b -> is_valid_utf8 b = true ->
  ~ ([0xEF; 0xBB; 0xBF] `prefix_of` b) ->
  DetectEncodingFromBuffer b = "UTF-8" /\ ConvertBufferToUtf8 b = (b, "UTF-8").
Proof.
  intros Hne Hnz Hv Hbom8.
  destruct b as [|x b]; [done|].
  destruct (valid_utf8_first_byte x b Hv) as [Hff Hfe].
  assert (Hx : x <> 0) by (by apply Forall_cons_1 in Hnz as [? _]).
  assert (Hbom : detect_bom (x :: b) = None).
  { apply detect_bom_None. repeat split; try done; intros [k Hk]; cbn in Hk; congruence. }
  destruct (no_zero_no_wide _ Hnz) as (H1 & H2 & H3 & H4).
  assert (Hd : DetectEncodingFromBuffer (x :: b) = "UTF-8").
  { unfold DetectEncodingFromBuffer. by rewrite Hbom, H1, H2, H3, H4, Hv. }
  split; [exact Hd|].
  unfold ConvertBufferToUtf8. rewrite Hbom, Hd.
  cbn [String.eqb Ascii.eqb Bool.eqb]. rewrite drop_0. by rewrite Hv.
Qed.

(** X6.  A non-empty buffer that is valid UTF-8, holds no zero byte and
    does not begin with the UTF-8 mark is detected as UTF-8 and
    converted to itself, byte for byte. *)
Theorem valid_utf8_without_nul_is_identity (b : list Z) :
  b <> [] -> Forall (fun x => x <> 0) b -> is_valid_utf8 b = true ->
  ~ ([0xEF; 0xBB; 0xBF] `prefix_of` b) ->
  DetectEncodingFromBuffer b = "UTF-8" /\ ConvertBufferToUtf8 b = (b, "UTF-8").
Proof. apply valid_utf8_no_nul_identity. Qed.

Lemma valid_utf8_without_nul_is_identity_witness :
  DetectEncodingFromBuffer [0xD0; 0x9F; 0xD1; 0x80; 0x21] = "UTF-8"
  /\ ConvertBufferToUtf8 [0xD0; 0x9F; 0xD1; 0x80; 0x21]
     = ([0xD0; 0x9F; 0xD1; 0x80; 0x21], "UTF-8").
Proof.
  apply valid_utf8_without_nul_is_identity.
  - discriminate.
  - repeat constructor; discriminate.
  - reflexivity.
  - intros [k Hk]. discriminate Hk.
Defined.

(** ** Round trips through the wide decoders *)

(** Decoding the two bytes of a unit that is no surrogate. *)
Lemma decode_utf16_rec_unit (be : bool) (u : Z) (r : list Z) :
  0 <= u <= 0xFFFF -> ~ (0xD800 <= u <= 0xDFFF) ->
  decode_utf16_rec (unit16_bytes be u ++ r) be = u :: decode_utf16_rec r be.
Proof.
  intros Hu Hs. unfold unit16_bytes.
  destruct be; cbn [app]; rewrite decode_utf16_rec_cons; cbv zeta;
    rewrite unit16_value by (unfold is_byte; lia);
    cbv beta iota;
    match goal with
    | |- context [if (?x >=? _) && _ then _ else _] =>
        replace x with u by lia
    end; zifs; reflexivity.
Qed.

(** Decoding the four bytes of a surrogate pair. *)
Lemma decode_utf16_rec_pair (be : bool) (hi lo : Z) (r : list Z) :
  0xD800 <= hi <= 0xDBFF -> 0xDC00 <= lo <= 0xDFFF ->
  decode_utf16_rec (unit16_bytes be hi ++ unit16_bytes be lo ++ r) be
  = scalar_of_pair hi lo :: decode_utf16_rec r be.
Proof.
  intros Hhi Hlo. unfold unit16_bytes.
  destruct be; cbn [app]; rewrite decode_utf16_rec_cons; cbv zeta;
    rewrite !unit16_value by (unfold is_byte; lia);
    cbv beta iota;
    repeat match goal with
           | |- context [hi / 256 * 256 + hi mod 256] =>
               replace (hi / 256 * 256 + hi mod 256) with hi by lia
           | |- context [lo / 256 * 256 + lo mod 256] =>
               replace (lo / 256 * 256 + lo mod 256) with lo by lia
           end;
    rewrite surrogate_pair_scalar by lia; zifs; reflexivity.
Qed.

Lemma decode_utf16_rec_scalar (be : bool) (cp : Z) (r : list Z) :
  valid_scalar cp ->
  decode_utf16_rec (utf16_of_scalar be cp ++ r) be = cp :: decode_utf16_rec r be.
Proof.
  intros [Hcp Hs]. unfold utf16_of_scalar.
  destruct (Z.leb_spec cp 0xFFFF).
  - apply decode_utf16_rec_unit; lia.
  - rewrite <- app_assoc, decode_utf16_rec_pair by lia.
    f_equal. unfold scalar_of_pair. lia.
Qed.

Lemma decode_utf16_rec_encode (be : bool) (cps : list Z) :
  Forall valid_scalar cps -> decode_utf16_rec (utf16_encode be cps) be = cps.
Proof.
  unfold utf16_encode.
  induction 1 as [|cp cps Hcp _ IH]; cbn [map concat]; [reflexivity|].
  by rewrite decode_utf16_rec_scalar, IH.
Qed.

(** X7.  Decoding the UTF-16 form of a sequence of scalars, in either
    byte order, gives the sequence back; a scalar above 0xFFFF comes
    back from its surrogate pair. *)
Theorem decode_utf16_round_trip (be : bool) (cps : list Z) :
  Forall valid_scalar cps -> decode_utf16 (utf16_encode be cps) be = cps.
Proof. intros H. rewrite decode_utf16_eq. by apply decode_utf16_rec_encode. Qed.

Lemma decode_utf16_round_trip_witness :
  decode_utf16 (utf16_encode false [0x41; 0x0416; 0x1F600; 0xFFFD; 0x10FFFF]) false
  = [0x41; 0x0416; 0x1F600; 0xFFFD; 0x10FFFF].
Proof.
  apply decode_utf16_round_trip.
  repeat constructor; unfold valid_scalar; lia.
Defined.

Lemma unit32_value (be : bool) (a b c d : Z) :
  is_byte a -> is_byte b -> is_byte c -> is_byte d ->
  unit32 be a b c d
  = if be then a * 16777216 + b * 65536 + c * 256 + d
    else d * 16777216 + c * 65536 + b * 256 + a.
Proof.
  unfold is_byte. intros Ha Hb Hc Hd.
  assert (Hgen : forall x y z w, 0 <= x < 256 -> 0 <= y < 256 -> 0 <= z < 256 ->
                   0 <= w < 256 ->
                   u32 (Z.lor (Z.lor (Z.lor (Z.shiftl (u32 x) 24) (Z.shiftl (u32 y) 16))
                                     (Z.shiftl (u32 z) 8)) (u32 w))
                   = x * 16777216 + y * 65536 + z * 256 + w).
  { intros x y z w Hx Hy Hz Hw. unfold u32.
    remember (x * 16777216 + y * 65536 + z * 256 + w) as rhs eqn:Hrhs.
    rewrite (Z.mod_small x), (Z.mod_small y), (Z.mod_small z), (Z.mod_small w) by lia.
    rewrite (Z.shiftl_mul_pow2 y 16), (Z.shiftl_mul_pow2 z 8) by lia.
    change (2 ^ 16) with 65536. change (2 ^ 8) with 256.
    rewrite (lor_shiftl_add x (y * 65536) 24) by lia. change (2 ^ 24) with 16777216.
    replace (x * 16777216 + y * 65536) with ((x * 256 + y) * 2 ^ 16) by lia.
    rewrite <- (Z.shiftl_mul_pow2 (x * 256 + y) 16) by lia.
    rewrite (lor_shiftl_add (x * 256 + y) (z * 256) 16) by lia.
    change (2 ^ 16) with 65536.
    replace ((x * 256 + y) * 65536 + z * 256) with ((x * 65536 + y * 256 + z) * 2 ^ 8) by lia.
    rewrite <- (Z.shiftl_mul_pow2 (x * 65536 + y * 256 + z) 8) by lia.
    rewrite (lor_shiftl_add (x * 65536 + y * 256 + z) w 8) by lia.
    change (2 ^ 8) with 256. rewrite Z.mod_small; lia. }
  unfold unit32. destruct be; by apply Hgen.
Qed.

Lemma decode_utf32_unit (be : bool) (cp : Z) (r : list Z) :
  valid_scalar cp ->
  decode_utf32 (unit32_bytes be cp ++ r) be = cp :: decode_utf32 r be.
Proof.
  intros [Hcp Hs]. unfold unit32_bytes.
  destruct be; cbn [app decode_utf32];
    rewrite unit32_value by (unfold is_byte; lia); cbv beta iota zeta;
    replace (cp / 16777216 * 16777216 + (cp / 65536) mod 256 * 65536 +
             (cp / 256) mod 256 * 256 + cp mod 256) with cp by lia;
    zifs; reflexivity.
Qed.

(** X8.  Decoding the UTF-32 form of a sequence of scalars, in either
    byte order, gives the sequence back. *)
Theorem decode_utf32_round_trip (be : bool) (cps : list Z) :
  Forall valid_scalar cps -> decode_utf32 (utf32_encode be cps) be = cps.
Proof.
  unfold utf32_encode.
  induction 1 as [|cp cps Hcp _ IH]; cbn [map concat]; [reflexivity|].
  by rewrite decode_utf32_unit, IH.
Qed.

Lemma decode_utf32_round_trip_witness :
  decode_utf32 (utf32_encode true [0x41; 0x0416; 0x1F600; 0x10FFFF]) true
  = [0x41; 0x0416; 0x1F600; 0x10FFFF].
Proof.
  apply decode_utf32_round_trip.
  repeat constructor; unfold valid_scalar; lia.
Defined.

(** ** ASCII text in a wide encoding without a mark *)

Lemma is_ascii_char_scalar c : is_ascii_char c -> valid_scalar c.
Proof. unfold is_ascii_char, valid_scalar. lia. Qed.

(** The encoder writes a scalar up to 0x7F as the byte itself. *)
Lemma u32_to_utf8_ascii (t : list Z) :
  Forall (fun c => 0 <= c <= 0x7F) t -> u32_to_utf8 t = t.
Proof.
  intros Ht. unfold u32_to_utf8. rewrite fold_append_utf8.
  - cbn [app]. induction Ht as [|c t Hc _ IH]; cbn [map concat]; [reflexivity|].
    rewrite IH. unfold utf8_of_scalar.
    destruct (Z.leb_spec c 0x7F); [reflexivity | lia].
  - eapply Forall_impl; [exact Ht|]. unfold valid_scalar. cbv beta. lia.
Qed.

Lemma utf16_encode_ascii_cons (be : bool) (c : Z) (t : list Z) :
  is_ascii_char c ->
  utf16_encode be (c :: t) = (if be then [0; c] else [c; 0]) ++ utf16_encode be t.
Proof.
  unfold is_ascii_char. intros Hc. unfold utf16_encode. cbn [map concat].
  f_equal. unfold utf16_of_scalar, unit16_bytes.
  destruct (Z.leb_spec c 0xFFFF); [|lia].
  replace (c / 256) with 0 by lia. replace (c mod 256) with c by lia. reflexivity.
Qed.

Lemma utf32_encode_ascii_cons (be : bool) (c : Z) (t : list Z) :
  is_ascii_char c ->
  utf32_encode be (c :: t)
  = (if be then [0; 0; 0; c] else [c; 0; 0; 0]) ++ utf32_encode be t.
Proof.
  unfold is_ascii_char. intros Hc. unfold utf32_encode. cbn [map concat].
  f_equal. unfold unit32_bytes.
  replace (c / 16777216) with 0 by lia. replace (c / 65536) with 0 by lia.
  replace (c / 256) with 0 by lia. replace (c mod 256) with c by lia.
  reflexivity.
Qed.

Lemma utf16_encode_ascii_length (be : bool) (t : list Z) :
  Forall is_ascii_char t -> length (utf16_encode be t) = (2 * length t)%nat.
Proof.
  induction 1 as [|c t Hc _ IH]; [reflexivity|].
  rewrite utf16_encode_ascii_cons by done. destruct be; cbn [app length]; lia.
Qed.

Lemma utf32_encode_ascii_length (be : bool) (t : list Z) :
  Forall is_ascii_char t -> length (utf32_encode be t) = (4 * length t)%nat.
Proof.
  induction 1 as [|c t Hc _ IH]; [reflexivity|].
  rewrite utf32_encode_ascii_cons by done. destruct be; cbn [app length]; lia.
Qed.

(** The zero bytes of ASCII text in UTF-16 sit on one side of each unit. *)
Lemma utf16_encode_ascii_zeros (be : bool) (t : list Z) :
  Forall is_ascii_char t ->
  count_units2 (fun _ x1 => x1 =? 0) (utf16_encode be t)
  = (if be then 0 else length t)%nat
  /\ count_units2 (fun x0 _ => x0 =? 0) (utf16_encode be t)
     = (if be then length t else 0)%nat.
Proof.
  induction 1 as [|c t Hc _ [IH1 IH2]]; [by destruct be|].
  rewrite utf16_encode_ascii_cons by done. unfold is_ascii_char in Hc.
  destruct be; cbn [app count_units2 length]; rewrite IH1, IH2;
    destruct (Z.eqb_spec c 0); try lia; cbn [Z.eqb]; split; lia.
Qed.

(** No 32-bit unit of ASCII text in UTF-16 has three zero bytes on one
    side. *)
Lemma utf16_encode_ascii_units4 (be : bool) (t : list Z) :
  Forall is_ascii_char t ->
  count_units4 (fun _ x1 x2 x3 => (x1 =? 0) && (x2 =? 0) && (x3 =? 0))
               (utf16_encode be t) = 0%nat
  /\ count_units4 (fun x0 x1 x2 _ => (x0 =? 0) && (x1 =? 0) && (x2 =? 0))
                  (utf16_encode be t) = 0%nat.
Proof.
  induction t as [|c|c c' t IH] using list_pair_ind; intros Ht.
  - by destruct be.
  - apply Forall_cons_1 in Ht as [Hc _]. rewrite utf16_encode_ascii_cons by done.
    by destruct be.
  - apply Forall_cons_1 in Ht as [Hc Ht]. apply Forall_cons_1 in Ht as [Hc' Ht].
    rewrite !utf16_encode_ascii_cons by done. destruct (IH Ht) as [IH1 IH2].
    unfold is_ascii_char in *.
    destruct be; cbn [app count_units4]; rewrite IH1, IH2;
      destruct (Z.eqb_spec c 0); try lia; destruct (Z.eqb_spec c' 0); try lia;
      cbn [Z.eqb andb]; done.
Qed.

Lemma utf16_encode_ascii_no_bom (be : bool) (t : list Z) :
  Forall is_ascii_char t -> detect_bom (utf16_encode be t) = None.
Proof.
  intros Ht. apply detect_bom_None.
  destruct Ht as [|c t Hc Ht].
  { repeat split; intros [k Hk]; discriminate Hk. }
  rewrite utf16_encode_ascii_cons by done. unfold is_ascii_char in Hc.
  destruct be; cbn [app]; repeat split; intros [k Hk]; cbn [app] in Hk;
    injection Hk; intros; lia.
Qed.

Lemma utf32_encode_ascii_no_bom (be : bool) (t : list Z) :
  Forall is_ascii_char t -> detect_bom (utf32_encode be t) = None.
Proof.
  intros Ht. apply detect_bom_None.
  destruct Ht as [|c t Hc Ht].
  { repeat split; intros [k Hk]; discriminate Hk. }
  rewrite utf32_encode_ascii_cons by done. unfold is_ascii_char in Hc.
  destruct be; cbn [app]; repeat split; intros [k Hk]; cbn [app] in Hk;
    injection Hk; intros; lia.
Qed.

(** Every 32-bit unit of ASCII text in UTF-32 has its three zero bytes
    on the side of its byte order. *)
Lemma utf32_encode_ascii_units4 (be : bool) (t : list Z) :
  Forall is_ascii_char t ->
  count_units4 (fun _ x1 x2 x3 => (x1 =? 0) && (x2 =? 0) && (x3 =? 0))
               (utf32_encode be t) = (if be then 0 else length t)%nat
  /\ count_units4 (fun x0 x1 x2 _ => (x0 =? 0) && (x1 =? 0) && (x2 =? 0))
                  (utf32_encode be t) = (if be then length t else 0)%nat.
Proof.
  induction 1 as [|c t Hc _ [IH1 IH2]]; [by destruct be|].
  rewrite utf32_encode_ascii_cons by done. unfold is_ascii_char in Hc.
  destruct be; cbn [app count_units4 length]; rewrite IH1, IH2;
    destruct (Z.eqb_spec c 0); try lia; cbn [Z.eqb andb]; split; lia.
Qed.

(** X9.  ASCII text of three characters or more, none of them NUL,
    written in UTF-16 of either byte order without a mark, is detected
    as that UTF-16 and converted back to the text. *)
Theorem ascii_utf16_without_bom (be : bool) (t : list Z) :
  Forall is_ascii_char t -> (3 <= length t)%nat ->
  DetectEncodingFromBuffer (utf16_encode be t) = (if be then "UTF-16BE" else "UTF-16LE")
  /\ ConvertBufferToUtf8 (utf16_encode be t)
     = (t, if be then "UTF-16BE" else "UTF-16LE").
Proof.
  intros Ht Hlen.
  pose proof (utf16_encode_ascii_no_bom be t Ht) as Hbom.
  pose proof (utf16_encode_ascii_length be t Ht) as Hl.
  destruct (utf16_encode_ascii_zeros be t Ht) as [Hzo Hze].
  destruct (utf16_encode_ascii_units4 be t Ht) as [H4l H4b].
  assert (Hdec : decode_utf16 (utf16_encode be t) be = t).
  { rewrite decode_utf16_eq. apply decode_utf16_rec_encode.
    eapply Forall_impl; [exact Ht | apply is_ascii_char_scalar]. }
  assert (Henc : u32_to_utf8 t = t).
  { apply u32_to_utf8_ascii. eapply Forall_impl; [exact Ht|].
    unfold is_ascii_char. cbv beta. lia. }
  remember (utf16_encode be t) as b eqn:Hb.
  assert (H32l : looks_like_utf32_le b = false).
  { unfold looks_like_utf32_le. rewrite H4l. destruct (length b <? 8)%nat; [done|].
    apply Nat.ltb_ge. lia. }
  assert (H32b : looks_like_utf32_be b = false).
  { unfold looks_like_utf32_be. rewrite H4b. destruct (length b <? 8)%nat; [done|].
    apply Nat.ltb_ge. lia. }
  assert (H16l : looks_like_utf16_le b = negb be).
  { unfold looks_like_utf16_le. rewrite Hzo, Hze, Hl.
    destruct (Nat.ltb_spec (2 * length t) 6); [lia|].
    destruct be; cbn [negb].
    - destruct (Nat.ltb_spec (length t * 3) 0); [lia | done].
    - destruct (Nat.ltb_spec (0 * 3) (length t)); [|lia].
      assert (2 * length t / 8 < length t)%nat
        by (apply Nat.Div0.div_lt_upper_bound; lia).
      assert (2 * length t / 8 < length t)%nat
      by (apply Nat.Div0.div_lt_upper_bound; lia).
    destruct (Nat.ltb_spec (2 * length t / 8) (length t)); [done | lia]. }
  assert (H16b : be = true -> looks_like_utf16_be b = true).
  { intros ->. unfold looks_like_utf16_be. rewrite Hzo, Hze, Hl.
    destruct (Nat.ltb_spec (2 * length t) 6); [lia|].
    destruct (Nat.ltb_spec (0 * 3) (length t)); [|lia].
    assert (2 * length t / 8 < length t)%nat
      by (apply Nat.Div0.div_lt_upper_bound; lia).
    destruct (Nat.ltb_spec (2 * length t / 8) (length t)); [done | lia]. }
  assert (Hd : DetectEncodingFromBuffer b = (if be then "UTF-16BE" else "UTF-16LE")).
  { unfold DetectEncodingFromBuffer.
    destruct b as [|x b']; [cbn [length] in Hl; lia|].
    rewrite Hbom, H32l, H32b, H16l.
    destruct be; cbn [negb]; [by rewrite H16b | done]. }
  split; [exact Hd|].
  unfold ConvertBufferToUtf8.
  destruct b as [|x b']; [cbn [length] in Hl; lia|].
  rewrite Hbom, Hd, drop_0.
  destruct be; cbn [String.eqb Ascii.eqb Bool.eqb]; by rewrite Hdec, Henc.
Qed.

Lemma ascii_utf16_without_bom_witness :
  DetectEncodingFromBuffer (utf16_encode true [0x48; 0x69; 0x21]) = "UTF-16BE"
  /\ ConvertBufferToUtf8 (utf16_encode true [0x48; 0x69; 0x21])
     = ([0x48; 0x69; 0x21], "UTF-16BE").
Proof.
  apply (ascii_utf16_without_bom true [0x48; 0x69; 0x21]).
  - repeat constructor; unfold is_ascii_char; lia.
  - cbn [length]. lia.
Defined.

(** X10.  ASCII text of two characters or more, none of them NUL,
    written in UTF-32 of either byte order without a mark, is detected
    as that UTF-32 and converted back to the text. *)
Theorem ascii_utf32_without_bom (be : bool) (t : list Z) :
  Forall is_ascii_char t -> (2 <= length t)%nat ->
  DetectEncodingFromBuffer (utf32_encode be t) = (if be then "UTF-32BE" else "UTF-32LE")
  /\ ConvertBufferToUtf8 (utf32_encode be t)
     = (t, if be then "UTF-32BE" else "UTF-32LE").
Proof.
  intros Ht Hlen.
  pose proof (utf32_encode_ascii_no_bom be t Ht) as Hbom.
  pose proof (utf32_encode_ascii_length be t Ht) as Hl.
  destruct (utf32_encode_ascii_units4 be t Ht) as [H4l H4b].
  assert (Hdec : decode_utf32 (utf32_encode be t) be = t).
  { unfold utf32_encode.
    induction Ht as [|c t Hc Ht' IH]; cbn [map concat]; [reflexivity|].
    rewrite decode_utf32_unit by (by apply is_ascii_char_scalar).
    f_equal. clear -Ht'.
    induction Ht' as [|c' t' Hc' _ IH']; cbn [map concat]; [reflexivity|].
    by rewrite decode_utf32_unit, IH' by (by apply is_ascii_char_scalar). }
  assert (Henc : u32_to_utf8 t = t).
  { apply u32_to_utf8_ascii. eapply Forall_impl; [exact Ht|].
    unfold is_ascii_char. cbv beta. lia. }
  remember (utf32_encode be t) as b eqn:Hb.
  assert (H32l : looks_like_utf32_le b = negb be).
  { unfold looks_like_utf32_le. rewrite H4l, Hl.
    destruct (Nat.ltb_spec (4 * length t) 8); [lia|].
    destruct be; cbn [negb].
    - apply Nat.ltb_ge. lia.
    - apply Nat.ltb_lt, Nat.Div0.div_lt_upper_bound. lia. }
  assert (H32b : be = true -> looks_like_utf32_be b = true).
  { intros ->. unfold looks_like_utf32_be. rewrite H4b, Hl.
    destruct (Nat.ltb_spec (4 * length t) 8); [lia|].
    apply Nat.ltb_lt, Nat.Div0.div_lt_upper_bound. lia. }
  assert (Hd : DetectEncodingFromBuffer b = (if be then "UTF-32BE" else "UTF-32LE")).
  { unfold DetectEncodingFromBuffer.
    destruct b as [|x b']; [cbn [length] in Hl; lia|].
    rewrite Hbom, H32l.
    destruct be; cbn [negb]; [by rewrite H32b | done]. }
  split; [exact Hd|].
  unfold ConvertBufferToUtf8.
  destruct b as [|x b']; [cbn [length] in Hl; lia|].
  rewrite Hbom, Hd, drop_0.
  destruct be; cbn [String.eqb Ascii.eqb Bool.eqb]; by rewrite Hdec, Henc.
Qed.

Lemma ascii_utf32_without_bom_witness :
  DetectEncodingFromBuffer (utf32_encode false [0x4F; 0x4B]) = "UTF-32LE"
  /\ ConvertBufferToUtf8 (utf32_encode false [0x4F; 0x4B]) = ([0x4F; 0x4B], "UTF-32LE").
Proof.
  apply (ascii_utf32_without_bom false [0x4F; 0x4B]).
  - repeat constructor; unfold is_ascii_char; lia.
  - cbn [length]. lia.
Defined.

(** ** Shape of the decoders' output *)

Lemma decode_utf16_rec_length (be : bool) (n : nat) : forall p,
  (length p <= n)%nat ->
  (2 * length (decode_utf16_rec p be) <= length p
   /\ length p <= 4 * length (decode_utf16_rec p be) + 1)%nat.
Proof.
  induction n as [|n IH]; intros p Hlen.
  - destruct p; [cbn; lia | cbn [length] in Hlen; lia].
  - destruct p as [|x0 [|x1 r]]; [cbn; lia | cbn; lia |].
    rewrite decode_utf16_rec_cons. cbv zeta. cbn [length] in Hlen |- *.
    destruct ((unit16 be x0 x1 >=? 0xD800) && (unit16 be x0 x1 <=? 0xDBFF)).
    + destruct r as [|x2 [|x3 r']]; [cbn [length]; lia | cbn [length]; lia |].
      cbn [length] in Hlen |- *.
      destruct (IH r' ltac:(lia)) as [H1 H2].
      destruct ((unit16 be x2 x3 <? 0xDC00) || (unit16 be x2 x3 >? 0xDFFF));
        cbn [length]; lia.
    + destruct (IH r ltac:(lia)) as [H1 H2].
      destruct ((unit16 be x0 x1 >=? 0xDC00) && (unit16 be x0 x1 <=? 0xDFFF));
        cbn [length]; lia.
Qed.

(** X11.  Sizes of the decoders' outputs: the single-byte decoder emits
    one scalar per byte, the UTF-32 decoder one per whole group of four
    bytes, and the UTF-16 decoder at most one per two bytes and at
    least one per four bytes. *)
Theorem decoder_output_lengths (p : list Z) (be : bool) (t : SingleByte) :
  length (decode_single_byte p t) = length p
  /\ (4 * length (decode_utf32 p be) <= length p
      /\ length p < 4 * length (decode_utf32 p be) + 4)%nat
  /\ (2 * length (decode_utf16 p be) <= length p
      /\ length p <= 4 * length (decode_utf16 p be) + 1)%nat.
Proof.
  split; [unfold decode_single_byte; apply length_map|].
  split.
  - induction p as [|x|x y|x y z|x y z w l IH] using list_quad_ind;
      cbn [decode_utf32 length] in *; lia.
  - rewrite decode_utf16_eq. by apply (decode_utf16_rec_length be (length p)).
Qed.

Lemma decode_utf32_app (be : bool) (k : nat) : forall p q,
  length p = (4 * k)%nat ->
  decode_utf32 (p ++ q) be = decode_utf32 p be ++ decode_utf32 q be.
Proof.
  induction k as [|k IH]; intros p q Hp.
  - destruct p; [reflexivity | cbn [length] in Hp; lia].
  - destruct p as [|x0 [|x1 [|x2 [|x3 p]]]]; cbn [length] in Hp; try lia.
    cbn [app decode_utf32]. rewrite IH by lia. reflexivity.
Qed.

(** X12.  The UTF-32 decoder works unit by unit: after a whole number of
    units it decodes what follows on its own, and it drops a trailing
    group of fewer than four bytes. *)
Theorem decode_utf32_units (be : bool) (k : nat) (p q : list Z) :
  length p = (4 * k)%nat ->
  decode_utf32 (p ++ q) be = decode_utf32 p be ++ decode_utf32 q be
  /\ ((length q < 4)%nat -> decode_utf32 (p ++ q) be = decode_utf32 p be).
Proof.
  intros Hp. split; [by apply (decode_utf32_app be k)|].
  intros Hq. rewrite (decode_utf32_app be k) by done.
  destruct q as [|y0 [|y1 [|y2 [|y3 q]]]]; cbn [length] in Hq; try lia;
    cbn [decode_utf32]; by rewrite app_nil_r.
Qed.

Lemma decode_utf32_units_witness :
  decode_utf32 ([0x41; 0x00; 0x00; 0x00] ++ [0x42; 0x00]) false
  = decode_utf32 [0x41; 0x00; 0x00; 0x00] false.
Proof.
  refine (proj2 (decode_utf32_units false 1 [0x41; 0x00; 0x00; 0x00] [0x42; 0x00] eq_refl) _).
  cbn [length]. lia.
Defined.

Lemma decode_utf16_rec_odd_byte (be : bool) (x : Z) (n : nat) : forall k p,
  (k <= n)%nat -> length p = (2 * k)%nat ->
  decode_utf16_rec (p ++ [x]) be = decode_utf16_rec p be.
Proof.
  induction n as [|n IH]; intros k p Hk Hp.
  - destruct p; [reflexivity | cbn [length] in Hp; lia].
  - destruct p as [|x0 [|x1 r]]; [reflexivity | cbn [length] in Hp; lia |].
    cbn [length] in Hp. cbn [app]. rewrite !decode_utf16_rec_cons. cbv zeta.
    destruct ((unit16 be x0 x1 >=? 0xD800) && (unit16 be x0 x1 <=? 0xDBFF)).
    + destruct r as [|x2 [|x3 r']]; [reflexivity | cbn [length] in Hp; lia |].
      cbn [length] in Hp. cbn [app].
      rewrite (IH (k - 2)%nat r') by lia. reflexivity.
    + rewrite (IH (k - 1)%nat r) by lia. reflexivity.
Qed.

(** X13.  The UTF-16 decoder drops a trailing odd byte: one more byte
    after a whole number of 16-bit units changes nothing. *)
Theorem decode_utf16_odd_byte (be : bool) (k : nat) (p : list Z) (x : Z) :
  length p = (2 * k)%nat ->
  decode_utf16 (p ++ [x]) be = decode_utf16 p be.
Proof.
  intros Hp. rewrite !decode_utf16_eq.
  by apply (decode_utf16_rec_odd_byte be x k k).
Qed.

Lemma decode_utf16_odd_byte_witness :
  decode_utf16 ([0x41; 0x00; 0x00; 0xD8] ++ [0x42]) false
  = decode_utf16 [0x41; 0x00; 0x00; 0xD8] false.
Proof. exact (decode_utf16_odd_byte false 2 [0x41; 0x00; 0x00; 0xD8] 0x42 eq_refl). Defined.

(** ** The encoder *)

Lemma append_utf8_out (out : list Z) (cp : Z) :
  append_utf8 out cp = out ++ append_utf8 [] cp.
Proof.
  unfold append_utf8.
  destruct (cp <=? 0x7F); [reflexivity|].
  destruct (cp <=? 0x7FF); [reflexivity|].
  destruct (cp <=? 0xFFFF); reflexivity.
Qed.

Lemma fold_append_utf8_out (u : list Z) : forall out,
  fold_left append_utf8 u out = out ++ fold_left append_utf8 u [].
Proof.
  induction u as [|cp u IH]; intros out; cbn [fold_left].
  - by rewrite app_nil_r.
  - rewrite (IH (append_utf8 out cp)), (IH (append_utf8 [] cp)), app_assoc.
    by rewrite <- append_utf8_out.
Qed.

Lemma u32_to_utf8_app_aux (u v : list Z) :
  u32_to_utf8 (u ++ v) = u32_to_utf8 u ++ u32_to_utf8 v.
Proof.
  unfold u32_to_utf8. rewrite fold_left_app. apply fold_append_utf8_out.
Qed.

(** X14.  Encoding works scalar by scalar: the UTF-8 of a concatenation
    is the concatenation of the UTF-8 of its parts, for any code points. *)
Theorem u32_to_utf8_app (u v : list Z) :
  u32_to_utf8 (u ++ v) = u32_to_utf8 u ++ u32_to_utf8 v.
Proof. apply u32_to_utf8_app_aux. Qed.

Lemma to_char_is_byte x : is_byte (to_char x).
Proof. unfold is_byte, to_char. lia. Qed.

Lemma append_utf8_one (cp : Z) :
  Forall is_byte (append_utf8 [] cp)
  /\ (1 <= length (append_utf8 [] cp) <= 4)%nat.
Proof.
  unfold append_utf8.
  destruct (cp <=? 0x7F); [|destruct (cp <=? 0x7FF); [|destruct (cp <=? 0xFFFF)]];
    cbn [app length]; (split; [repeat constructor; apply to_char_is_byte | lia]).
Qed.

(** X15.  Whatever the code points, the encoder emits bytes only, and
    between one and four of them for each code point. *)
Theorem u32_to_utf8_bytes (u : list Z) :
  Forall is_byte (u32_to_utf8 u)
  /\ (length u <= length (u32_to_utf8 u) <= 4 * length u)%nat.
Proof.
  induction u as [|cp u [IH1 IH2]].
  - split; [constructor | cbn; lia].
  - change (cp :: u) with ([cp] ++ u). rewrite u32_to_utf8_app_aux.
    destruct (append_utf8_one cp) as [H1 H2].
    change (u32_to_utf8 [cp]) with (append_utf8 [] cp).
    split; [by apply Forall_app | rewrite !length_app; cbn [length]; lia].
Qed.

(** The UTF-8 form of a scalar is never empty and determines the scalar,
    whatever follows it. *)
Lemma utf8_of_scalar_inj (cp cp' : Z) (r r' : list Z) :
  valid_scalar cp -> valid_scalar cp' ->
  utf8_of_scalar cp ++ r = utf8_of_scalar cp' ++ r' -> cp = cp' /\ r = r'.
Proof.
  intros [Hcp _] [Hcp' _]. unfold utf8_of_scalar.
  destruct (Z.leb_spec cp 0x7F); [| destruct (Z.leb_spec cp 0x7FF);
                                   [| destruct (Z.leb_spec cp 0xFFFF)]];
    (destruct (Z.leb_spec cp' 0x7F); [| destruct (Z.leb_spec cp' 0x7FF);
                                       [| destruct (Z.leb_spec cp' 0xFFFF)]]);
    cbn [app]; intros Heq; injection Heq; intros;
    first [ exfalso; lia | split; [lia | assumption] ].
Qed.

Lemma concat_utf8_of_scalar_inj (u : list Z) : forall v,
  Forall valid_scalar u -> Forall valid_scalar v ->
  concat (map utf8_of_scalar u) = concat (map utf8_of_scalar v) -> u = v.
Proof.
  induction u as [|cp u IH]; intros [|cp' v] Hu Hv H; cbn [map concat] in H.
  - reflexivity.
  - exfalso. unfold utf8_of_scalar in H.
    destruct (cp' <=? 0x7F); [|destruct (cp' <=? 0x7FF); [|destruct (cp' <=? 0xFFFF)]];
      discriminate H.
  - exfalso. unfold utf8_of_scalar in H.
    destruct (cp <=? 0x7F); [|destruct (cp <=? 0x7FF); [|destruct (cp <=? 0xFFFF)]];
      discriminate H.
  - apply Forall_cons_1 in Hu as [Hcp Hu]. apply Forall_cons_1 in Hv as [Hcp' Hv].
    destruct (utf8_of_scalar_inj _ _ _ _ Hcp Hcp' H) as [-> Hr].
    f_equal. by apply IH.
Qed.

(** X16.  The encoder loses nothing: two sequences of scalars with the
    same UTF-8 bytes are the same sequence. *)
Theorem u32_to_utf8_injective (u v : list Z) :
  Forall valid_scalar u -> Forall valid_scalar v ->
  u32_to_utf8 u = u32_to_utf8 v -> u = v.
Proof.
  intros Hu Hv. unfold u32_to_utf8.
  rewrite !fold_append_utf8 by done. cbn [app].
  by apply concat_utf8_of_scalar_inj.
Qed.

Lemma u32_to_utf8_injective_witness :
  u32_to_utf8 [0x41; 0x0416; 0x1F600] = [0x41; 0xD0; 0x96; 0xF0; 0x9F; 0x98; 0x80]
  /\ [0x41; 0x0416; 0x1F600] = [0x41; 0x0416; 0x1F600].
Proof.
  split; [reflexivity|].
  apply u32_to_utf8_injective;
    [repeat constructor; unfold valid_scalar; lia ..| reflexivity].
Defined.

(** X17.  Bytes below 0x80 pass through a single-byte conversion
    unchanged, under each of the four tables: they decode to themselves
    and are encoded as themselves. *)
Theorem ascii_through_single_byte (p : list Z) (t : SingleByte) :
  Forall (fun c => 0 <= c < 0x80) p ->
  decode_single_byte p t = p /\ u32_to_utf8 (decode_single_byte p t) = p.
Proof.
  intros Hp.
  assert (Hd : decode_single_byte p t = p).
  { unfold decode_single_byte.
    induction Hp as [|c p Hc _ IH]; cbn [map]; [reflexivity|].
    rewrite IH. unfold single_byte_cp.
    destruct (Z.ltb_spec c 0x80); [reflexivity | lia]. }
  split; [exact Hd|]. rewrite Hd. apply u32_to_utf8_ascii.
  eapply Forall_impl; [exact Hp|]. cbv beta. lia.
Qed.

Lemma ascii_through_single_byte_witness :
  decode_single_byte [0x48; 0x69; 0x0A] KOI8R = [0x48; 0x69; 0x0A]
  /\ u32_to_utf8 (decode_single_byte [0x48; 0x69; 0x0A] KOI8R) = [0x48; 0x69; 0x0A].
Proof.
  apply ascii_through_single_byte. repeat constructor; lia.
Defined.

(** ** The validator *)

Lemma is_valid_utf8_rec_app (n : nat) : forall a b,
  (length a <= n)%nat ->
  is_valid_utf8_rec a = true ->
  is_valid_utf8_rec (a ++ b) = is_valid_utf8_rec b.
Proof.
  induction n as [|n IH]; intros a b Hlen Ha.
  - destruct a; [reflexivity | cbn [length] in Hlen; lia].
  - destruct a as [|c a1]; [reflexivity|].
    cbn [length] in Hlen. change ((c :: a1) ++ b) with (c :: (a1 ++ b)).
    rewrite is_valid_utf8_rec_cons in Ha |- *.
    destruct (c <=? 0x7F); [apply IH; [lia | done]|].
    destruct (Z.land c 0xE0 =? 0xC0).
    { destruct (c <? 0xC2); [done|].
      destruct a1 as [|c1 a2]; [done|]. cbn [app length] in *.
      destruct (not_cont c1); [done|]. apply IH; [lia | done]. }
    destruct (Z.land c 0xF0 =? 0xE0).
    { destruct a1 as [|c1 [|c2 a3]]; [done | done |]. cbn [app length] in *.
      destruct (not_cont c1); [done|]. destruct (not_cont c2); [done|].
      destruct ((c =? 0xE0) && (c1 <? 0xA0)); [done|].
      destruct ((c =? 0xED) && (c1 >=? 0xA0)); [done|].
      apply IH; [lia | done]. }
    destruct (Z.land c 0xF8 =? 0xF0); [|done].
    destruct (c >? 0xF4); [done|].
    destruct a1 as [|c1 [|c2 [|c3 a4]]]; [done | done | done |].
    cbn [app length] in *.
    destruct (not_cont c1); [done|]. destruct (not_cont c2); [done|].
    destruct (not_cont c3); [done|].
    destruct ((c =? 0xF0) && (c1 <? 0x90)); [done|].
    destruct ((c =? 0xF4) && (c1 >=? 0x90)); [done|].
    apply IH; [lia | done].
Qed.

(** X18.  After a valid span the validator judges what follows on its
    own: a valid span followed by a second span is valid exactly when
    the second span is. *)
Theorem is_valid_utf8_app (a b : list Z) :
  is_valid_utf8 a = true -> is_valid_utf8 (a ++ b) = is_valid_utf8 b.
Proof.
  rewrite !is_valid_utf8_eq. by apply (is_valid_utf8_rec_app (length a)).
Qed.

Lemma is_valid_utf8_app_witness :
  is_valid_utf8 ([0xD0; 0x9F] ++ [0xE2; 0x84]) = is_valid_utf8 [0xE2; 0x84].
Proof. apply is_valid_utf8_app. reflexivity. Defined.

Lemma well_formed_bytes (s : list Z) :
  Forall is_byte s -> well_formed_utf8 s ->
  Forall (fun c => c <> 0xC0 /\ c <> 0xC1 /\ c <= 0xF4) s.
Proof.
  intros Hb Hwf. induction Hwf; byte_ranges; bool_hyps;
    repeat (constructor; [lia|]); auto.
Qed.

(** X19.  A span of bytes that the validator accepts holds none of the
    bytes 0xC0, 0xC1 and 0xF5 to 0xFF. *)
Theorem valid_utf8_excluded_bytes (s : list Z) :
  Forall is_byte s -> is_valid_utf8 s = true ->
  Forall (fun c => c <> 0xC0 /\ c <> 0xC1 /\ c <= 0xF4) s.
Proof.
  intros Hb Hv. apply well_formed_bytes; [done|].
  rewrite is_valid_utf8_eq in Hv.
  by apply (is_valid_well_formed_aux (length s)).
Qed.

Lemma valid_utf8_excluded_bytes_witness :
  Forall (fun c => c <> 0xC0 /\ c <> 0xC1 /\ c <= 0xF4) [0x48; 0xD0; 0xBC; 0xF0; 0x9F; 0x98; 0x80].
Proof.
  apply valid_utf8_excluded_bytes; [repeat constructor; unfold is_byte; lia | reflexivity].
Defined.

(** ** The scorer and the choice among the candidates *)

(** No scalar takes more than 3 from the score's numerator. *)
Lemma num2_score_step_lower k cp : num2 k - 6 <= num2 (score_step k cp).
Proof.
  unfold score_step, num2. destruct k as [c g b].
  repeat match goal with
         | |- context [if ?b then _ else _] => destruct b
         end; cbn [cyr good bad]; lia.
Qed.

Lemma num2_fold_lower u : forall k,
  num2 k - 6 * Z.of_nat (length u) <= num2 (fold_left score_step u k).
Proof.
  induction u as [|cp u IH]; intros k; cbn [fold_left length].
  - lia.
  - specialize (IH (score_step k cp)). pose proof (num2_score_step_lower k cp). lia.
Qed.

Lemma score_u32_text_range (u : list Z) :
  (-3 <= score_u32_text u)%Q /\ (score_u32_text u <= 5 # 2)%Q.
Proof.
  destruct u as [|cp u]; [split; discriminate|].
  rewrite (score_u32_text_counters (cp :: u)) by done. cbv zeta.
  set (k := fold_left score_step (cp :: u) (mkCounters 0 0 0)).
  pose proof (num2_fold (cp :: u) (mkCounters 0 0 0)) as Hup.
  pose proof (num2_fold_lower (cp :: u) (mkCounters 0 0 0)) as Hlo.
  fold k in Hup, Hlo. change (num2 (mkCounters 0 0 0)) with 0 in Hup, Hlo.
  set (n := Z.of_nat (length (cp :: u))) in *.
  assert (Hn : 0 < n) by (subst n; cbn [length]; lia).
  assert (Hpos : (0 < inject_Z (2 * n))%Q).
  { change 0%Q with (inject_Z 0). rewrite <- Zlt_Qlt. lia. }
  split.
  - apply Qle_shift_div_l; [exact Hpos|].
    change (-3)%Q with (inject_Z (-3)).
    rewrite <- inject_Z_mult, <- Zle_Qle. lia.
  - assert (E : (5 # 2 == inject_Z 5 / inject_Z 2)%Q) by reflexivity.
    rewrite E. apply Qdiv_le_cross; [exact Hpos | reflexivity |].
    rewrite <- !inject_Z_mult, <- Zle_Qle. lia.
Qed.

(** X20.  The score of every sequence of code points lies between -3
    and 2.5. *)
Theorem score_u32_text_bounds (u : list Z) :
  (-3 <= score_u32_text u)%Q /\ (score_u32_text u <= 5 # 2)%Q.
Proof. apply score_u32_text_range. Qed.

Lemma score_gt_spec (s best : Q) :
  if score_gt s best then (best < s)%Q else (s <= best)%Q.
Proof.
  unfold score_gt. destruct (Qle_bool s best) eqn:E; cbn [negb].
  - by apply Qle_bool_iff.
  - apply Qnot_le_lt. intros H. apply Qle_bool_iff in H. congruence.
Qed.

(** The decoding under an encoding names the scalars of its table. *)
Lemma decode_single_byte_table (p : list Z) (t : SingleByte) :
  decode_single_byte p t = map (table_scalar (table_of t)) p.
Proof.
  unfold decode_single_byte. apply map_ext. intros b. apply single_byte_cp_table.
Qed.

(** X21.  When detection falls through to the single-byte candidates it
    answers with a candidate of the highest score, and among several of
    the highest score with the first in the order WINDOWS-1251 (scored
    on the scalars of [CP1251_TABLE]), KOI8-R ([KOI8R_TABLE]),
    ISO-8859-5 ([ISO8859_5_TABLE]), MACCYRILLIC ([MACCYR_TABLE]): every
    candidate before the answer scores strictly less and every
    candidate after it scores no more. *)
Theorem detect_picks_first_best_candidate (bytes : list Z) :
  bytes <> [] -> detect_bom bytes = None ->
  looks_like_utf32_le bytes = false -> looks_like_utf32_be bytes = false ->
  looks_like_utf16_le bytes = false -> looks_like_utf16_be bytes = false ->
  is_valid_utf8 bytes = false ->
  exists pre T post,
    [ ("WINDOWS-1251", CP1251_TABLE); ("KOI8-R", KOI8R_TABLE);
      ("ISO-8859-5", ISO8859_5_TABLE); ("MACCYRILLIC", MACCYR_TABLE) ]
    = pre ++ (DetectEncodingFromBuffer bytes, T) :: post
    /\ Forall (fun c => (score_u32_text (map (table_scalar (snd c)) bytes)
                         < score_u32_text (map (table_scalar T) bytes))%Q) pre
    /\ Forall (fun c => (score_u32_text (map (table_scalar (snd c)) bytes)
                         <= score_u32_text (map (table_scalar T) bytes))%Q) post.
Proof.
  intros Hne Hbom H1 H2 H3 H4 Hv.
  unfold DetectEncodingFromBuffer. destruct bytes as [|x b]; [done|].
  rewrite Hbom, H1, H2, H3, H4, Hv.
  set (buf := x :: b).
  cbn [fold_left cands]. unfold cand_step. cbn [fst snd].
  rewrite !decode_single_byte_table. cbn [table_of].
  pose proof (proj1 (score_u32_text_range (map (table_scalar CP1251_TABLE) buf))) as Hlow.
  set (s1 := score_u32_text (map (table_scalar CP1251_TABLE) buf)) in *.
  set (s2 := score_u32_text (map (table_scalar KOI8R_TABLE) buf)) in *.
  set (s3 := score_u32_text (map (table_scalar ISO8859_5_TABLE) buf)) in *.
  set (s4 := score_u32_text (map (table_scalar MACCYR_TABLE) buf)) in *.
  pose proof (score_gt_spec s1 (-1000000000)%Q) as G1.
  destruct (score_gt s1 (-1000000000)%Q); [|lra].
  cbn [fst snd].
  pose proof (score_gt_spec s2 s1) as G2. destruct (score_gt s2 s1); cbn [fst snd].
  - pose proof (score_gt_spec s3 s2) as G3. destruct (score_gt s3 s2); cbn [fst snd].
    + pose proof (score_gt_spec s4 s3) as G4. destruct (score_gt s4 s3); cbn [fst snd].
      * exists [("WINDOWS-1251", CP1251_TABLE); ("KOI8-R", KOI8R_TABLE);
                ("ISO-8859-5", ISO8859_5_TABLE)], MACCYR_TABLE, [].
        split; [reflexivity|]. split; repeat constructor; cbn [snd]; fold s1 s2 s3 s4; lra.
      * exists [("WINDOWS-1251", CP1251_TABLE); ("KOI8-R", KOI8R_TABLE)], ISO8859_5_TABLE,
          [("MACCYRILLIC", MACCYR_TABLE)].
        split; [reflexivity|]. split; repeat constructor; cbn [snd]; fold s1 s2 s3 s4; lra.
    + pose proof (score_gt_spec s4 s2) as G4. destruct (score_gt s4 s2); cbn [fst snd].
      * exists [("WINDOWS-1251", CP1251_TABLE); ("KOI8-R", KOI8R_TABLE);
                ("ISO-8859-5", ISO8859_5_TABLE)], MACCYR_TABLE, [].
        split; [reflexivity|]. split; repeat constructor; cbn [snd]; fold s1 s2 s3 s4; lra.
      * exists [("WINDOWS-1251", CP1251_TABLE)], KOI8R_TABLE,
          [("ISO-8859-5", ISO8859_5_TABLE); ("MACCYRILLIC", MACCYR_TABLE)].
        split; [reflexivity|]. split; repeat constructor; cbn [snd]; fold s1 s2 s3 s4; lra.
  - pose proof (score_gt_spec s3 s1) as G3. destruct (score_gt s3 s1); cbn [fst snd].
    + pose proof (score_gt_spec s4 s3) as G4. destruct (score_gt s4 s3); cbn [fst snd].
      * exists [("WINDOWS-1251", CP1251_TABLE); ("KOI8-R", KOI8R_TABLE);
                ("ISO-8859-5", ISO8859_5_TABLE)], MACCYR_TABLE, [].
        split; [reflexivity|]. split; repeat constructor; cbn [snd]; fold s1 s2 s3 s4; lra.
      * exists [("WINDOWS-1251", CP1251_TABLE); ("KOI8-R", KOI8R_TABLE)], ISO8859_5_TABLE,
          [("MACCYRILLIC", MACCYR_TABLE)].
        split; [reflexivity|]. split; repeat constructor; cbn [snd]; fold s1 s2 s3 s4; lra.
    + pose proof (score_gt_spec s4 s1) as G4. destruct (score_gt s4 s1); cbn [fst snd].
      * exists [("WINDOWS-1251", CP1251_TABLE); ("KOI8-R", KOI8R_TABLE);
                ("ISO-8859-5", ISO8859_5_TABLE)], MACCYR_TABLE, [].
        split; [reflexivity|]. split; repeat constructor; cbn [snd]; fold s1 s2 s3 s4; lra.
      * exists [], CP1251_TABLE,
          [("KOI8-R", KOI8R_TABLE); ("ISO-8859-5", ISO8859_5_TABLE);
           ("MACCYRILLIC", MACCYR_TABLE)].
        split; [reflexivity|]. split; repeat constructor; cbn [snd]; fold s1 s2 s3 s4; lra.
Qed.

Lemma detect_picks_first_best_candidate_witness :
  exists pre T post,
    [ ("WINDOWS-1251", CP1251_TABLE); ("KOI8-R", KOI8R_TABLE);
      ("ISO-8859-5", ISO8859_5_TABLE); ("MACCYRILLIC", MACCYR_TABLE) ]
    = pre ++ (DetectEncodingFromBuffer [0xCF; 0xF0; 0xE8; 0xE2; 0xE5; 0xF2], T) :: post
    /\ Forall (fun c => (score_u32_text
                           (map (table_scalar (snd c)) [0xCF; 0xF0; 0xE8; 0xE2; 0xE5; 0xF2]%Z)
                         < score_u32_text
                             (map (table_scalar T) [0xCF; 0xF0; 0xE8; 0xE2; 0xE5; 0xF2]%Z))%Q) pre
    /\ Forall (fun c => (score_u32_text
                           (map (table_scalar (snd c)) [0xCF; 0xF0; 0xE8; 0xE2; 0xE5; 0xF2]%Z)
                         <= score_u32_text
                              (map (table_scalar T) [0xCF; 0xF0; 0xE8; 0xE2; 0xE5; 0xF2]%Z))%Q) post.
Proof.
  apply detect_picks_first_best_candidate; [discriminate | reflexivity ..].
Defined.

(** ** Undefined bytes of the code pages *)

Lemma single_byte_cp_replacement (t : SingleByte) (b : Z) :
  is_byte b -> single_byte_cp t b = 0xFFFD -> t = CP1251 /\ b = 0x98.
Proof.
  intros Hb H.
  assert (Hall : (negb (single_byte_cp t b =? 0xFFFD)
                  || (match t with CP1251 => true | _ => false end && (b =? 0x98)))
                 = true).
  { apply (Z_range_forall
             (fun b => negb (single_byte_cp t b =? 0xFFFD)
                       || (match t with CP1251 => true | _ => false end && (b =? 0x98)))
             256); [destruct t; vm_compute; reflexivity | exact Hb]. }
  rewrite H, Z.eqb_refl in Hall. cbn [negb orb] in Hall.
  apply andb_prop in Hall as [Ht Hb']. apply Z.eqb_eq in Hb'.
  by destruct t.
Qed.

(** X22.  A single-byte decoding holds a replacement scalar only under
    the WINDOWS-1251 table and only for the byte 0x98: the other three
    tables define all their bytes. *)
Theorem decode_single_byte_replacement (p : list Z) (t : SingleByte) :
  Forall is_byte p -> In 0xFFFD (decode_single_byte p t) ->
  t = CP1251 /\ In 0x98 p.
Proof.
  intros Hp Hin. unfold decode_single_byte in Hin.
  apply in_map_iff in Hin as (b & Hb & Hbin).
  rewrite Forall_forall in Hp.
  destruct (single_byte_cp_replacement t b) as [-> ->];
    [apply Hp; by apply list_elem_of_In | exact Hb | done].
Qed.

Lemma decode_single_byte_replacement_witness :
  CP1251 = CP1251 /\ In 0x98 [0x41; 0x98].
Proof.
  apply (decode_single_byte_replacement [0x41; 0x98] CP1251).
  - repeat constructor; unfold is_byte; lia.
  - vm_compute. tauto.
Defined.

(** ** The file operations *)

(** Runs the file operations on a world, step by step. *)
Ltac run_files :=
  repeat (cbv beta iota zeta delta
            [mbind M_bind bind ret throw DetectEncoding ConvertFileToUtf8
             ConvertFileToUtf8To ConvertFileToUtf8Inplace read_file_bytes
             get_files set_files log next_outcome open_trunc write_flush
             fs_rename fs_remove files oracle trace fst snd negb];
          rewrite ?lookup_insert_eq, ?lookup_delete_eq,
            ?lookup_insert_ne, ?lookup_delete_ne by done).

(** X24.  [ConvertFileToUtf8To] on an existing input: when the output
    file cannot be opened it throws and changes no file; when it opens,
    the operation returns the detected name whether or not the write
    succeeds, the output file holds the converted bytes after a good
    write, and no other file is changed.  It makes no rename and no
    removal. *)
Theorem convert_to_outcomes
    (input output : string) (f : gmap string (list Z)) (data : list Z)
    (open_ok write_ok : bool) (os : list bool) (tr : list (fs_call * bool)) :
  f !! input = Some data ->
  let w := mkWorld f (open_ok :: write_ok :: os) tr in
  let r := fst (ConvertFileToUtf8To input output w) in
  let w' := snd (ConvertFileToUtf8To input output w) in
  trace w' = tr
  /\ (forall q, q <> output -> files w' !! q = f !! q)
  /\ if open_ok then
       r = Ok (snd (ConvertBufferToUtf8 data))
       /\ (write_ok = true ->
           files w' !! output = Some (fst (ConvertBufferToUtf8 data)))
     else
       r = Throw (CannotOpenOutputFile output) /\ files w' = f.
Proof.
  intros Hin w r w'. subst r w' w.
  destruct (ConvertBufferToUtf8 data) as [utf8 detected] eqn:Hconv.
  destruct open_ok, write_ok; run_files; rewrite Hin; run_files; rewrite ?Hconv;
    run_files; repeat split; try done; intros q Hq; run_files; done.
Qed.

Lemma convert_to_outcomes_witness :
  fst (ConvertFileToUtf8To "in" "out" (mkWorld {[ "in" := [0xCF; 0xF0] ]} [true; true] []))
  = Ok (snd (ConvertBufferToUtf8 [0xCF; 0xF0]))
  /\ files (snd (ConvertFileToUtf8To "in" "out"
                   (mkWorld {[ "in" := [0xCF; 0xF0] ]} [true; true] []))) !! "out"
     = Some (fst (ConvertBufferToUtf8 [0xCF; 0xF0])).
Proof.
  assert (Hin : ({[ "in" := [0xCF; 0xF0] ]} : gmap string (list Z)) !! "in"
                = Some [0xCF; 0xF0]) by reflexivity.
  destruct (proj2 (proj2 (convert_to_outcomes "in" "out" {[ "in" := [0xCF; 0xF0] ]}
                            [0xCF; 0xF0] true true [] [] Hin))) as [H1 H2].
  split; [exact H1 | exact (H2 eq_refl)].
Defined.

Ltac run_files_with H :=
  repeat (cbv beta iota zeta delta
            [mbind M_bind bind ret throw DetectEncoding ConvertFileToUtf8
             ConvertFileToUtf8To ConvertFileToUtf8Inplace read_file_bytes
             get_files set_files log next_outcome open_trunc write_flush
             fs_rename fs_remove files oracle trace fst snd negb];
          rewrite ?H, ?lookup_insert_eq, ?lookup_delete_eq,
            ?lookup_insert_ne, ?lookup_delete_ne by done).

(** X25.  [ConvertFileToUtf8Inplace] touches two paths only, the file
    and its temporary file: whatever the outcomes of its calls, every
    other file is as it was. *)
Theorem inplace_leaves_other_files (path q : string) (w : world) :
  q <> path -> q <> tmp_of path ->
  files (snd (ConvertFileToUtf8Inplace path w)) !! q = files w !! q.
Proof.
  intros Hq Hq'.
  pose proof (tmp_of_ne path) as Hne.
  assert (Hne' : path <> tmp_of path) by done.
  assert (Hq2 : path <> q) by done. assert (Hq2' : tmp_of path <> q) by done.
  destruct w as [f o tr].
  destruct (f !! path) as [data|] eqn:Hpath; [|by run_files_with Hpath].
  destruct (ConvertBufferToUtf8 data) as [utf8 detected] eqn:Hconv.
  destruct o as [|[] [|[] [|[] [|[] [|[] [|[] os]]]]]];
    run_files_with Hpath; rewrite ?Hconv; run_files_with Hpath; done.
Qed.

Lemma inplace_leaves_other_files_witness :
  files (snd (ConvertFileToUtf8Inplace "f"
                (mkWorld {[ "f" := [0xCF]; "g" := [0x41] ]} [true; true; false; true; false] [])))
  !! "g"
  = files (mkWorld {[ "f" := [0xCF]; "g" := [0x41] ]} [true; true; false; true; false] [])
    !! "g".
Proof.
  apply inplace_leaves_other_files; [discriminate | vm_compute; discriminate].
Defined.

(** X26.  [ConvertFileToUtf8Inplace] before its first rename: it throws
    and changes nothing when the file cannot be read; it throws and
    changes no file when the temporary file cannot be opened; and when
    the write to the temporary file fails it throws with the original
    untouched, no rename or removal attempted, and the temporary file
    left behind. *)
Theorem inplace_early_failures
    (path : string) (f : gmap string (list Z)) (os : list bool)
    (tr : list (fs_call * bool)) :
  (f !! path = None ->
   ConvertFileToUtf8Inplace path (mkWorld f os tr)
   = (Throw (CannotOpenFile path), mkWorld f os tr))
  /\ (forall data, f !! path = Some data ->
      ConvertFileToUtf8Inplace path (mkWorld f (false :: os) tr)
      = (Throw (CannotOpenTempFile (tmp_of path)), mkWorld f os tr)
      /\ fst (ConvertFileToUtf8Inplace path (mkWorld f (true :: false :: os) tr))
         = Throw (WriteFailedForTempFile (tmp_of path))
      /\ trace (snd (ConvertFileToUtf8Inplace path (mkWorld f (true :: false :: os) tr)))
         = tr
      /\ files (snd (ConvertFileToUtf8Inplace path (mkWorld f (true :: false :: os) tr)))
         !! path = Some data
      /\ is_Some (files (snd (ConvertFileToUtf8Inplace path
                                 (mkWorld f (true :: false :: os) tr)))
                   !! tmp_of path)).
Proof.
  pose proof (tmp_of_ne path) as Hne.
  split.
  - intros Hpath. by run_files_with Hpath.
  - intros data Hpath. repeat split; run_files_with Hpath; done.
Qed.

Lemma inplace_early_failures_witness :
  ConvertFileToUtf8Inplace "missing" (mkWorld {[ "f" := [0xCF] ]} [] [])
  = (Throw (CannotOpenFile "missing"), mkWorld {[ "f" := [0xCF] ]} [] [])
  /\ ConvertFileToUtf8Inplace "f" (mkWorld {[ "f" := [0xCF] ]} [false] [])
     = (Throw (CannotOpenTempFile (tmp_of "f")), mkWorld {[ "f" := [0xCF] ]} [] []).
Proof.
  split.
  - exact (proj1 (inplace_early_failures "missing" {[ "f" := [0xCF] ]} [] []) eq_refl).
  - exact (proj1 (proj2 (inplace_early_failures "f" {[ "f" := [0xCF] ]} [] [])
                    [0xCF] eq_refl)).
Defined.

(** ** Conversions end to end *)

(** The output of a conversion is valid UTF-8. *)
Lemma convert_output_valid (bytes : list Z) :
  Forall is_byte bytes -> is_valid_utf8 (fst (ConvertBufferToUtf8 bytes)) = true.
Proof.
  intros Hb. unfold ConvertBufferToUtf8.
  destruct bytes as [|b0 bytes]; [reflexivity|].
  set (buf := b0 :: bytes) in *.
  set (encname := match detect_bom buf with
                  | Some b => name b
                  | None => DetectEncodingFromBuffer buf
                  end).
  set (off := match detect_bom buf with Some b => size b | None => 0%nat end).
  assert (Hp : Forall is_byte (drop off buf)) by by apply Forall_drop.
  set (p := drop off buf) in *. clearbody p encname.
  repeat match goal with
         | |- context [String.eqb encname ?s] => destruct (String.eqb encname s)
         end;
    cbn [fst];
    try (apply is_valid_utf8_u32_to_utf8;
         first [ apply decode_utf16_scalars | apply decode_utf32_scalars
               | by apply decode_single_byte_scalars ]).
  destruct (is_valid_utf8 p) eqn:Hv; cbn [negb fst]; [done|].
  apply is_valid_utf8_u32_to_utf8. by apply decode_single_byte_scalars.
Qed.

(** X27.  Converting twice is converting once: when the output of a
    conversion is not empty, holds no zero byte and does not begin with
    EF BB BF, converting that output returns it unchanged under the
    name UTF-8. *)
Theorem convert_idempotent (bytes : list Z) :
  Forall is_byte bytes ->
  fst (ConvertBufferToUtf8 bytes) <> [] ->
  Forall (fun x => x <> 0) (fst (ConvertBufferToUtf8 bytes)) ->
  ~ ([0xEF; 0xBB; 0xBF] `prefix_of` fst (ConvertBufferToUtf8 bytes)) ->
  ConvertBufferToUtf8 (fst (ConvertBufferToUtf8 bytes))
  = (fst (ConvertBufferToUtf8 bytes), "UTF-8").
Proof.
  intros Hb Hne Hnz Hbom.
  apply valid_utf8_no_nul_identity; try done. by apply convert_output_valid.
Qed.

Lemma convert_idempotent_witness :
  ConvertBufferToUtf8 (fst (ConvertBufferToUtf8 [0xCF; 0xF0; 0xE8; 0xE2; 0xE5; 0xF2]))
  = (fst (ConvertBufferToUtf8 [0xCF; 0xF0; 0xE8; 0xE2; 0xE5; 0xF2]), "UTF-8").
Proof.
  apply convert_idempotent.
  - repeat constructor; unfold is_byte; lia.
  - vm_compute. discriminate.
  - vm_compute. repeat constructor; discriminate.
  - vm_compute. intros [k Hk]. discriminate Hk.
Defined.

Lemma is_valid_utf8_rec_ascii (p : list Z) :
  Forall (fun c => c <= 0x7F) p -> is_valid_utf8_rec p = true.
Proof.
  induction 1 as [|c p Hc _ IH]; [reflexivity|].
  rewrite is_valid_utf8_rec_cons. destruct (Z.leb_spec c 0x7F); [exact IH | lia].
Qed.

(** X28.  A non-empty buffer of ASCII bytes other than NUL is detected
    as UTF-8 and converted to itself. *)
Theorem ascii_is_identity (p : list Z) :
  p <> [] -> Forall is_ascii_char p ->
  DetectEncodingFromBuffer p = "UTF-8" /\ ConvertBufferToUtf8 p = (p, "UTF-8").
Proof.
  intros Hne Hp. apply valid_utf8_no_nul_identity; [done | | |].
  - eapply Forall_impl; [exact Hp|]. unfold is_ascii_char. cbv beta. lia.
  - rewrite is_valid_utf8_eq. apply is_valid_utf8_rec_ascii.
    eapply Forall_impl; [exact Hp|]. unfold is_ascii_char. cbv beta. lia.
  - intros [k Hk]. destruct Hp as [|c p Hc Hp]; [done|].
    unfold is_ascii_char in Hc. cbn [app] in Hk. injection Hk. lia.
Qed.

Lemma ascii_is_identity_witness :
  DetectEncodingFromBuffer [0x48; 0x69; 0x21; 0x0A] = "UTF-8"
  /\ ConvertBufferToUtf8 [0x48; 0x69; 0x21; 0x0A] = ([0x48; 0x69; 0x21; 0x0A], "UTF-8").
Proof.
  apply ascii_is_identity; [discriminate|].
  repeat constructor; unfold is_ascii_char; lia.
Defined.

(** ** Russian text in WINDOWS-1251 *)

Lemma single_byte_cp_cp1251_letter (b : Z) :
  is_cp1251_letter b -> single_byte_cp CP1251 b = cp1251_letter b.
Proof.
  unfold is_cp1251_letter. intros Hb.
  assert (H : ((b <? 0xC0) || (single_byte_cp CP1251 b =? cp1251_letter b)) = true).
  { apply (Z_range_forall
             (fun b => (b <? 0xC0) || (single_byte_cp CP1251 b =? cp1251_letter b)) 256);
      [vm_compute; reflexivity | lia]. }
  destruct (Z.ltb_spec b 0xC0); [lia|]. cbn [orb] in H. by apply Z.eqb_eq.
Qed.

Lemma decode_cp1251_letters (p : list Z) :
  Forall is_cp1251_letter p -> decode_single_byte p CP1251 = map cp1251_letter p.
Proof.
  unfold decode_single_byte.
  induction 1 as [|b p Hb _ IH]; cbn [map]; [reflexivity|].
  by rewrite IH, single_byte_cp_cp1251_letter.
Qed.

(** A text of Cyrillic scalars has the highest score there is. *)
Lemma score_cyrillic (u : list Z) :
  u <> [] -> Forall is_cyrillic u -> (5 # 2 <= score_u32_text u)%Q.
Proof.
  intros Hne Hu. rewrite (score_u32_text_counters u Hne). cbv zeta.
  rewrite (num2_fold_cyrillic _ _ Hu). change (num2 (mkCounters 0 0 0)) with 0.
  assert (Hn : 0 < Z.of_nat (length u)) by (destruct u; [done | cbn [length]; lia]).
  assert (E : (5 # 2 == inject_Z 5 / inject_Z 2)%Q) by reflexivity.
  rewrite E. apply Qdiv_le_cross.
  - reflexivity.
  - change 0%Q with (inject_Z 0). rewrite <- Zlt_Qlt. lia.
  - rewrite <- !inject_Z_mult, <- Zle_Qle. lia.
Qed.

(** Bytes from 0xC0 on never form valid UTF-8. *)
Lemma cp1251_letters_not_utf8 (p : list Z) :
  p <> [] -> Forall is_cp1251_letter p -> is_valid_utf8 p = false.
Proof.
  intros Hne Hp. rewrite is_valid_utf8_eq.
  destruct Hp as [|c p Hc Hp]; [done|].
  unfold is_cp1251_letter in Hc.
  assert (Hbc : is_byte c) by (unfold is_byte; lia).
  rewrite is_valid_utf8_rec_cons.
  rewrite (lead2_range c Hbc), (lead3_range c Hbc), (lead4_range c Hbc).
  destruct Hp as [|c1 p Hc1 Hp].
  - zifs; reflexivity.
  - unfold is_cp1251_letter in Hc1.
    assert (Hbc1 : is_byte c1) by (unfold is_byte; lia).
    assert (Hn : not_cont c1 = true).
    { rewrite (not_cont_range c1 Hbc1).
      destruct (Z.leb_spec 0x80 c1); [|lia]. destruct (Z.leb_spec c1 0xBF); [lia|].
      reflexivity. }
    rewrite Hn.
    destruct (Z.leb_spec c 0x7F); [lia|].
    destruct ((0xC0 <=? c) && (c <=? 0xDF)); [by destruct (c <? 0xC2)|].
    destruct ((0xE0 <=? c) && (c <=? 0xEF)); [by destruct p|].
    destruct ((0xF0 <=? c) && (c <=? 0xF7)); [|done].
    destruct (c >? 0xF4); [done|]. by destruct p as [|? [|? ?]].
Qed.

(** X29.  A non-empty text of bytes of the Russian alphabet in
    WINDOWS-1251 (0xC0 to 0xFF) that does not begin with FF FE or FE FF
    is detected as WINDOWS-1251 and converted to the UTF-8 of its
    letters, the byte [b] giving the letter U+0410 + (b - 0xC0). *)
Theorem cp1251_letters_detected (p : list Z) :
  p <> [] -> Forall is_cp1251_letter p ->
  ~ ([0xFF; 0xFE] `prefix_of` p) -> ~ ([0xFE; 0xFF] `prefix_of` p) ->
  DetectEncodingFromBuffer p = "WINDOWS-1251"
  /\ ConvertBufferToUtf8 p = (u32_to_utf8 (map cp1251_letter p), "WINDOWS-1251").
Proof.
  intros Hne Hp Hle Hbe.
  assert (Hnz : Forall (fun x => x <> 0) p).
  { eapply Forall_impl; [exact Hp|]. unfold is_cp1251_letter. cbv beta. lia. }
  destruct (no_zero_no_wide _ Hnz) as (H1 & H2 & H3 & H4).
  pose proof (cp1251_letters_not_utf8 p Hne Hp) as Hv.
  assert (Hbom : detect_bom p = None).
  { apply detect_bom_None. repeat split; try done.
    - intros [k ->]. apply Forall_cons_1 in Hp as [_ Hp].
      apply Forall_cons_1 in Hp as [Hb _]. unfold is_cp1251_letter in Hb. lia.
    - intros [k ->]. apply Hle. by exists (0 :: 0 :: k).
    - intros [k ->]. apply Forall_cons_1 in Hp as [Hb _].
      unfold is_cp1251_letter in Hb. lia. }
  assert (Hs1 : (5 # 2 <= score_u32_text (decode_single_byte p CP1251))%Q).
  { rewrite (decode_cp1251_letters p Hp). apply score_cyrillic.
    - by destruct p.
    - apply Forall_map. eapply Forall_impl; [exact Hp|].
      unfold is_cp1251_letter, is_cyrillic, cp1251_letter. cbv beta. lia. }
  assert (Hd : DetectEncodingFromBuffer p = "WINDOWS-1251").
  { unfold DetectEncodingFromBuffer. destruct p as [|x b]; [done|].
    rewrite Hbom, H1, H2, H3, H4, Hv.
    set (buf := x :: b) in *.
    cbn [fold_left cands]. unfold cand_step. cbn [fst snd].
    pose proof (proj2 (score_u32_text_range (decode_single_byte buf KOI8R))) as U2.
    pose proof (proj2 (score_u32_text_range (decode_single_byte buf ISO8859_5))) as U3.
    pose proof (proj2 (score_u32_text_range (decode_single_byte buf MACCYR))) as U4.
    set (s1 := score_u32_text (decode_single_byte buf CP1251)) in *.
    set (s2 := score_u32_text (decode_single_byte buf KOI8R)) in *.
    set (s3 := score_u32_text (decode_single_byte buf ISO8859_5)) in *.
    set (s4 := score_u32_text (decode_single_byte buf MACCYR)) in *.
    pose proof (score_gt_spec s1 (-1000000000)%Q) as G1.
    destruct (score_gt s1 (-1000000000)%Q); [|lra]. cbn [fst snd].
    pose proof (score_gt_spec s2 s1) as G2. destruct (score_gt s2 s1); [lra|].
    cbn [fst snd].
    pose proof (score_gt_spec s3 s1) as G3. destruct (score_gt s3 s1); [lra|].
    cbn [fst snd].
    pose proof (score_gt_spec s4 s1) as G4. destruct (score_gt s4 s1); [lra|].
    reflexivity. }
  split; [exact Hd|].
  unfold ConvertBufferToUtf8. destruct p as [|x b]; [done|].
  rewrite Hbom, Hd, drop_0. cbn [String.eqb Ascii.eqb Bool.eqb].
  by rewrite (decode_cp1251_letters _ Hp).
Qed.

Lemma cp1251_letters_detected_witness :
  DetectEncodingFromBuffer [0xCF; 0xF0; 0xE8; 0xE2; 0xE5; 0xF2] = "WINDOWS-1251"
  /\ ConvertBufferToUtf8 [0xCF; 0xF0; 0xE8; 0xE2; 0xE5; 0xF2]
     = (u32_to_utf8 (map cp1251_letter [0xCF; 0xF0; 0xE8; 0xE2; 0xE5; 0xF2]),
        "WINDOWS-1251").
Proof.
  apply cp1251_letters_detected.
  - discriminate.
  - repeat constructor; unfold is_cp1251_letter; lia.
  - intros [k Hk]. discriminate Hk.
  - intros [k Hk]. discriminate Hk.
Defined.
